(** * Compare plugin: session state machine of [Compare.cpp]

    A shallow embedding of the marker history stack
    ([DeletedSectionsList]), the alignment engine ([isAlignmentNeeded],
    [alignDiffs]), the incremental update scheduler
    ([onSciModifiedUpdate], [DelayedUpdate]), the compare flow
    ([compare], [addComparePair], [clearComparePair]) and the tab
    placement code ([ComparedPair::restoreFiles], [ComparedFile::restore])
    of [src/Compare.cpp], with the properties the specification states
    about them; then the delayed update at work
    ([DelayedUpdate::operator()]) and the plugin as Notepad++ drives it:
    [NppSettings], the handlers of [beNotified] and [messageProc], and
    the delayed activation, alignment, close and maximise. *)

From stdpp Require Import base numbers list.

Local Open Scope Z_scope.

(** ** Machine integers *)

Module Int.

(** [int] is 32-bit two's complement, [DWORD] is 32-bit unsigned. *)
Definition int_min : Z := - 2 ^ 31.
Definition int_max : Z := 2 ^ 31 - 1.

Definition wrap (z : Z) : Z := (z + 2 ^ 31) `mod` 2 ^ 32 - 2 ^ 31.
Definition dword (z : Z) : Z := z `mod` 2 ^ 32.

Definition add (a b : Z) : Z := wrap (a + b).
Definition neg (a : Z) : Z := wrap (- a).
Definition sub (a b : Z) : Z := wrap (a - b).
Definition incr (a : Z) : Z := wrap (a + 1).
Definition decr (a : Z) : Z := wrap (a - 1).

Definition in_range (z : Z) : Prop := int_min <= z <= int_max.

Lemma wrap_small z : in_range z → wrap z = z.
Proof.
  unfold in_range, int_min, int_max, wrap. intros H.
  rewrite Z.mod_small; lia.
Qed.

Lemma wrap_range z : in_range (wrap z).
Proof.
  unfold in_range, int_min, int_max, wrap.
  pose proof (Z.mod_pos_bound (z + 2 ^ 31) (2 ^ 32)). lia.
Qed.

Lemma wrap_add_l a b : wrap (wrap a + b) = wrap (a + b).
Proof.
  unfold wrap.
  replace ((a + 2 ^ 31) `mod` 2 ^ 32 - 2 ^ 31 + b + 2 ^ 31)
    with ((a + 2 ^ 31) `mod` 2 ^ 32 + b) by lia.
  rewrite Zplus_mod_idemp_l. f_equal. f_equal. lia.
Qed.

Lemma wrap_add_r a b : wrap (a + wrap b) = wrap (a + b).
Proof. rewrite (Z.add_comm a), wrap_add_l. f_equal. lia. Qed.

Lemma incr_small z : int_min <= z < int_max → incr z = z + 1.
Proof. intros H. apply wrap_small. unfold in_range. lia. Qed.

Lemma decr_small z : int_min < z <= int_max → decr z = z - 1.
Proof. intros H. apply wrap_small. unfold in_range. lia. Qed.

Lemma dword_small z : 0 <= z < 2 ^ 32 → dword z = z.
Proof. intros H. unfold dword. rewrite Z.mod_small; lia. Qed.

End Int.

(** ** Scintilla notification flags ([Scintilla.h]) *)

Definition SC_MOD_INSERTTEXT   : Z := 0x1.
Definition SC_MOD_DELETETEXT   : Z := 0x2.
Definition SC_PERFORMED_USER   : Z := 0x10.
Definition SC_PERFORMED_UNDO   : Z := 0x20.
Definition SC_PERFORMED_REDO   : Z := 0x40.
Definition SC_MOD_BEFOREDELETE : Z := 0x800.

(** [flag & mask] used as a C++ condition. *)
Definition has_flag (flags mask : Z) : bool := negb (Z.land flags mask =? 0).

(** ** The two views of Notepad++ *)

Inductive ViewId : Type := MAIN_VIEW | SUB_VIEW.

Definition view_eqb (a b : ViewId) : bool :=
  match a, b with
  | MAIN_VIEW, MAIN_VIEW | SUB_VIEW, SUB_VIEW => true
  | _, _ => false
  end.

Definition otherView (v : ViewId) : ViewId :=
  match v with MAIN_VIEW => SUB_VIEW | SUB_VIEW => MAIN_VIEW end.

Lemma view_eqb_eq a b : view_eqb a b = true ↔ a = b.
Proof. destruct a, b; simpl; split; congruence. Qed.

Lemma view_eqb_refl a : view_eqb a a = true.
Proof. by destruct a. Qed.

(** ** The editor view the marker history works on

    [markerGet] is [SCI_MARKERGET], [positionFromLine] is
    [SCI_POSITIONFROMLINE]; [changedIndicator p] tells whether byte [p]
    carries the "changed" indicator. *)

Record Sci : Type := mkSci {
  markerGet        : Z → Z;
  positionFromLine : Z → Z;
  changedIndicator : Z → bool
}.

(** [SCI_MARKERPREVIOUS]: the greatest line not above [lineStart] that
    carries a marker of [mask], [-1] when there is none. *)
Fixpoint markerPrevious_from (m : Z → Z) (mask : Z) (n : nat) : Z :=
  match n with
  | O => -1
  | S k => if Z.land (m (Z.of_nat k)) mask =? 0
           then markerPrevious_from m mask k
           else Z.of_nat k
  end.

Definition markerPrevious (ed : Sci) (lineStart mask : Z) : Z :=
  markerPrevious_from (markerGet ed) mask (Z.to_nat (lineStart + 1)).

(** [SCI_MARKERADDSET]. *)
Definition markerAddSet (ed : Sci) (line set : Z) : Sci :=
  mkSci (λ l, if l =? line then Z.lor (markerGet ed l) set else markerGet ed l)
        (positionFromLine ed) (changedIndicator ed).

(** ** Marker history stack ([DeletedSection], [DeletedSectionsList]) *)

Module MarkerHistory.

Record DeletedSection : Type := mkSection {
  startLine     : Z;
  lineReplace   : bool;
  restoreAction : Z;
  markers       : list Z
}.

(** The constructor [DeletedSection(action, line, len)]. *)
Definition newSection (action line len : Z) : DeletedSection :=
  mkSection line false
            (if action =? SC_PERFORMED_UNDO then SC_PERFORMED_REDO else SC_PERFORMED_UNDO)
            (replicate (Z.to_nat len) 0).

Definition setLineReplace (d : DeletedSection) : DeletedSection :=
  mkSection (startLine d) true (restoreAction d) (markers d).

(** [sections] is the vector, its back is the last element. *)
Record DeletedSectionsList : Type := mkList {
  skipPush         : Z;
  lastPushTimeMark : Z;
  sections         : list DeletedSection
}.

Definition empty : DeletedSectionsList := mkList 0 0 [].

Definition clear (st : DeletedSectionsList) : DeletedSectionsList :=
  mkList 0 (lastPushTimeMark st) [].

Section WithMasks.

(** The marker masks of [NppHelpers.h]: [MARKER_MASK_LINE] selects the
    line markers, [MARKER_MASK_ALL] every marker of the plugin. *)
Variables MARKER_MASK_LINE MARKER_MASK_ALL : Z.

(** Modelled from the spec: [clearMarks(view, line)] of [NppHelpers],
    which removes the plugin's markers from one line. *)
Definition clearMarks (ed : Sci) (line : Z) : Sci :=
  mkSci (λ l, if l =? line
              then Z.land (markerGet ed l) (Z.lnot MARKER_MASK_ALL)
              else markerGet ed l)
        (positionFromLine ed) (changedIndicator ed).

(** Modelled from the spec: [clearChangedIndicator(view, pos, len)] of
    [NppHelpers], which clears the "changed" indicator over [len]
    bytes from [pos]. *)
Definition clearChangedIndicator (ed : Sci) (pos len : Z) : Sci :=
  mkSci (markerGet ed) (positionFromLine ed)
        (λ p, if (pos <=? p) && (p <? pos + len) then false
              else changedIndicator ed p).

(** The [for] loop of [push]: [line] walks down the marked lines; each
    turn moves [line] at least one line up, so [fuel] turns are enough
    when [fuel] exceeds the number of lines from [line] down to
    [startLine]. *)
Fixpoint push_loop (fuel : nat) (startLine endLine line : Z)
         (ed : Sci) (mk : list Z) : Sci * list Z :=
  match fuel with
  | O => (ed, mk)
  | S fuel' =>
      if line >=? startLine then
        let mk' := <[Z.to_nat (line - startLine) :=
                       Z.land (markerGet ed line) MARKER_MASK_ALL]> mk in
        let ed' := if line =? endLine then ed else clearMarks ed line in
        push_loop fuel' startLine endLine
                  (markerPrevious ed' (line - 1) MARKER_MASK_LINE) ed' mk'
      else (ed, mk)
  end.

(** The test [!sections.empty() && sections.back().restoreAction ==
    currAction && sections.back().lineReplace]. *)
Definition isReplaceRevert (st : DeletedSectionsList) (currAction : Z) : bool :=
  match last (sections st) with
  | Some back => (restoreAction back =? currAction) && lineReplace back
  | None => false
  end.

(** The part of [push] behind its three guards. *)
Definition push_record (now currAction startLine endLine : Z)
           (st : DeletedSectionsList) (ed : Sci) : DeletedSectionsList * Sci :=
  let delSection := newSection currAction startLine (endLine - startLine + 1) in
  let startPos := positionFromLine ed startLine in
  let ed1 := clearChangedIndicator ed startPos (positionFromLine ed endLine - startPos) in
  let '(ed2, mk) :=
    push_loop (Z.to_nat (endLine - startLine + 2)) startLine endLine
              (markerPrevious ed1 endLine MARKER_MASK_LINE) ed1 (markers delSection) in
  (mkList (skipPush st) now
          (sections st ++ [mkSection (MarkerHistory.startLine delSection)
                                     (lineReplace delSection)
                                     (restoreAction delSection) mk]),
   ed2).

(** [push]; [now] is the value [GetTickCount()] returns. *)
Definition push (now currAction startLine endLine : Z)
           (st : DeletedSectionsList) (ed : Sci) : DeletedSectionsList * Sci :=
  if endLine <=? startLine then (st, ed)
  else if negb (skipPush st =? 0) then
    (mkList (Int.decr (skipPush st)) (lastPushTimeMark st) (sections st), ed)
  else if isReplaceRevert st currAction then (st, ed)
  else push_record now currAction startLine endLine st ed.

(** The [for] loop of [pop] over the saved markers, [line] being
    [last.startLine + i]. *)
Fixpoint pop_loop (line : Z) (mk : list Z) (ed : Sci) : Sci :=
  match mk with
  | [] => ed
  | m :: mk' =>
      let ed1 := clearMarks ed line in
      let ed2 := if m =? 0 then ed1 else markerAddSet ed1 line m in
      pop_loop (line + 1) mk' ed2
  end.

(** The test [::GetTickCount() < lastPushTimeMark + 40], on [DWORD]s;
    [now] is the value [GetTickCount()] returns. *)
Definition inReplaceWindow (st : DeletedSectionsList) (now : Z) : bool :=
  now <? Int.dword (lastPushTimeMark st + 40).

(** [pop]. *)
Definition pop (now currAction startLine : Z)
           (st : DeletedSectionsList) (ed : Sci) : DeletedSectionsList * Sci :=
  match last (sections st) with
  | None => (mkList (Int.incr (skipPush st)) (lastPushTimeMark st) (sections st), ed)
  | Some back =>
      if negb (restoreAction back =? currAction) then
        if inReplaceWindow st now then
          (mkList (skipPush st) (lastPushTimeMark st)
                  (removelast (sections st) ++ [setLineReplace back]), ed)
        else
          (mkList (Int.incr (skipPush st)) (lastPushTimeMark st) (sections st), ed)
      else if negb (MarkerHistory.startLine back =? startLine) then (st, ed)
      else
        let linesCount := Z.of_nat (length (markers back)) in
        let startPos := positionFromLine ed (MarkerHistory.startLine back) in
        let ed1 := clearChangedIndicator ed startPos
                     (positionFromLine ed (MarkerHistory.startLine back + linesCount) - startPos) in
        (mkList (skipPush st) (lastPushTimeMark st) (removelast (sections st)),
         pop_loop (MarkerHistory.startLine back) (markers back) ed1)
  end.

End WithMasks.

(** [onSciModified]: the notification of a compared buffer, with the
    lines [SCI_LINEFROMPOSITION] gives for [position] and
    [position + length]. *)
Record Notification : Type := mkNotification {
  modificationType : Z;
  lineOfPosition   : Z;
  lineOfEnd        : Z;
  linesAdded       : Z
}.

Definition currActionOf (n : Notification) : Z :=
  Z.land (modificationType n)
         (Z.lor (Z.lor SC_PERFORMED_USER SC_PERFORMED_UNDO) SC_PERFORMED_REDO).

Definition onSciModified (mLine mAll : Z) (now : Z) (n : Notification)
           (st : DeletedSectionsList) (ed : Sci) : DeletedSectionsList * Sci :=
  if has_flag (modificationType n) SC_MOD_BEFOREDELETE then
    if lineOfEnd n <=? lineOfPosition n then (st, ed)
    else push mLine mAll now (currActionOf n) (lineOfPosition n) (lineOfEnd n) st ed
  else if has_flag (modificationType n) SC_MOD_INSERTTEXT && negb (linesAdded n =? 0) then
    pop mAll now (currActionOf n) (lineOfPosition n) st ed
  else (st, ed).

(** *** What [SCI_MARKERPREVIOUS] finds *)

Lemma markerPrevious_from_lower m mask n : -1 <= markerPrevious_from m mask n.
Proof. induction n as [|k IH]; simpl; [lia|]. destruct (_ =? 0); lia. Qed.

Lemma markerPrevious_from_upper m mask n :
  markerPrevious_from m mask n < Z.of_nat n.
Proof. induction n as [|k IH]; simpl; [lia|]. destruct (_ =? 0); lia. Qed.

Lemma markerPrevious_from_marked m mask n :
  markerPrevious_from m mask n ≠ -1 →
  Z.land (m (markerPrevious_from m mask n)) mask ≠ 0.
Proof.
  induction n as [|k IH]; simpl; [lia|].
  destruct (Z.land (m (Z.of_nat k)) mask =? 0) eqn:E; [exact IH|].
  intros _. apply Z.eqb_neq. exact E.
Qed.

Lemma markerPrevious_from_skipped m mask n l :
  markerPrevious_from m mask n < l < Z.of_nat n → Z.land (m l) mask = 0.
Proof.
  induction n as [|k IH]; simpl; [lia|].
  destruct (Z.land (m (Z.of_nat k)) mask =? 0) eqn:E; [|lia].
  intros H. destruct (decide (l = Z.of_nat k)) as [->|Hne].
  - by apply Z.eqb_eq.
  - apply IH. lia.
Qed.

Lemma markerPrevious_from_ext m m' mask n :
  (∀ l, 0 <= l < Z.of_nat n → m l = m' l) →
  markerPrevious_from m mask n = markerPrevious_from m' mask n.
Proof.
  induction n as [|k IH]; simpl; [done|]. intros H.
  rewrite <- (H (Z.of_nat k)) by lia.
  rewrite IH; [done|]. intros l Hl. apply H. lia.
Qed.

Lemma markerPrevious_lower ed x mask : -1 <= markerPrevious ed x mask.
Proof. apply markerPrevious_from_lower. Qed.

Lemma markerPrevious_upper ed x mask : -1 <= x → markerPrevious ed x mask <= x.
Proof.
  intros Hx. unfold markerPrevious.
  pose proof (markerPrevious_from_upper (markerGet ed) mask (Z.to_nat (x + 1))). lia.
Qed.

Lemma markerPrevious_marked ed x mask :
  markerPrevious ed x mask ≠ -1 →
  Z.land (markerGet ed (markerPrevious ed x mask)) mask ≠ 0.
Proof. apply markerPrevious_from_marked. Qed.

Lemma markerPrevious_skipped ed x mask l :
  markerPrevious ed x mask < l <= x → Z.land (markerGet ed l) mask = 0.
Proof. intros H. apply markerPrevious_from_skipped with (n := Z.to_nat (x + 1)). unfold markerPrevious in H. lia. Qed.

Lemma markerPrevious_ext ed ed' x mask :
  (∀ l, 0 <= l <= x → markerGet ed l = markerGet ed' l) →
  markerPrevious ed x mask = markerPrevious ed' x mask.
Proof. intros H. apply markerPrevious_from_ext. intros l Hl. apply H. lia. Qed.

(** *** Bit masks *)

Lemma land_lnot_lor_land x a : Z.lor (Z.land x (Z.lnot a)) (Z.land x a) = x.
Proof.
  apply Z.bits_inj'. intros n Hn.
  rewrite Z.lor_spec, !Z.land_spec, Z.lnot_spec by done.
  destruct (Z.testbit x n), (Z.testbit a n); done.
Qed.

Lemma land_lnot_land x a : Z.land (Z.land x (Z.lnot a)) a = 0.
Proof.
  apply Z.bits_inj'. intros n Hn.
  rewrite !Z.land_spec, Z.lnot_spec, Z.bits_0 by done.
  destruct (Z.testbit x n), (Z.testbit a n); done.
Qed.

Lemma land_lnot_idem x a : Z.land (Z.land x (Z.lnot a)) (Z.lnot a) = Z.land x (Z.lnot a).
Proof. rewrite <- Z.land_assoc, Z.land_diag. done. Qed.

Lemma land_lor_masked x y a : Z.land (Z.lor (Z.land x (Z.lnot a)) (Z.land y a)) a = Z.land y a.
Proof.
  rewrite Z.land_lor_distr_l, land_lnot_land, Z.lor_0_l.
  rewrite <- Z.land_assoc, Z.land_diag. done.
Qed.

Lemma land_lor_unmasked x y a :
  Z.land (Z.lor (Z.land x (Z.lnot a)) (Z.land y a)) (Z.lnot a) = Z.land x (Z.lnot a).
Proof.
  apply Z.bits_inj'. intros n Hn.
  rewrite !Z.land_spec, Z.lor_spec, !Z.land_spec, Z.lnot_spec by done.
  destruct (Z.testbit x n), (Z.testbit y n), (Z.testbit a n); done.
Qed.

(** *** The stack as a vector *)

Lemma last_app_one {A} (l : list A) (x : A) : last (l ++ [x]) = Some x.
Proof. apply last_snoc. Qed.

Lemma last_is_Some_app {A} (l : list A) (x : A) :
  last l = Some x → l = removelast l ++ [x].
Proof.
  intros H. destruct (decide (l = [])) as [->|Hne]; [done|].
  destruct (exists_last Hne) as (l' & y & ->).
  rewrite last_snoc in H. injection H as ->. by rewrite removelast_last.
Qed.

(** *** The two loops *)

Section Loops.

Variables mLine mAll : Z.

(** What [push] saves for a line with markers [b], and what it leaves
    on the line. *)
Definition captured (b : Z) : Z :=
  if Z.land b mLine =? 0 then 0 else Z.land b mAll.

Definition pushed (startLine endLine : Z) (m : Z → Z) (l : Z) : Z :=
  if (startLine <=? l) && (l <? endLine) && negb (Z.land (m l) mLine =? 0)
  then Z.land (m l) (Z.lnot mAll)
  else m l.

Lemma captured_masked b : Z.land (captured b) mAll = captured b.
Proof.
  unfold captured. destruct (_ =? 0); [done|].
  rewrite <- Z.land_assoc, Z.land_diag. done.
Qed.

Lemma push_loop_spec (m0 : Z → Z) (s e : Z) (fuel : nat) :
  0 <= s →
  ∀ line ed mk,
    -1 <= line <= e →
    (s <= line → Z.land (m0 line) mLine ≠ 0) →
    (Z.to_nat (line - s + 2) ≤ fuel)%nat →
    length mk = Z.to_nat (e - s + 1) →
    (∀ l, l <= line → markerGet ed l = m0 l) →
    (∀ l, line < l → markerGet ed l = pushed s e m0 l) →
    (∀ i, (i < length mk)%nat →
          mk !! i = Some (if s + Z.of_nat i <=? line then 0
                          else captured (m0 (s + Z.of_nat i)))) →
    let r := push_loop mLine mAll fuel s e line ed mk in
    (∀ l, markerGet r.1 l = pushed s e m0 l) ∧
    positionFromLine r.1 = positionFromLine ed ∧
    changedIndicator r.1 = changedIndicator ed ∧
    length r.2 = Z.to_nat (e - s + 1) ∧
    (∀ i, (i < length mk)%nat → r.2 !! i = Some (captured (m0 (s + Z.of_nat i)))).
Proof.
  intros Hs. induction fuel as [|fuel IH]; intros line ed mk Hline Hmarked Hfuel Hlen Hlow Hhigh Hmk.
  - assert (line < s) by lia. simpl. repeat split; try done.
    + intros l. destruct (decide (l <= line)) as [Hl|Hl].
      * rewrite Hlow by done. unfold pushed.
        destruct (s <=? l) eqn:E; [apply Z.leb_le in E; lia|done].
      * apply Hhigh. lia.
    + intros i Hi. rewrite Hmk by done.
      destruct (s + Z.of_nat i <=? line) eqn:E; [apply Z.leb_le in E; lia|done].
  - simpl. destruct (line >=? s) eqn:Hge.
    2:{ assert (line < s) by lia. simpl. repeat split; try done.
        + intros l. destruct (decide (l <= line)) as [Hl|Hl].
          * rewrite Hlow by done. unfold pushed.
            destruct (s <=? l) eqn:E; [apply Z.leb_le in E; lia|done].
          * apply Hhigh. lia.
        + intros i Hi. rewrite Hmk by done.
          destruct (s + Z.of_nat i <=? line) eqn:E; [apply Z.leb_le in E; lia|done]. }
    assert (Hsl : s <= line) by lia.
    specialize (Hmarked Hsl).
    set (ed' := if line =? e then ed else clearMarks mAll ed line).
    set (mk' := <[Z.to_nat (line - s):=Z.land (markerGet ed line) mAll]> mk).
    set (line' := markerPrevious ed' (line - 1) mLine).
    assert (Hed'_other : ∀ l, l ≠ line → markerGet ed' l = markerGet ed l).
    { intros l Hl. unfold ed'. destruct (line =? e); [done|]. simpl.
      destruct (l =? line) eqn:E; [apply Z.eqb_eq in E; lia|done]. }
    assert (Hed'_line : markerGet ed' line = pushed s e m0 line).
    { unfold ed', pushed. destruct (line =? e) eqn:E.
      - apply Z.eqb_eq in E. rewrite Hlow by lia.
        destruct (line <? e) eqn:E'; [apply Z.ltb_lt in E'; lia|].
        by rewrite andb_false_r.
      - apply Z.eqb_neq in E. simpl. rewrite Z.eqb_refl, Hlow by lia.
        destruct (s <=? line) eqn:E1; [|apply Z.leb_gt in E1; lia].
        destruct (line <? e) eqn:E2; [|apply Z.ltb_ge in E2; lia].
        destruct (Z.land (m0 line) mLine =? 0) eqn:E3; [apply Z.eqb_eq in E3; done|done]. }
    assert (Hlow' : ∀ l, l < line → markerGet ed' l = m0 l).
    { intros l Hl. rewrite Hed'_other by lia. apply Hlow. lia. }
    assert (Hl'1 : -1 <= line') by apply markerPrevious_lower.
    assert (Hl'2 : line' <= line - 1) by (apply markerPrevious_upper; lia).
    assert (Hskip : ∀ l, line' < l < line → Z.land (m0 l) mLine = 0).
    { intros l Hl. rewrite <- Hlow' by lia.
      apply markerPrevious_skipped with (x := line - 1). fold line'. lia. }
    assert (Hlen' : length mk' = Z.to_nat (e - s + 1)).
    { unfold mk'. by rewrite length_insert. }
    assert (Hgoal := IH line' ed' mk').
    assert (Hmk'len : length mk' = length mk) by (unfold mk'; apply length_insert).
    rewrite Hmk'len in Hgoal.
    destruct Hgoal as (G1 & G2 & G3 & G4 & G5); try done; try lia.
    + intros Hs'. rewrite <- Hlow' by lia.
      apply markerPrevious_marked. fold line'. lia.
    + intros l Hl. apply Hlow'. lia.
    + intros l Hl. destruct (decide (l = line)) as [->|Hne]; [done|].
      destruct (decide (line < l)) as [Hgt|Hngt].
      * rewrite Hed'_other by done. by apply Hhigh.
      * rewrite Hlow' by lia. unfold pushed.
        rewrite (Hskip l) by lia. simpl. by rewrite andb_false_r.
    + intros i Hi. unfold mk'.
      destruct (decide (i = Z.to_nat (line - s))) as [->|Hne].
      * rewrite list_lookup_insert_eq by done.
        rewrite Z2Nat.id by lia.
        replace (s + (line - s)) with line by lia.
        destruct (line <=? line') eqn:E; [apply Z.leb_le in E; lia|].
        rewrite Hlow by lia. unfold captured.
        destruct (Z.land (m0 line) mLine =? 0) eqn:E3; [apply Z.eqb_eq in E3; done|done].
      * rewrite list_lookup_insert_ne by done. rewrite Hmk by done.
        destruct (s + Z.of_nat i <=? line) eqn:E1, (s + Z.of_nat i <=? line') eqn:E2;
          try done.
        -- apply Z.leb_le in E1. apply Z.leb_gt in E2.
           assert (s + Z.of_nat i < line) by lia.
           unfold captured. by rewrite (Hskip (s + Z.of_nat i)) by lia.
        -- apply Z.leb_gt in E1. apply Z.leb_le in E2. lia.
    + repeat split; try done.
      * rewrite G2. unfold ed'. by destruct (line =? e).
      * rewrite G3. unfold ed'. by destruct (line =? e).
Qed.

Lemma pop_step_line ed line m :
  markerGet (if m =? 0 then clearMarks mAll ed line
             else markerAddSet (clearMarks mAll ed line) line m) line
  = Z.lor (Z.land (markerGet ed line) (Z.lnot mAll)) m.
Proof.
  destruct (m =? 0) eqn:E; simpl; rewrite Z.eqb_refl.
  - apply Z.eqb_eq in E. subst m. by rewrite Z.lor_0_r.
  - done.
Qed.

Lemma pop_step_other ed line m l :
  l ≠ line →
  markerGet (if m =? 0 then clearMarks mAll ed line
             else markerAddSet (clearMarks mAll ed line) line m) l
  = markerGet ed l.
Proof.
  intros Hl. assert (E : (l =? line) = false) by by apply Z.eqb_neq.
  destruct (m =? 0); simpl; by rewrite E.
Qed.

Lemma pop_loop_spec (mk : list Z) :
  ∀ line ed,
    let r := pop_loop mAll line mk ed in
    (∀ i m, mk !! i = Some m →
            markerGet r (line + Z.of_nat i)
            = Z.lor (Z.land (markerGet ed (line + Z.of_nat i)) (Z.lnot mAll)) m) ∧
    (∀ l, ¬ (line <= l < line + Z.of_nat (length mk)) → markerGet r l = markerGet ed l) ∧
    positionFromLine r = positionFromLine ed ∧
    changedIndicator r = changedIndicator ed.
Proof.
  induction mk as [|m mk IH]; intros line ed; simpl.
  - repeat split; try done.
  - set (ed2 := if m =? 0 then clearMarks mAll ed line
                else markerAddSet (clearMarks mAll ed line) line m).
    destruct (IH (line + 1) ed2) as (G1 & G2 & G3 & G4).
    repeat split.
    + intros [|i] m' Hm'; simpl in Hm'.
      * injection Hm' as <-. rewrite G2 by lia.
        replace (line + Z.of_nat 0) with line by lia. apply pop_step_line.
      * replace (line + Z.of_nat (S i)) with (line + 1 + Z.of_nat i) by lia.
        rewrite (G1 i m' Hm'). f_equal. f_equal.
        apply pop_step_other. lia.
    + intros l Hl. rewrite G2 by lia. apply pop_step_other. lia.
    + rewrite G3. unfold ed2. by destruct (m =? 0).
    + rewrite G4. unfold ed2. by destruct (m =? 0).
Qed.

(** The record and the editor [push] leaves when none of its guards
    fires. *)
Lemma push_record_spec now a s e st ed :
  0 <= s → s < e →
  let r := push_record mLine mAll now a s e st ed in
  ∃ mk,
    r.1 = mkList (skipPush st) now
                 (sections st ++ [mkSection s false (restoreAction (newSection a s (e - s + 1))) mk]) ∧
    length mk = Z.to_nat (e - s + 1) ∧
    (∀ i, (i < length mk)%nat →
          mk !! i = Some (captured (markerGet ed (s + Z.of_nat i)))) ∧
    (∀ l, markerGet r.2 l = pushed s e (markerGet ed) l) ∧
    positionFromLine r.2 = positionFromLine ed ∧
    (∀ p, changedIndicator r.2 p =
          if (positionFromLine ed s <=? p) && (p <? positionFromLine ed e)
          then false else changedIndicator ed p).
Proof.
  intros Hs Hse. unfold push_record.
  set (ed1 := clearChangedIndicator ed _ _).
  set (line0 := markerPrevious ed1 e mLine).
  set (mk0 := markers (newSection a s (e - s + 1))).
  assert (Hmk0 : length mk0 = Z.to_nat (e - s + 1)).
  { unfold mk0. simpl. apply length_replicate. }
  assert (H1 : -1 <= line0) by apply markerPrevious_lower.
  assert (H2 : line0 <= e) by (apply markerPrevious_upper; lia).
  assert (Hskip : ∀ l, line0 < l <= e → Z.land (markerGet ed l) mLine = 0).
  { intros l Hl. by apply (markerPrevious_skipped ed1 e mLine l). }
  pose proof (push_loop_spec (markerGet ed) s e (Z.to_nat (e - s + 2)) Hs line0 ed1 mk0)
    as Hloop.
  destruct Hloop as (G1 & G2 & G3 & G4 & G5); try done; try lia.
  - intros Hl. apply (markerPrevious_marked ed1 e mLine). fold line0. lia.
  - intros l Hl. unfold pushed.
    destruct (decide (l <= e)) as [Hle|Hgt].
    + rewrite (Hskip l) by lia. simpl. by rewrite andb_false_r.
    + destruct (l <? e) eqn:E; [apply Z.ltb_lt in E; lia|].
      by rewrite andb_false_r.
  - intros i Hi. unfold mk0. simpl.
    rewrite lookup_replicate_2 by (rewrite Hmk0 in Hi; lia).
    destruct (s + Z.of_nat i <=? line0) eqn:E; [done|].
    apply Z.leb_gt in E. unfold captured.
    rewrite Hskip; [done|]. rewrite Hmk0 in Hi. lia.
  - destruct (push_loop mLine mAll (Z.to_nat (e - s + 2)) s e line0 ed1 mk0) as [ed2 mk] eqn:E.
    simpl in *. exists mk. repeat split; try done.
    + rewrite Hmk0 in G5. by rewrite G4.
    + intros p. rewrite G3. simpl.
      replace (positionFromLine ed s + (positionFromLine ed e - positionFromLine ed s))
        with (positionFromLine ed e) by lia. done.
Qed.

(** [push] with none of its guards firing is [push_record]. *)
Lemma push_records now a s e st ed :
  s < e → skipPush st = 0 → isReplaceRevert st a = false →
  push mLine mAll now a s e st ed = push_record mLine mAll now a s e st ed.
Proof.
  intros Hse Hskip Hrev. unfold push.
  destruct (e <=? s) eqn:E; [apply Z.leb_le in E; lia|].
  by rewrite Hskip, Hrev.
Qed.

(** A [pop] with the action and the line of the top record. *)
Lemma pop_matching now rest d skip tm ed :
  let r := pop mAll now (restoreAction d) (startLine d) (mkList skip tm (rest ++ [d])) ed in
  r.1 = mkList skip tm rest ∧
  (∀ i m, markers d !! i = Some m →
          markerGet r.2 (startLine d + Z.of_nat i)
          = Z.lor (Z.land (markerGet ed (startLine d + Z.of_nat i)) (Z.lnot mAll)) m) ∧
  (∀ l, ¬ (startLine d <= l < startLine d + Z.of_nat (length (markers d))) →
        markerGet r.2 l = markerGet ed l) ∧
  positionFromLine r.2 = positionFromLine ed ∧
  (∀ p, changedIndicator r.2 p =
        if (positionFromLine ed (startLine d) <=? p)
           && (p <? positionFromLine ed (startLine d + Z.of_nat (length (markers d))))
        then false else changedIndicator ed p).
Proof.
  unfold pop. simpl. rewrite last_snoc, !Z.eqb_refl. simpl.
  rewrite removelast_last.
  set (ed1 := clearChangedIndicator ed _ _).
  destruct (pop_loop_spec (markers d) (startLine d) ed1) as (G1 & G2 & G3 & G4).
  repeat split; try done.
  intros p. rewrite G4. simpl.
  match goal with |- context [?a + (?b - ?a)] => replace (a + (b - a)) with b by lia end.
  done.
Qed.

End Loops.

(** *** Recording a deletion *)

(** An instance of the marker masks for the concrete runs below: four
    line markers (bits 0 to 3) and four symbol markers (bits 5 to 8). *)
Definition lineMask : Z := 0xF.
Definition allMask  : Z := 0x1EF.

(** A view whose lines are ten bytes long, every byte carrying the
    "changed" indicator: line 3 has a line marker and its symbol, line 4
    a symbol marker alone, line 5 a line marker. *)
Definition sampleView : Sci :=
  mkSci (λ l, if l =? 3 then 0x21 else if l =? 4 then 0x20 else if l =? 5 then 0x2 else 0)
        (λ l, 10 * l) (λ _, true).

(** C2 (amended): a push of a multi-line range with [skipPush] zero and
    no line-replace record to revert saves, for each line of
    [startLine..endLine] that carries a line marker, the line's plugin
    markers (zero for the other lines), removes the plugin markers of
    those lines except on [endLine], which keeps its markers as does
    every line without a line marker, clears the "changed" indicator
    from the first byte of [startLine] up to the first byte of
    [endLine], and pushes the record on the stack. *)
Theorem push_captures_and_clears mLine mAll now a s e st ed :
  0 <= s → s < e → skipPush st = 0 → isReplaceRevert st a = false →
  let r := push mLine mAll now a s e st ed in
  ∃ mk,
    r.1 = mkList 0 now
            (sections st ++ [mkSection s false (restoreAction (newSection a s (e - s + 1))) mk]) ∧
    length mk = Z.to_nat (e - s + 1) ∧
    (∀ l, s <= l <= e →
          mk !! Z.to_nat (l - s)
          = Some (if Z.land (markerGet ed l) mLine =? 0 then 0
                  else Z.land (markerGet ed l) mAll)) ∧
    (∀ l, s <= l < e → Z.land (markerGet ed l) mLine ≠ 0 →
          markerGet r.2 l = Z.land (markerGet ed l) (Z.lnot mAll) ∧
          Z.land (markerGet r.2 l) mAll = 0) ∧
    (∀ l, ¬ (s <= l < e ∧ Z.land (markerGet ed l) mLine ≠ 0) →
          markerGet r.2 l = markerGet ed l) ∧
    (∀ p, positionFromLine ed s <= p < positionFromLine ed e →
          changedIndicator r.2 p = false) ∧
    (∀ p, ¬ (positionFromLine ed s <= p < positionFromLine ed e) →
          changedIndicator r.2 p = changedIndicator ed p).
Proof.
  intros Hs Hse Hskip Hrev r. unfold r. rewrite push_records by done.
  destruct (push_record_spec mLine mAll now a s e st ed Hs Hse)
    as (mk & G1 & G2 & G3 & G4 & G5 & G6).
  exists mk. rewrite Hskip in G1. repeat split; try done.
  - intros l Hl. rewrite G3 by lia. rewrite Z2Nat.id by lia.
    replace (s + (l - s)) with l by lia. done.
  - rewrite G4. unfold pushed.
    destruct (s <=? l) eqn:E1; [|apply Z.leb_gt in E1; lia].
    destruct (l <? e) eqn:E2; [|apply Z.ltb_ge in E2; lia].
    destruct (Z.land (markerGet ed l) mLine =? 0) eqn:E3; [apply Z.eqb_eq in E3; done|done].
  - rewrite G4. unfold pushed.
    destruct (s <=? l) eqn:E1; [|apply Z.leb_gt in E1; lia].
    destruct (l <? e) eqn:E2; [|apply Z.ltb_ge in E2; lia].
    destruct (Z.land (markerGet ed l) mLine =? 0) eqn:E3; [apply Z.eqb_eq in E3; done|].
    simpl. apply land_lnot_land.
  - intros l Hl. rewrite G4. unfold pushed.
    destruct (s <=? l) eqn:E1; [|done].
    destruct (l <? e) eqn:E2; [|done].
    destruct (Z.land (markerGet ed l) mLine =? 0) eqn:E3; [done|].
    exfalso. apply Hl. apply Z.leb_le in E1. apply Z.ltb_lt in E2. apply Z.eqb_neq in E3.
    done.
  - intros p Hp. rewrite G6.
    destruct (positionFromLine ed s <=? p) eqn:E1; [|apply Z.leb_gt in E1; lia].
    destruct (p <? positionFromLine ed e) eqn:E2; [|apply Z.ltb_ge in E2; lia].
    done.
  - intros p Hp. rewrite G6.
    destruct (positionFromLine ed s <=? p) eqn:E1; [|done].
    destruct (p <? positionFromLine ed e) eqn:E2; [|done].
    exfalso. apply Hp. apply Z.leb_le in E1. apply Z.ltb_lt in E2. done.
Qed.

Lemma push_captures_and_clears_witness :
  ∃ mk,
    (push lineMask allMask 1000 SC_PERFORMED_USER 3 5 empty sampleView).1
    = mkList 0 1000 [mkSection 3 false SC_PERFORMED_UNDO mk] ∧
    mk !! Z.to_nat (3 - 3) = Some 0x21.
Proof.
  destruct (push_captures_and_clears lineMask allMask 1000 SC_PERFORMED_USER 3 5
              empty sampleView) as (mk & G1 & _ & G3 & _); [lia|lia|reflexivity|reflexivity|].
  exists mk. split; [exact G1|]. apply (G3 3). lia.
Defined.

(** C2 as stated fails on the last line of the range, and on a line
    without a line marker: [push] over lines 3 to 5 leaves the line marker
    of line 5 in place, and it neither saves nor clears the symbol marker
    of line 4. *)
Lemma push_keeps_endLine_markers :
  let r := push lineMask allMask 1000 SC_PERFORMED_USER 3 5 empty sampleView in
  3 < 5 ∧ skipPush empty = 0 ∧ isReplaceRevert empty SC_PERFORMED_USER = false ∧
  Z.land (markerGet r.2 5) allMask ≠ 0 ∧
  markerGet sampleView 4 = 0x20 ∧ markerGet r.2 4 = 0x20 ∧
  sections r.1 = [mkSection 3 false SC_PERFORMED_UNDO [0x21; 0; 0x2]].
Proof. repeat split; try done. Qed.

(** *** Undoing a recorded deletion *)

(** The markers a matching [pop] leaves after a recording [push]: on each
    line of the range, the markers the [pop] finds that are not the
    plugin's, and the markers the [push] saved. *)
Lemma pop_after_push mLine mAll t0 a s e st ed :
  0 <= s → s < e →
  ∃ d,
    push_record mLine mAll t0 a s e st ed
    = (mkList (skipPush st) t0 (sections st ++ [d]),
       (push_record mLine mAll t0 a s e st ed).2) ∧
    startLine d = s ∧
    restoreAction d = restoreAction (newSection a s (e - s + 1)) ∧
    (∀ l, markerGet (push_record mLine mAll t0 a s e st ed).2 l
          = pushed mLine mAll s e (markerGet ed) l) ∧
    (∀ t1 ed1,
        let q := pop mAll t1 (restoreAction d) s
                     (mkList (skipPush st) t0 (sections st ++ [d])) ed1 in
        q.1 = mkList (skipPush st) t0 (sections st) ∧
        (∀ l, s <= l <= e →
              markerGet q.2 l
              = Z.lor (Z.land (markerGet ed1 l) (Z.lnot mAll))
                      (captured mLine mAll (markerGet ed l))) ∧
        (∀ l, ¬ (s <= l <= e) → markerGet q.2 l = markerGet ed1 l)).
Proof.
  intros Hs Hse.
  destruct (push_record_spec mLine mAll t0 a s e st ed Hs Hse)
    as (mk & G1 & G2 & G3 & G4 & G5 & G6).
  set (d := mkSection s false (restoreAction (newSection a s (e - s + 1))) mk) in *.
  exists d. repeat split; try done.
  - rewrite <- G1. by destruct (push_record _ _ _ _ _ _ _ _).
  - by destruct (pop_matching mAll t1 (sections st) d (skipPush st) t0 ed1) as (P1 & _).
  - intros l Hl.
    destruct (pop_matching mAll t1 (sections st) d (skipPush st) t0 ed1) as (_ & P2 & _).
    assert (Hidx : mk !! Z.to_nat (l - s) = Some (captured mLine mAll (markerGet ed l))).
    { rewrite G3 by lia. rewrite Z2Nat.id by lia.
      replace (s + (l - s)) with l by lia. done. }
    specialize (P2 (Z.to_nat (l - s)) _ Hidx). simpl in P2.
    rewrite Z2Nat.id in P2 by lia. replace (s + (l - s)) with l in P2 by lia.
    exact P2.
  - intros l Hl.
    destruct (pop_matching mAll t1 (sections st) d (skipPush st) t0 ed1) as (_ & _ & P3 & _).
    apply P3. simpl. rewrite G2. lia.
Qed.


(** C1 (amended): after a recording [push] over [startLine..endLine], a
    [pop] with the record's restore action and start line removes the
    record, which leaves the stack as it was before the push, and gives
    every line of the range that carried a line marker before the push
    exactly the plugin markers it had then; a line of the range that
    carried no line marker ends without plugin markers; markers that are
    not the plugin's and lines outside the range are left as the [pop]
    finds them. When the [pop] follows the [push] at once, every line of
    the range that carried a line marker, or no plugin marker at all,
    has its whole marker set back. *)
Theorem restore_fidelity mLine mAll t0 a s e st ed :
  0 <= s → s < e → skipPush st = 0 → isReplaceRevert st a = false →
  let p := push mLine mAll t0 a s e st ed in
  ∃ d,
    sections p.1 = sections st ++ [d] ∧ startLine d = s ∧
    restoreAction d = restoreAction (newSection a s (e - s + 1)) ∧
    (∀ t1 ed1,
        let q := pop mAll t1 (restoreAction d) s p.1 ed1 in
        q.1 = mkList (skipPush st) t0 (sections st) ∧
        (∀ l, s <= l <= e → Z.land (markerGet ed l) mLine ≠ 0 →
              Z.land (markerGet q.2 l) mAll = Z.land (markerGet ed l) mAll) ∧
        (∀ l, s <= l <= e → Z.land (markerGet ed l) mLine = 0 →
              Z.land (markerGet q.2 l) mAll = 0) ∧
        (∀ l, s <= l <= e →
              Z.land (markerGet q.2 l) (Z.lnot mAll) = Z.land (markerGet ed1 l) (Z.lnot mAll)) ∧
        (∀ l, ¬ (s <= l <= e) → markerGet q.2 l = markerGet ed1 l)) ∧
    (∀ t1 l,
        s <= l <= e →
        Z.land (markerGet ed l) mLine ≠ 0 ∨ Z.land (markerGet ed l) mAll = 0 →
        markerGet (pop mAll t1 (restoreAction d) s p.1 p.2).2 l = markerGet ed l).
Proof.
  intros Hs Hse Hskip Hrev p. unfold p. rewrite push_records by done.
  destruct (pop_after_push mLine mAll t0 a s e st ed Hs Hse)
    as (d & G1 & G2 & G3 & G4 & G5).
  exists d. rewrite G1. simpl. repeat split; try done.
  - by destruct (G5 t1 ed1) as (P1 & _).
  - intros l Hl Hm. destruct (G5 t1 ed1) as (_ & P2 & _). rewrite P2 by done.
    rewrite <- (captured_masked mLine mAll), land_lor_masked, captured_masked.
    unfold captured. destruct (_ =? 0) eqn:E; [apply Z.eqb_eq in E; done|done].
  - intros l Hl Hm. destruct (G5 t1 ed1) as (_ & P2 & _). rewrite P2 by done.
    rewrite <- (captured_masked mLine mAll), land_lor_masked, captured_masked.
    unfold captured. by rewrite Hm.
  - intros l Hl. destruct (G5 t1 ed1) as (_ & P2 & _). rewrite P2 by done.
    rewrite <- (captured_masked mLine mAll).
    apply land_lor_unmasked.
  - intros l Hl. destruct (G5 t1 ed1) as (_ & _ & P3). by apply P3.
  - intros t1 l Hl Hm.
    destruct (G5 t1 (push_record mLine mAll t0 a s e st ed).2) as (_ & P2 & _).
    rewrite P2 by done. rewrite G4. unfold pushed, captured.
    destruct Hm as [Hm|Hm].
    + destruct (Z.land (markerGet ed l) mLine =? 0) eqn:E; [apply Z.eqb_eq in E; done|].
      destruct ((s <=? l) && (l <? e)); simpl.
      * rewrite land_lnot_idem. apply land_lnot_lor_land.
      * apply land_lnot_lor_land.
    + assert (Hc : Z.land (markerGet ed l) (Z.lnot mAll) = markerGet ed l).
      { rewrite <- (land_lnot_lor_land (markerGet ed l) mAll) at 2.
        by rewrite Hm, Z.lor_0_r. }
      destruct (Z.land (markerGet ed l) mLine =? 0) eqn:E.
      * rewrite andb_false_r. by rewrite Z.lor_0_r.
      * destruct ((s <=? l) && (l <? e)); simpl;
          rewrite ?land_lnot_idem; apply land_lnot_lor_land.
Qed.

Lemma restore_fidelity_witness :
  ∃ d,
    sections (push lineMask allMask 1000 SC_PERFORMED_USER 3 5 empty sampleView).1
    = sections empty ++ [d] ∧
    (∀ t1,
       markerGet (pop allMask t1 (restoreAction d) 3
                      (push lineMask allMask 1000 SC_PERFORMED_USER 3 5 empty sampleView).1
                      (push lineMask allMask 1000 SC_PERFORMED_USER 3 5 empty sampleView).2).2 3
       = markerGet sampleView 3).
Proof.
  destruct (restore_fidelity lineMask allMask 1000 SC_PERFORMED_USER 3 5 empty sampleView)
    as (d & G1 & _ & _ & _ & G5); [lia|lia|reflexivity|reflexivity|].
  exists d. split; [exact G1|]. intros t1. apply G5; [lia|]. left. vm_compute. discriminate.
Defined.

(** C1 as stated fails for a line that carries a plugin marker but no
    line marker: line 4 of [sampleView] has a symbol marker before the
    deletion of lines 3 to 5 and no marker after its undo. *)
Lemma pop_drops_symbol_only_marker :
  let p := push lineMask allMask 1000 SC_PERFORMED_USER 3 5 empty sampleView in
  let q := pop allMask 1010 SC_PERFORMED_UNDO 3 p.1 p.2 in
  (3 < 5 ∧ skipPush empty = 0 ∧ isReplaceRevert empty SC_PERFORMED_USER = false) ∧
  (∃ d, sections p.1 = [d] ∧ restoreAction d = SC_PERFORMED_UNDO ∧ startLine d = 3) ∧
  sections q.1 = [] ∧
  markerGet sampleView 4 = 0x20 ∧ markerGet q.2 4 = 0 ∧
  markerGet q.2 4 ≠ markerGet sampleView 4.
Proof.
  repeat split; try done.
  eexists. repeat split.
Qed.

(** The same loss for any masks and any line whose markers [b] hold a
    plugin marker and no line marker. *)
Lemma pop_drops_unmarked_line mLine mAll t0 t1 a s e st ed l :
  0 <= s → s < e → skipPush st = 0 → isReplaceRevert st a = false →
  s <= l <= e →
  Z.land (markerGet ed l) mLine = 0 → Z.land (markerGet ed l) mAll ≠ 0 →
  let p := push mLine mAll t0 a s e st ed in
  markerGet (pop mAll t1 (restoreAction (newSection a s (e - s + 1))) s p.1 p.2).2 l
  ≠ markerGet ed l.
Proof.
  intros Hs Hse Hskip Hrev Hl Hline Hall p Heq. unfold p in Heq.
  rewrite push_records in Heq by done.
  destruct (pop_after_push mLine mAll t0 a s e st ed Hs Hse)
    as (d & G1 & _ & G3 & G4 & G5).
  rewrite <- G3 in Heq. rewrite G1 in Heq at 1. simpl in Heq.
  destruct (G5 t1 (push_record mLine mAll t0 a s e st ed).2) as (_ & P2 & _).
  rewrite P2 in Heq by done. rewrite G4 in Heq. unfold pushed, captured in Heq.
  rewrite Hline in Heq. simpl in Heq. rewrite andb_false_r, Z.lor_0_r in Heq.
  apply Hall. rewrite <- Heq. apply land_lnot_land.
Qed.

(** *** Unmatched operations *)

(** The [DWORD] test of [pop] holds for every tick less than 40 ms after
    the last recorded push, as long as the tick counter does not wrap
    in between. *)
Lemma inReplaceWindow_elapsed skip tm secs now :
  0 <= tm → tm + 40 < 2 ^ 32 →
  inReplaceWindow (mkList skip tm secs) now = true ↔ now < tm + 40.
Proof.
  intros H0 H1. unfold inReplaceWindow. simpl.
  rewrite Int.dword_small by lia. apply Z.ltb_lt.
Qed.

Lemma pop_empty mAll now a s st ed :
  sections st = [] →
  pop mAll now a s st ed
  = (mkList (Int.incr (skipPush st)) (lastPushTimeMark st) (sections st), ed).
Proof. intros H. unfold pop. by rewrite H. Qed.

Lemma pop_mismatch_late mAll now a s st ed back :
  last (sections st) = Some back → restoreAction back ≠ a →
  inReplaceWindow st now = false →
  pop mAll now a s st ed
  = (mkList (Int.incr (skipPush st)) (lastPushTimeMark st) (sections st), ed).
Proof.
  intros Hl Ha Hw. unfold pop. rewrite Hl, Hw.
  by destruct (Z.eqb_neq (restoreAction back) a) as [_ ->].
Qed.

Lemma pop_mismatch_in_window mAll now a s st ed back :
  last (sections st) = Some back → restoreAction back ≠ a →
  inReplaceWindow st now = true →
  pop mAll now a s st ed
  = (mkList (skipPush st) (lastPushTimeMark st)
            (removelast (sections st) ++ [setLineReplace back]), ed).
Proof.
  intros Hl Ha Hw. unfold pop. rewrite Hl, Hw.
  by destruct (Z.eqb_neq (restoreAction back) a) as [_ ->].
Qed.

Lemma pop_other_line mAll now a s st ed back :
  last (sections st) = Some back → restoreAction back = a → startLine back ≠ s →
  pop mAll now a s st ed = (st, ed).
Proof.
  intros Hl Ha Hs. unfold pop. rewrite Hl, <- Ha, Z.eqb_refl. simpl.
  by destruct (Z.eqb_neq (startLine back) s) as [_ ->].
Qed.

Lemma push_skipped mLine mAll now a s e st ed :
  s < e → skipPush st ≠ 0 →
  push mLine mAll now a s e st ed
  = (mkList (Int.decr (skipPush st)) (lastPushTimeMark st) (sections st), ed).
Proof.
  intros Hse Hskip. unfold push.
  destruct (e <=? s) eqn:E; [apply Z.leb_le in E; lia|].
  by destruct (Z.eqb_neq (skipPush st) 0) as [_ ->].
Qed.

(** [push] never grows the stack on top of a line-replace record whose
    restore action it carries. *)
Lemma push_on_line_replace mLine mAll now s e skip tm rest back ed :
  let st := mkList skip tm (rest ++ [setLineReplace back]) in
  sections (push mLine mAll now (restoreAction back) s e st ed).1 = sections st ∧
  (push mLine mAll now (restoreAction back) s e st ed).2 = ed.
Proof.
  simpl. unfold push. destruct (e <=? s); [done|]. simpl.
  destruct (skip =? 0); simpl; [|done].
  unfold isReplaceRevert. simpl. rewrite last_snoc. simpl.
  by rewrite Z.eqb_refl.
Qed.

(** C4: a [pop] on an empty stack, and a [pop] whose action differs from
    the top record's restore action outside the replace window, each
    increment [skipPush] and change nothing else; a [push] of a
    multi-line range while [skipPush] is positive decrements [skipPush]
    and changes nothing else; a [pop] with the top record's restore
    action and another start line changes nothing. *)
Theorem unmatched_operations mLine mAll now a s e st ed :
  (sections st = [] →
     pop mAll now a s st ed
     = (mkList (Int.incr (skipPush st)) (lastPushTimeMark st) (sections st), ed)) ∧
  (∀ back, last (sections st) = Some back → restoreAction back ≠ a →
     inReplaceWindow st now = false →
     pop mAll now a s st ed
     = (mkList (Int.incr (skipPush st)) (lastPushTimeMark st) (sections st), ed)) ∧
  (0 < skipPush st <= Int.int_max → s < e →
     push mLine mAll now a s e st ed
     = (mkList (skipPush st - 1) (lastPushTimeMark st) (sections st), ed)) ∧
  (∀ back, last (sections st) = Some back → restoreAction back = a →
     startLine back ≠ s →
     pop mAll now a s st ed = (st, ed)) ∧
  (Int.int_min <= skipPush st < Int.int_max → Int.incr (skipPush st) = skipPush st + 1).
Proof.
  repeat split.
  - apply pop_empty.
  - intros back. apply pop_mismatch_late.
  - intros Hskip Hse. rewrite push_skipped by lia.
    rewrite Int.decr_small; [done|]. unfold Int.int_min. lia.
  - intros back. apply pop_other_line.
  - apply Int.incr_small.
Qed.

Lemma unmatched_operations_witness :
  pop allMask 1000 SC_PERFORMED_USER 7 empty sampleView = (mkList 1 0 [], sampleView) ∧
  pop allMask 2000 SC_PERFORMED_USER 3
      (mkList 0 1000 [mkSection 3 false SC_PERFORMED_UNDO [0x21; 0]]) sampleView
  = (mkList 1 1000 [mkSection 3 false SC_PERFORMED_UNDO [0x21; 0]], sampleView) ∧
  push lineMask allMask 1000 SC_PERFORMED_UNDO 3 5 (mkList 2 0 []) sampleView
  = (mkList 1 0 [], sampleView) ∧
  pop allMask 2000 SC_PERFORMED_UNDO 9
      (mkList 0 1000 [mkSection 3 false SC_PERFORMED_UNDO [0x21; 0]]) sampleView
  = (mkList 0 1000 [mkSection 3 false SC_PERFORMED_UNDO [0x21; 0]], sampleView).
Proof.
  split; [|split; [|split]].
  - apply (unmatched_operations lineMask allMask 1000 SC_PERFORMED_USER 7 8 empty sampleView).
    reflexivity.
  - apply (unmatched_operations lineMask allMask 2000 SC_PERFORMED_USER 3 5
             (mkList 0 1000 [mkSection 3 false SC_PERFORMED_UNDO [0x21; 0]]) sampleView)
      with (back := mkSection 3 false SC_PERFORMED_UNDO [0x21; 0]);
      [reflexivity|vm_compute; discriminate|reflexivity].
  - apply (unmatched_operations lineMask allMask 1000 SC_PERFORMED_UNDO 3 5
             (mkList 2 0 []) sampleView); [vm_compute; split; [reflexivity|discriminate]|lia].
  - apply (unmatched_operations lineMask allMask 2000 SC_PERFORMED_UNDO 9 10
             (mkList 0 1000 [mkSection 3 false SC_PERFORMED_UNDO [0x21; 0]]) sampleView)
      with (back := mkSection 3 false SC_PERFORMED_UNDO [0x21; 0]);
      [reflexivity|reflexivity|vm_compute; discriminate].
Defined.

(** *** Line replacement *)

(** C3: a [pop] whose action differs from the top record's restore
    action and that passes the 40 ms test of [pop] marks the top record
    as a line replacement, leaves [skipPush] and the rest of the stack
    alone and keeps the record; a later [push] with that record's restore
    action adds no record and touches no marker, and a later [pop] with
    that restore action and start line is honoured and removes the
    record. So a deletion recorded at tick [t0] and an insertion notified
    less than 40 ms later leave one record more than before the deletion,
    also after the deletion that reverts the insertion. *)
Theorem line_replace_classification mLine mAll now a s ed :
  (∀ rest back skip tm,
      restoreAction back ≠ a →
      inReplaceWindow (mkList skip tm (rest ++ [back])) now = true →
      let st' := mkList skip tm (rest ++ [setLineReplace back]) in
      pop mAll now a s (mkList skip tm (rest ++ [back])) ed = (st', ed) ∧
      (∀ now2 s2 e2 ed2,
          sections (push mLine mAll now2 (restoreAction back) s2 e2 st' ed2).1
          = rest ++ [setLineReplace back] ∧
          (push mLine mAll now2 (restoreAction back) s2 e2 st' ed2).2 = ed2) ∧
      (∀ now3 ed3,
          (pop mAll now3 (restoreAction back) (startLine back) st' ed3).1
          = mkList skip tm rest)) ∧
  (∀ t0 a0 s0 e0 st0 ed0,
      0 <= s0 → s0 < e0 → skipPush st0 = 0 → isReplaceRevert st0 a0 = false →
      0 <= t0 → t0 <= now < t0 + 40 → t0 + 40 < 2 ^ 32 →
      restoreAction (newSection a0 s0 (e0 - s0 + 1)) ≠ a →
      let st1 := (push mLine mAll t0 a0 s0 e0 st0 ed0).1 in
      let st2 := (pop mAll now a s st1 ed).1 in
      skipPush st2 = 0 ∧
      length (sections st2) = S (length (sections st0)) ∧
      (∃ d, last (sections st2) = Some d ∧ lineReplace d = true ∧
            restoreAction d = restoreAction (newSection a0 s0 (e0 - s0 + 1))) ∧
      (∀ now2 s2 e2 ed2,
          length (sections (push mLine mAll now2
                              (restoreAction (newSection a0 s0 (e0 - s0 + 1)))
                              s2 e2 st2 ed2).1)
          = S (length (sections st0)))).
Proof.
  split.
  - intros rest back skip tm Ha Hw st'. split; [|split].
    + rewrite (pop_mismatch_in_window mAll now a s _ ed back); try done.
      * simpl. by rewrite removelast_last.
      * simpl. apply last_snoc.
    + intros now2 s2 e2 ed2.
      apply (push_on_line_replace mLine mAll now2 s2 e2 skip tm rest back ed2).
    + intros now3 ed3.
      by destruct (pop_matching mAll now3 rest (setLineReplace back) skip tm ed3) as (P1 & _).
  - intros t0 a0 s0 e0 st0 ed0 Hs0 Hse Hskip Hrev Ht0 Hnow Hwrap Ha st1 st2.
    unfold st2, st1. rewrite push_records by done.
    destruct (push_record_spec mLine mAll t0 a0 s0 e0 st0 ed0 Hs0 Hse)
      as (mk & G1 & _).
    rewrite G1.
    set (d := mkSection s0 false (restoreAction (newSection a0 s0 (e0 - s0 + 1))) mk).
    rewrite (pop_mismatch_in_window mAll now a s _ ed d); try done.
    + simpl. rewrite removelast_last, Hskip.
      repeat split.
      * rewrite length_app. simpl. lia.
      * exists (setLineReplace d). by rewrite last_snoc.
      * intros now2 s2 e2 ed2.
        destruct (push_on_line_replace mLine mAll now2 s2 e2 0 t0 (sections st0) d ed2)
          as [E _].
        simpl in E. rewrite E. rewrite length_app. simpl. lia.
    + simpl. apply last_snoc.
    + apply inReplaceWindow_elapsed; lia.
Qed.

Lemma line_replace_classification_witness :
  (pop allMask 1010 SC_PERFORMED_USER 3
       (mkList 0 1000 [mkSection 3 false SC_PERFORMED_UNDO [0x21; 0; 0x2]]) sampleView
   = (mkList 0 1000 [mkSection 3 true SC_PERFORMED_UNDO [0x21; 0; 0x2]], sampleView)) ∧
  length (sections
            (pop allMask 1010 SC_PERFORMED_USER 3
                 (push lineMask allMask 1000 SC_PERFORMED_USER 3 5 empty sampleView).1
                 sampleView).1) = 1%nat.
Proof.
  destruct (line_replace_classification lineMask allMask 1010 SC_PERFORMED_USER 3 sampleView)
    as [A B].
  split.
  - apply (A [] (mkSection 3 false SC_PERFORMED_UNDO [0x21; 0; 0x2]) 0 1000);
      [vm_compute; discriminate|reflexivity].
  - apply (B 1000 SC_PERFORMED_USER 3 5 empty sampleView);
      [lia|lia|reflexivity|reflexivity|lia|lia|lia|vm_compute; discriminate].
Defined.

(** *** Restore actions *)

Lemma restoreAction_newSection action line len :
  restoreAction (newSection action line len)
  = if action =? SC_PERFORMED_UNDO then SC_PERFORMED_REDO else SC_PERFORMED_UNDO.
Proof. done. Qed.

(** A [pop] takes a record off the stack only with the record's restore
    action and start line. *)
Lemma pop_removes_only_matching mAll now a s skip tm rest d ed :
  sections (pop mAll now a s (mkList skip tm (rest ++ [d])) ed).1 = rest →
  a = restoreAction d ∧ s = startLine d.
Proof.
  unfold pop. simpl. rewrite last_snoc.
  destruct (restoreAction d =? a) eqn:E1; simpl.
  - destruct (startLine d =? s) eqn:E2; simpl.
    + intros _. apply Z.eqb_eq in E1, E2. done.
    + intros H. exfalso. apply (f_equal length) in H.
      rewrite length_app in H. simpl in H. lia.
  - destruct (inReplaceWindow _ _); simpl; intros H; exfalso;
      apply (f_equal length) in H; rewrite ?removelast_last, length_app in H;
      simpl in H; lia.
Qed.

(** [onSciModified] takes a record off the stack only through [pop]. *)
Lemma onSciModified_removes_only_matching mLine mAll now n skip tm rest d ed :
  sections (onSciModified mLine mAll now n (mkList skip tm (rest ++ [d])) ed).1 = rest →
  has_flag (modificationType n) SC_MOD_BEFOREDELETE = false ∧
  has_flag (modificationType n) SC_MOD_INSERTTEXT = true ∧
  linesAdded n ≠ 0 ∧
  currActionOf n = restoreAction d ∧ lineOfPosition n = startLine d.
Proof.
  unfold onSciModified.
  assert (Hne : ∀ l : list DeletedSection, rest ++ d :: l ≠ rest).
  { intros l H. apply (f_equal length) in H. rewrite length_app in H. simpl in H. lia. }
  destruct (has_flag (modificationType n) SC_MOD_BEFOREDELETE).
  - destruct (lineOfEnd n <=? lineOfPosition n); simpl; [intros H; by apply Hne in H|].
    unfold push. destruct (_ <=? _); simpl; [intros H; by apply Hne in H|].
    destruct (skip =? 0); simpl; [|intros H; by apply Hne in H].
    destruct (isReplaceRevert _ _); simpl; [intros H; by apply Hne in H|].
    unfold push_record. destruct (push_loop _ _ _ _ _ _ _ _). simpl.
    rewrite <- app_assoc. simpl. intros H. by apply Hne in H.
  - destruct (has_flag (modificationType n) SC_MOD_INSERTTEXT); simpl;
      [|intros H; by apply Hne in H].
    destruct (linesAdded n =? 0) eqn:E; simpl; [intros H; by apply Hne in H|].
    intros H. apply pop_removes_only_matching in H. apply Z.eqb_neq in E.
    destruct H as [-> ->]. done.
Qed.

(** C10: the record of a deletion whose action is anything but
    [SC_PERFORMED_UNDO], a user deletion included, gets the restore
    action [SC_PERFORMED_UNDO], and the restore action is
    [SC_PERFORMED_REDO] for an undo-caused deletion only; the stack
    carries that restore action on the record it pushes; and a
    notification takes a record with restore action [SC_PERFORMED_UNDO]
    off the stack, replaying its markers, only when it is an insertion
    of lines performed by undo at the record's start line. *)
Theorem deletion_restore_action mLine mAll :
  (∀ action line len,
      action ≠ SC_PERFORMED_UNDO →
      restoreAction (newSection action line len) = SC_PERFORMED_UNDO) ∧
  (∀ action line len,
      restoreAction (newSection action line len) = SC_PERFORMED_REDO ↔
      action = SC_PERFORMED_UNDO) ∧
  (∀ now a s e st ed,
      0 <= s → s < e → skipPush st = 0 → isReplaceRevert st a = false →
      a ≠ SC_PERFORMED_UNDO →
      ∃ d, sections (push mLine mAll now a s e st ed).1 = sections st ++ [d] ∧
           startLine d = s ∧ restoreAction d = SC_PERFORMED_UNDO) ∧
  (∀ now n skip tm rest d ed,
      restoreAction d = SC_PERFORMED_UNDO →
      sections (onSciModified mLine mAll now n (mkList skip tm (rest ++ [d])) ed).1 = rest →
      has_flag (modificationType n) SC_MOD_INSERTTEXT = true ∧
      currActionOf n = SC_PERFORMED_UNDO ∧
      lineOfPosition n = startLine d).
Proof.
  split; [|split; [|split]].
  - intros action line len Ha. rewrite restoreAction_newSection.
    by destruct (Z.eqb_neq action SC_PERFORMED_UNDO) as [_ ->].
  - intros action line len. rewrite restoreAction_newSection.
    destruct (action =? SC_PERFORMED_UNDO) eqn:E.
    + apply Z.eqb_eq in E. done.
    + apply Z.eqb_neq in E. split; [discriminate|done].
  - intros now a s e st ed Hs Hse Hskip Hrev Ha.
    rewrite push_records by done.
    destruct (push_record_spec mLine mAll now a s e st ed Hs Hse) as (mk & G1 & _).
    rewrite G1. eexists. split; [done|]. simpl. split; [done|].
    by destruct (Z.eqb_neq a SC_PERFORMED_UNDO) as [_ ->].
  - intros now n skip tm rest d ed Hd H.
    apply onSciModified_removes_only_matching in H.
    destruct H as (_ & H2 & _ & H4 & H5). rewrite <- Hd. done.
Qed.

Lemma deletion_restore_action_witness :
  restoreAction (newSection SC_PERFORMED_USER 3 3) = SC_PERFORMED_UNDO ∧
  (∃ d, sections (push lineMask allMask 1000 SC_PERFORMED_USER 3 5 empty sampleView).1
        = sections empty ++ [d] ∧
        startLine d = 3 ∧ restoreAction d = SC_PERFORMED_UNDO) ∧
  currActionOf (mkNotification (Z.lor SC_MOD_INSERTTEXT SC_PERFORMED_UNDO) 3 5 2)
  = SC_PERFORMED_UNDO.
Proof.
  destruct (deletion_restore_action lineMask allMask) as (A & _ & C & D).
  split; [|split].
  - apply A. vm_compute. discriminate.
  - apply (C 1000 SC_PERFORMED_USER 3 5 empty sampleView);
      [lia|lia|reflexivity|reflexivity|vm_compute; discriminate].
  - apply (D 1010 (mkNotification (Z.lor SC_MOD_INSERTTEXT SC_PERFORMED_UNDO) 3 5 2)
             0 1000 [] (mkSection 3 false SC_PERFORMED_UNDO [0x21; 0; 0x2]) sampleView);
      reflexivity.
Defined.

(** *** Invariants of the history *)

Section Invariants.

Variables mLine mAll : Z.

(** A record as [push] builds it: it covers at least two lines, and each
    marker set it saved holds markers of the plugin only. *)
Definition recordOk (d : DeletedSection) : Prop :=
  (2 ≤ length (markers d))%nat ∧ Forall (λ m, Z.land m mAll = m) (markers d).

Definition historyOk (st : DeletedSectionsList) : Prop :=
  Forall recordOk (sections st).

(** The histories a compared file can hold: the empty one of its
    constructor, what [clear()] leaves, and what [onSciModified] makes of a
    history, whatever the editor shows at the time of the notification. *)
Inductive Reachable : DeletedSectionsList → Prop :=
| reach_empty : Reachable empty
| reach_clear st : Reachable st → Reachable (clear st)
| reach_step now n st ed :
    Reachable st → Reachable (onSciModified mLine mAll now n st ed).1.

Lemma land_masked_foreign m : Z.land m mAll = m → Z.land m (Z.lnot mAll) = 0.
Proof. intros <-. apply Z.bits_inj'. intros k Hk.
  rewrite !Z.land_spec, Z.lnot_spec, Z.bits_0 by done.
  destruct (Z.testbit m k), (Z.testbit mAll k); done.
Qed.

Lemma lor_masked_foreign x m :
  Z.land m mAll = m → Z.land (Z.lor x m) (Z.lnot mAll) = Z.land x (Z.lnot mAll).
Proof.
  intros Hm. rewrite Z.land_lor_distr_l, (land_masked_foreign m Hm). apply Z.lor_0_r.
Qed.

Lemma clearMarks_foreign ed line l :
  Z.land (markerGet (clearMarks mAll ed line) l) (Z.lnot mAll)
  = Z.land (markerGet ed l) (Z.lnot mAll).
Proof. simpl. destruct (l =? line); [apply land_lnot_idem|done]. Qed.

Lemma push_loop_frame fuel : ∀ s e line ed mk,
  let r := push_loop mLine mAll fuel s e line ed mk in
  (∀ l, Z.land (markerGet r.1 l) (Z.lnot mAll) = Z.land (markerGet ed l) (Z.lnot mAll)) ∧
  positionFromLine r.1 = positionFromLine ed ∧
  changedIndicator r.1 = changedIndicator ed ∧
  length r.2 = length mk ∧
  (Forall (λ m, Z.land m mAll = m) mk → Forall (λ m, Z.land m mAll = m) r.2).
Proof.
  induction fuel as [|fuel IH]; intros s e line ed mk; simpl; [done|].
  destruct (line >=? s); [|done].
  set (ed' := if line =? e then ed else clearMarks mAll ed line).
  set (mk' := <[_ := _]> mk).
  destruct (IH s e (markerPrevious ed' (line - 1) mLine) ed' mk') as (G1 & G2 & G3 & G4 & G5).
  assert (Hed' : ∀ l, Z.land (markerGet ed' l) (Z.lnot mAll)
                      = Z.land (markerGet ed l) (Z.lnot mAll)).
  { intros l. unfold ed'. destruct (line =? e); [done|apply clearMarks_foreign]. }
  repeat split.
  - intros l. by rewrite G1.
  - rewrite G2. unfold ed'. by destruct (line =? e).
  - rewrite G3. unfold ed'. by destruct (line =? e).
  - rewrite G4. apply length_insert.
  - intros Hmk. apply G5. apply Forall_insert; [done|].
    rewrite <- Z.land_assoc, Z.land_diag. done.
Qed.

Lemma pop_loop_frame (mk : list Z) : ∀ line ed,
  Forall (λ m, Z.land m mAll = m) mk →
  ∀ l, Z.land (markerGet (pop_loop mAll line mk ed) l) (Z.lnot mAll)
       = Z.land (markerGet ed l) (Z.lnot mAll).
Proof.
  induction mk as [|m mk IH]; intros line ed Hmk l; simpl; [done|].
  apply Forall_cons in Hmk as [Hm Hmk].
  rewrite IH by done.
  destruct (m =? 0); [apply clearMarks_foreign|].
  simpl. destruct (l =? line); [|done].
  rewrite lor_masked_foreign by done. apply land_lnot_idem.
Qed.

Lemma pop_loop_positions (mk : list Z) : ∀ line ed,
  positionFromLine (pop_loop mAll line mk ed) = positionFromLine ed.
Proof.
  induction mk as [|m mk IH]; intros line ed; simpl; [done|].
  rewrite IH. by destruct (m =? 0).
Qed.

Lemma Forall_removelast {A} (P : A → Prop) (l : list A) :
  Forall P l → Forall P (removelast l).
Proof.
  intros Hl. destruct (decide (l = [])) as [->|Hne]; [done|].
  destruct (exists_last Hne) as (l' & y & ->).
  rewrite removelast_last. by apply Forall_app in Hl as [? _].
Qed.

Lemma last_Forall {A} (P : A → Prop) (l : list A) x :
  Forall P l → last l = Some x → P x.
Proof.
  intros Hl Hx. apply last_is_Some_app in Hx. rewrite Hx in Hl.
  rewrite Forall_app, Forall_singleton in Hl. tauto.
Qed.

Lemma push_record_ok now a s e st ed :
  s < e → historyOk st → historyOk (push_record mLine mAll now a s e st ed).1.
Proof.
  intros Hse Hst. unfold push_record.
  set (ed1 := clearChangedIndicator ed _ _).
  set (mk0 := markers (newSection a s (e - s + 1))).
  pose proof (push_loop_frame (Z.to_nat (e - s + 2)) s e
                (markerPrevious ed1 e mLine) ed1 mk0) as (_ & _ & _ & G4 & G5).
  destruct (push_loop _ _ _ _ _ _ _ _) as [ed2 mk]. simpl in *.
  unfold historyOk. simpl. apply Forall_app. split; [done|].
  apply Forall_singleton. split; simpl.
  - rewrite G4. unfold mk0. simpl. rewrite length_replicate. lia.
  - apply G5. unfold mk0. simpl. apply Forall_replicate. done.
Qed.

Lemma push_ok now a s e st ed :
  historyOk st → historyOk (push mLine mAll now a s e st ed).1.
Proof.
  intros Hst. unfold push.
  destruct (e <=? s) eqn:E; [done|]. apply Z.leb_gt in E.
  destruct (negb _); [done|].
  destruct (isReplaceRevert _ _); [done|].
  by apply push_record_ok.
Qed.

Lemma pop_ok now a s st ed :
  historyOk st → historyOk (pop mAll now a s st ed).1.
Proof.
  intros Hst. unfold pop.
  destruct (last (sections st)) as [back|] eqn:Hlast; [|done].
  destruct (negb (restoreAction back =? a)).
  - destruct (inReplaceWindow st now); [|done].
    unfold historyOk. simpl. apply Forall_app. split.
    + by apply Forall_removelast.
    + apply Forall_singleton. exact (last_Forall recordOk _ _ Hst Hlast).
  - destruct (negb (startLine back =? s)); [done|].
    unfold historyOk. simpl. by apply Forall_removelast.
Qed.

Lemma onSciModified_ok now n st ed :
  historyOk st → historyOk (onSciModified mLine mAll now n st ed).1.
Proof.
  intros Hst. unfold onSciModified.
  destruct (has_flag _ SC_MOD_BEFOREDELETE).
  - destruct (_ <=? _); [done|]. by apply push_ok.
  - destruct (_ && _); [|done]. by apply pop_ok.
Qed.

(** X1: every history a compared file can hold, from the empty one
    through any notifications and calls of [clear()], consists of records
    that cover at least two lines and whose saved marker sets hold markers
    of the plugin only. *)
Theorem reachable_history_ok st : Reachable st → historyOk st.
Proof.
  induction 1 as [|st _ IH|now n st ed _ IH].
  - apply Forall_nil_2.
  - apply Forall_nil_2.
  - by apply onSciModified_ok.
Qed.

(** X2: a notification never changes a marker that is not the plugin's:
    whatever [onSciModified] does to a well-formed history, every line
    keeps the marker bits outside [MARKER_MASK_ALL], and no line changes
    its position. *)
Theorem onSciModified_keeps_foreign_markers now n st ed :
  historyOk st →
  let r := onSciModified mLine mAll now n st ed in
  (∀ l, Z.land (markerGet r.2 l) (Z.lnot mAll) = Z.land (markerGet ed l) (Z.lnot mAll)) ∧
  positionFromLine r.2 = positionFromLine ed.
Proof.
  intros Hst. unfold onSciModified.
  destruct (has_flag _ SC_MOD_BEFOREDELETE).
  - destruct (_ <=? _); [done|]. unfold push.
    destruct (_ <=? _); [done|]. destruct (negb _); [done|].
    destruct (isReplaceRevert _ _); [done|]. unfold push_record.
    set (ed1 := clearChangedIndicator ed _ _).
    pose proof (push_loop_frame (Z.to_nat (lineOfEnd n - lineOfPosition n + 2))
                  (lineOfPosition n) (lineOfEnd n)
                  (markerPrevious ed1 (lineOfEnd n) mLine) ed1
                  (markers (newSection (currActionOf n) (lineOfPosition n)
                              (lineOfEnd n - lineOfPosition n + 1))))
      as (G1 & G2 & _).
    destruct (push_loop _ _ _ _ _ _ _ _) as [ed2 mk]. simpl in *. split.
    + intros l. by rewrite G1.
    + by rewrite G2.
  - destruct (_ && _); [|done]. unfold pop.
    destruct (last (sections st)) as [back|] eqn:Hlast; [|done].
    destruct (negb (restoreAction back =? _)).
    { by destruct (inReplaceWindow st now). }
    destruct (negb (startLine back =? _)); [done|]. simpl.
    destruct (last_Forall recordOk _ _ Hst Hlast) as [_ Hmk]. split.
    + intros l. by rewrite pop_loop_frame.
    + by rewrite pop_loop_positions.
Qed.

(** X3: a notification works on the top of the stack only: it leaves the
    records as they are, pushes one record, takes the top record off, or
    marks the top record as a line replacement; the records below the top
    are never touched, and the time mark changes only with a push. *)
Theorem onSciModified_touches_top_only now n st ed :
  let r := onSciModified mLine mAll now n st ed in
  (sections r.1 = sections st ∧ lastPushTimeMark r.1 = lastPushTimeMark st) ∨
  (∃ d, sections r.1 = sections st ++ [d] ∧ lastPushTimeMark r.1 = now ∧
        skipPush r.1 = skipPush st) ∨
  (∃ rest d, sections st = rest ++ [d] ∧ r.1 = mkList (skipPush st) (lastPushTimeMark st) rest) ∨
  (∃ rest d, sections st = rest ++ [d] ∧
             r.1 = mkList (skipPush st) (lastPushTimeMark st) (rest ++ [setLineReplace d])).
Proof.
  unfold onSciModified.
  destruct (has_flag _ SC_MOD_BEFOREDELETE).
  - destruct (_ <=? _); [by left|]. unfold push.
    destruct (_ <=? _); [by left|]. destruct (negb _); [by left|].
    destruct (isReplaceRevert _ _); [by left|].
    right. left. unfold push_record.
    destruct (push_loop _ _ _ _ _ _ _ _) as [ed2 mk]. simpl. by eexists.
  - destruct (_ && _); [|by left]. unfold pop.
    destruct (last (sections st)) as [back|] eqn:Hlast; [|by left].
    apply last_is_Some_app in Hlast.
    destruct (negb (restoreAction back =? _)).
    + destruct (inReplaceWindow st now); [|by left].
      right. right. right. by exists (removelast (sections st)), back.
    + destruct (negb (startLine back =? _)); [by left|].
      right. right. left. by exists (removelast (sections st)), back.
Qed.

(** The pops and pushes of a run, each with the tick count, the action
    and the lines of its call. *)
Fixpoint pops (calls : list (Z * Z * Z)) (st : DeletedSectionsList) (ed : Sci)
  : DeletedSectionsList * Sci :=
  match calls with
  | [] => (st, ed)
  | (now, a, s) :: calls' => let r := pop mAll now a s st ed in pops calls' r.1 r.2
  end.

Fixpoint pushes (calls : list (Z * Z * Z * Z)) (st : DeletedSectionsList) (ed : Sci)
  : DeletedSectionsList * Sci :=
  match calls with
  | [] => (st, ed)
  | (now, a, s, e) :: calls' =>
      let r := push mLine mAll now a s e st ed in pushes calls' r.1 r.2
  end.

Lemma pops_empty calls : ∀ skip tm ed,
  0 <= skip → skip + Z.of_nat (length calls) <= Int.int_max →
  pops calls (mkList skip tm []) ed = (mkList (skip + Z.of_nat (length calls)) tm [], ed).
Proof.
  induction calls as [|[[now a] s] calls IH]; intros skip tm ed H0 Hmax; simpl.
  - do 2 f_equal. lia.
  - unfold pop. simpl. simpl in Hmax.
    rewrite Int.incr_small by (unfold Int.int_min; lia).
    rewrite IH by lia. do 2 f_equal. lia.
Qed.

Lemma pushes_skipped calls : ∀ skip tm secs ed,
  Forall (λ c, c.1.2 < c.2) calls →
  Z.of_nat (length calls) <= skip <= Int.int_max →
  pushes calls (mkList skip tm secs) ed
  = (mkList (skip - Z.of_nat (length calls)) tm secs, ed).
Proof.
  induction calls as [|[[[now a] s] e] calls IH]; intros skip tm secs ed Hcalls Hskip; simpl.
  - do 2 f_equal. lia.
  - apply Forall_cons in Hcalls as [Hse Hcalls]. simpl in Hse, Hskip.
    unfold push. simpl.
    destruct (e <=? s) eqn:E; [apply Z.leb_le in E; lia|].
    destruct (skip =? 0) eqn:E0; [apply Z.eqb_eq in E0; lia|]. simpl.
    rewrite Int.decr_small by (unfold Int.int_min; lia).
    rewrite IH by (done || lia). do 2 f_equal. lia.
Qed.

(** X4: the skip counter pairs unmatched insertions with the deletions
    that follow: on a history without records, [k] calls of [pop] raise
    [skipPush] by [k] and touch nothing else, and the next [k] multi-line
    calls of [push] record nothing, touch no marker and bring [skipPush]
    back to where it was. *)
Theorem unmatched_pops_cancel_pushes popCalls pushCalls skip tm ed :
  0 <= skip → skip + Z.of_nat (length popCalls) <= Int.int_max →
  length pushCalls = length popCalls →
  Forall (λ c, c.1.2 < c.2) pushCalls →
  let popped := pops popCalls (mkList skip tm []) ed in
  let skipped := pushes pushCalls popped.1 popped.2 in
  popped = (mkList (skip + Z.of_nat (length popCalls)) tm [], ed) ∧
  skipped = (mkList skip tm [], ed).
Proof.
  intros H0 Hmax Hlen Hcalls popped skipped.
  assert (Hp : popped = (mkList (skip + Z.of_nat (length popCalls)) tm [], ed)).
  { by apply pops_empty. }
  split; [done|]. unfold skipped. rewrite Hp. simpl.
  rewrite pushes_skipped by (done || lia).
  do 2 f_equal. lia.
Qed.

End Invariants.

Lemma reachable_history_ok_witness :
  let st := (onSciModified lineMask allMask 1000
               (mkNotification (Z.lor SC_MOD_BEFOREDELETE SC_PERFORMED_USER) 3 5 (-2))
               empty sampleView).1 in
  sections st = [mkSection 3 false SC_PERFORMED_UNDO [0x21; 0; 0x2]] ∧
  historyOk allMask st.
Proof.
  split; [reflexivity|].
  apply (reachable_history_ok lineMask allMask). apply reach_step. apply reach_empty.
Defined.

Lemma onSciModified_keeps_foreign_markers_witness :
  let st := mkList 0 1000 [mkSection 3 false SC_PERFORMED_UNDO [0x21; 0; 0x2]] in
  let ed := mkSci (λ l, if l =? 3 then 0x400 else 0) (λ l, 10 * l) (λ _, false) in
  let r := onSciModified lineMask allMask 1010
             (mkNotification (Z.lor SC_MOD_INSERTTEXT SC_PERFORMED_UNDO) 3 3 2) st ed in
  markerGet r.2 3 = 0x421 ∧
  Z.land (markerGet r.2 3) (Z.lnot allMask) = Z.land (markerGet ed 3) (Z.lnot allMask).
Proof.
  split; [reflexivity|].
  apply (onSciModified_keeps_foreign_markers lineMask allMask 1010
           (mkNotification (Z.lor SC_MOD_INSERTTEXT SC_PERFORMED_UNDO) 3 3 2)
           (mkList 0 1000 [mkSection 3 false SC_PERFORMED_UNDO [0x21; 0; 0x2]])).
  repeat constructor.
Defined.

Lemma unmatched_pops_cancel_pushes_witness :
  pushes lineMask allMask [(30, SC_PERFORMED_USER, 3, 5); (40, SC_PERFORMED_USER, 1, 2)]
    (pops allMask [(10, SC_PERFORMED_USER, 7); (20, SC_PERFORMED_UNDO, 2)] empty sampleView).1
    sampleView
  = (empty, sampleView).
Proof.
  apply (unmatched_pops_cancel_pushes lineMask allMask
           [(10, SC_PERFORMED_USER, 7); (20, SC_PERFORMED_UNDO, 2)]
           [(30, SC_PERFORMED_USER, 3, 5); (40, SC_PERFORMED_USER, 1, 2)] 0 0 sampleView).
  - lia.
  - vm_compute. discriminate.
  - reflexivity.
  - repeat constructor.
Defined.

End MarkerHistory.

(** ** Alignment engine ([isAlignmentNeeded], [alignDiffs]) *)

Module Alignment.

(** [AlignmentViewData], [AlignmentPair] and [AlignmentInfo_t] of
    [Engine.h]. *)
Record AlignmentViewData : Type := mkViewData {
  line     : Z;
  diffMask : Z
}.

Record AlignmentPair : Type := mkPair {
  main : AlignmentViewData;
  sub  : AlignmentViewData
}.

Abbreviation AlignmentInfo_t := (list AlignmentPair).

(** [alignment.*pView]. *)
Definition side (view : ViewId) (a : AlignmentPair) : AlignmentViewData :=
  match view with MAIN_VIEW => main a | SUB_VIEW => sub a end.

(** The Scintilla messages and the [NppHelpers] call the two functions
    send, over the state [Host] of the two views. *)
Class Scintilla (Host : Type) : Type := {
  getFirstVisibleLine : ViewId → Host → Z;
  linesOnScreen       : ViewId → Host → Z;
  docLineFromVisible  : ViewId → Z → Host → Z;
  visibleFromDocLine  : ViewId → Z → Host → Z;
  getLineCount        : ViewId → Host → Z;
  foldAllExpand       : ViewId → Host → Host;
  annotationGetLines  : ViewId → Z → Host → Z;
  annotationClear     : ViewId → Z → Host → Host;
  addBlankSection     : ViewId → Z → Z → Host → Host
}.

Section WithHost.

Context {Host : Type} `{Scintilla Host}.

(** The first and the last document line [isAlignmentNeeded] looks at. *)
Definition firstLineOf (view : ViewId) (h : Host) : Z :=
  docLineFromVisible view (getFirstVisibleLine view h) h.

Definition lastLineOf (view : ViewId) (h : Host) : Z :=
  docLineFromVisible view (Int.add (getFirstVisibleLine view h) (linesOnScreen view h)) h.

(** The condition under which a record asks for a new alignment. *)
Definition misaligned (h : Host) (a : AlignmentPair) : bool :=
  (diffMask (main a) =? diffMask (sub a)) &&
  negb (visibleFromDocLine MAIN_VIEW (line (main a)) h
        =? visibleFromDocLine SUB_VIEW (line (sub a)) h).

(** The range-based [for] of [isAlignmentNeeded]. *)
Fixpoint isAlignmentNeeded_loop (view : ViewId) (firstLine lastLine : Z) (h : Host)
         (alignmentInfo : AlignmentInfo_t) : bool :=
  match alignmentInfo with
  | [] => false
  | alignment :: rest =>
      if (line (side view alignment) >=? firstLine) && misaligned h alignment then true
      else if line (side view alignment) >? lastLine then false
      else isAlignmentNeeded_loop view firstLine lastLine h rest
  end.

Definition isAlignmentNeeded (view : ViewId) (h : Host) (alignmentInfo : AlignmentInfo_t) : bool :=
  isAlignmentNeeded_loop view (firstLineOf view h) (lastLineOf view h) h alignmentInfo.

(** What the specification says [isAlignmentNeeded] computes: the records are
    read up to the first one past [lastLine], and those of
    [firstLine..lastLine] are examined. *)
Fixpoint upToLast (view : ViewId) (lastLine : Z) (alignmentInfo : AlignmentInfo_t)
  : AlignmentInfo_t :=
  match alignmentInfo with
  | [] => []
  | a :: rest =>
      if line (side view a) >? lastLine then [] else a :: upToLast view lastLine rest
  end.

Definition isAlignmentNeeded_spec (view : ViewId) (h : Host) (alignmentInfo : AlignmentInfo_t)
  : bool :=
  existsb (λ a, (firstLineOf view h <=? line (side view a)) && misaligned h a)
          (upToLast view (lastLineOf view h) alignmentInfo).

(** The records [isAlignmentNeeded] reads when none asks for a new
    alignment: up to the first one past [lastLine], that one included. *)
Fixpoint scanned (view : ViewId) (lastLine : Z) (alignmentInfo : AlignmentInfo_t)
  : AlignmentInfo_t :=
  match alignmentInfo with
  | [] => []
  | a :: rest =>
      a :: (if line (side view a) >? lastLine then [] else scanned view lastLine rest)
  end.

(** One padding [alignDiffs] inserts: [addBlankSection(view, line, length)]. *)
Record Padding : Type := mkPadding {
  padView : ViewId;
  padLine : Z;
  padLen  : Z
}.

(** The annotation clean-up at the head of the loop body, for one view. *)
Definition clearStaleAnnotation (view : ViewId) (ln : Z) (h : Host) : Host :=
  if negb (ln =? 0) && negb (annotationGetLines view (ln - 1) h =? 0)
  then annotationClear view (ln - 1) h
  else h.

(** [alignmentInfo[i].sub.line == alignmentInfo[i + 1].sub.line] behind
    [i + 1 < maxSize], [rest] being the records after [alignmentInfo[i]]. *)
Definition nextSharesLine (view : ViewId) (a : AlignmentPair) (rest : AlignmentInfo_t) : bool :=
  match rest with
  | b :: _ => line (side view a) =? line (side view b)
  | [] => false
  end.

(** The [for] loop of [alignDiffs]; besides the views it returns, for each
    record it went through, the padding it inserted there, if any. *)
Fixpoint alignDiffs_loop (mainEndLine subEndLine : Z) (alignmentInfo : AlignmentInfo_t)
         (h : Host) : Host * list (option Padding) :=
  match alignmentInfo with
  | [] => (h, [])
  | a :: rest =>
      if (line (main a) <=? mainEndLine) && (line (sub a) <=? subEndLine) then
        let h1 := clearStaleAnnotation MAIN_VIEW (line (main a)) h in
        let h2 := clearStaleAnnotation SUB_VIEW (line (sub a)) h1 in
        let mismatchLen :=
          Int.sub (visibleFromDocLine MAIN_VIEW (line (main a)) h2)
                  (visibleFromDocLine SUB_VIEW (line (sub a)) h2) in
        if mismatchLen >? 0 then
          if nextSharesLine SUB_VIEW a rest then
            let r := alignDiffs_loop mainEndLine subEndLine rest h2 in
            (r.1, None :: r.2)
          else
            let r := alignDiffs_loop mainEndLine subEndLine rest
                       (addBlankSection SUB_VIEW (line (sub a)) mismatchLen h2) in
            (r.1, Some (mkPadding SUB_VIEW (line (sub a)) mismatchLen) :: r.2)
        else if mismatchLen <? 0 then
          if nextSharesLine MAIN_VIEW a rest then
            let r := alignDiffs_loop mainEndLine subEndLine rest h2 in
            (r.1, None :: r.2)
          else
            let r := alignDiffs_loop mainEndLine subEndLine rest
                       (addBlankSection MAIN_VIEW (line (main a)) (Int.neg mismatchLen) h2) in
            (r.1, Some (mkPadding MAIN_VIEW (line (main a)) (Int.neg mismatchLen)) :: r.2)
        else
          let r := alignDiffs_loop mainEndLine subEndLine rest h2 in
          (r.1, None :: r.2)
      else (h, [])
  end.

Definition alignDiffs (alignmentInfo : AlignmentInfo_t) (h : Host)
  : Host * list (option Padding) :=
  let h1 := foldAllExpand MAIN_VIEW h in
  let h2 := foldAllExpand SUB_VIEW h1 in
  let mainEndLine := Int.sub (getLineCount MAIN_VIEW h2) 1 in
  let subEndLine := Int.sub (getLineCount SUB_VIEW h2) 1 in
  alignDiffs_loop mainEndLine subEndLine alignmentInfo h2.

(** Whether the loop inserted padding on [view] at a record. *)
Definition padsOn (view : ViewId) (p : option Padding) : bool :=
  match p with
  | Some pad => view_eqb (padView pad) view
  | None => false
  end.

Fixpoint padCount (view : ViewId) (log : list (option Padding)) : nat :=
  match log with
  | [] => O
  | p :: log' => (if padsOn view p then 1 else 0) + padCount view log'
  end.

(** *** What [isAlignmentNeeded] reads *)

Lemma scanned_upToLast view lastLine info :
  scanned view lastLine info
  = upToLast view lastLine info
    ++ take 1 (drop (length (upToLast view lastLine info)) info).
Proof.
  induction info as [|a rest IH]; simpl; [done|].
  destruct (line (side view a) >? lastLine); simpl; [done|].
  by rewrite IH.
Qed.

Lemma upToLast_within view lastLine info a :
  a ∈ upToLast view lastLine info → line (side view a) <= lastLine.
Proof.
  induction info as [|b rest IH]; simpl; [by intros ?%elem_of_nil|].
  destruct (line (side view b) >? lastLine) eqn:E; [by intros ?%elem_of_nil|].
  intros [->|Hin]%elem_of_cons; [lia|by apply IH].
Qed.

Lemma first_past_upToLast view lastLine info a :
  take 1 (drop (length (upToLast view lastLine info)) info) = [a] →
  lastLine < line (side view a).
Proof.
  induction info as [|b rest IH]; simpl; [done|].
  destruct (line (side view b) >? lastLine) eqn:E; simpl.
  - intros [= ->]. lia.
  - exact IH.
Qed.

Lemma isAlignmentNeeded_loop_scanned view firstLine lastLine h info :
  isAlignmentNeeded_loop view firstLine lastLine h info
  = existsb (λ a, (firstLine <=? line (side view a)) && misaligned h a)
            (scanned view lastLine info).
Proof.
  induction info as [|a rest IH]; simpl; [done|].
  replace (line (side view a) >=? firstLine) with (firstLine <=? line (side view a))
    by (rewrite Z.geb_leb; done).
  destruct ((firstLine <=? line (side view a)) && misaligned h a); simpl; [done|].
  destruct (line (side view a) >? lastLine); simpl; [done|]. exact IH.
Qed.

(** *** Where [alignDiffs] pads *)

Lemma alignDiffs_loop_not_last view mainEndLine subEndLine info :
  ∀ h k a b p,
    info !! k = Some a → info !! S k = Some b →
    line (side view a) = line (side view b) →
    (alignDiffs_loop mainEndLine subEndLine info h).2 !! k = Some p →
    padsOn view p = false.
Proof.
  induction info as [|x rest IH]; intros h k a b p Ha Hb Hline Hp; [done|].
  simpl in Hp.
  destruct ((line (main x) <=? mainEndLine) && (line (sub x) <=? subEndLine)); [|done].
  set (h2 := clearStaleAnnotation SUB_VIEW _ _) in Hp.
  set (len := Int.sub _ _) in Hp.
  destruct k as [|k].
  - simpl in Ha, Hb. injection Ha as ->.
    destruct rest as [|y rest']; [done|]. simpl in Hb. injection Hb as ->.
    assert (Hshare : nextSharesLine view a (b :: rest') = true).
    { simpl. by apply Z.eqb_eq. }
    destruct (len >? 0).
    + destruct view.
      * destruct (nextSharesLine SUB_VIEW a (b :: rest')); simpl in Hp;
          injection Hp as <-; done.
      * rewrite Hshare in Hp. simpl in Hp. by injection Hp as <-.
    + destruct (len <? 0).
      * destruct view.
        -- rewrite Hshare in Hp. simpl in Hp. by injection Hp as <-.
        -- destruct (nextSharesLine MAIN_VIEW a (b :: rest')); simpl in Hp;
             injection Hp as <-; done.
      * simpl in Hp. by injection Hp as <-.
  - simpl in Ha, Hb.
    destruct (len >? 0); [destruct (nextSharesLine SUB_VIEW x rest)|
                          destruct (len <? 0); [destruct (nextSharesLine MAIN_VIEW x rest)|]];
      simpl in Hp; exact (IH _ k a b p Ha Hb Hline Hp).
Qed.

Lemma alignDiffs_loop_padding mainEndLine subEndLine info :
  ∀ h k pad,
    (alignDiffs_loop mainEndLine subEndLine info h).2 !! k = Some (Some pad) →
    ∃ a, info !! k = Some a ∧ padLine pad = line (side (padView pad) a) ∧
         (∀ b, info !! S k = Some b →
               line (side (padView pad) b) ≠ line (side (padView pad) a)).
Proof.
  induction info as [|x rest IH]; intros h k pad Hp; [done|].
  simpl in Hp.
  destruct ((line (main x) <=? mainEndLine) && (line (sub x) <=? subEndLine)); [|done].
  set (h2 := clearStaleAnnotation SUB_VIEW _ _) in Hp.
  set (len := Int.sub _ _) in Hp.
  assert (Hnext : ∀ v, nextSharesLine v x rest = false →
            ∀ b, (x :: rest) !! 1%nat = Some b → line (side v b) ≠ line (side v x)).
  { intros v Hv b Hb. destruct rest as [|y rest']; [done|]. simpl in Hb, Hv.
    injection Hb as ->. apply Z.eqb_neq in Hv. congruence. }
  destruct k as [|k].
  - destruct (len >? 0).
    + destruct (nextSharesLine SUB_VIEW x rest) eqn:E; simpl in Hp; [done|].
      injection Hp as <-. exists x. simpl. split; [done|]. split; [done|].
      exact (Hnext SUB_VIEW E).
    + destruct (len <? 0); [|done].
      destruct (nextSharesLine MAIN_VIEW x rest) eqn:E; simpl in Hp; [done|].
      injection Hp as <-. exists x. simpl. split; [done|]. split; [done|].
      exact (Hnext MAIN_VIEW E).
  - destruct (len >? 0); [destruct (nextSharesLine SUB_VIEW x rest)|
                          destruct (len <? 0); [destruct (nextSharesLine MAIN_VIEW x rest)|]];
      simpl in Hp; apply IH in Hp; exact Hp.
Qed.

Lemma padCount_le_1 view (log : list (option Padding)) :
  ∀ n, (length log ≤ S n)%nat →
       (∀ k p, (k < n)%nat → log !! k = Some p → padsOn view p = false) →
       (padCount view log ≤ 1)%nat.
Proof.
  induction log as [|p log IH]; intros n Hlen Hpad; simpl; [lia|].
  destruct n as [|n].
  - destruct log; [|simpl in Hlen; lia]. simpl. destruct (padsOn view p); lia.
  - rewrite (Hpad O p) by (simpl; done || lia). simpl.
    apply (IH n); [simpl in Hlen; lia|].
    intros k q Hk Hq. apply (Hpad (S k) q); [lia|done].
Qed.

(** C5: when the records [i..j] of the alignment sequence share their
    line on one view, [alignDiffs] inserts no padding on that view at the
    records before [j], hence at most one padding on that view over the
    whole run; and wherever it inserts a padding, it does so at the line
    of the record on the padded view, the next record having another line
    on that view. *)
Theorem alignDiffs_pads_once (info : AlignmentInfo_t) (h : Host) (view : ViewId) (i j : nat) :
  (i ≤ j)%nat →
  (∀ k, (i ≤ k < j)%nat →
        ∃ a b, info !! k = Some a ∧ info !! S k = Some b ∧
               line (side view a) = line (side view b)) →
  let log := (alignDiffs info h).2 in
  (∀ k p, (i ≤ k < j)%nat → log !! k = Some p → padsOn view p = false) ∧
  (padCount view (take (S j - i) (drop i log)) ≤ 1)%nat ∧
  (∀ k pad, log !! k = Some (Some pad) →
            ∃ a, info !! k = Some a ∧ padLine pad = line (side (padView pad) a) ∧
                 (∀ b, info !! S k = Some b →
                       line (side (padView pad) b) ≠ line (side (padView pad) a))).
Proof.
  intros Hij Hrun log.
  assert (Hbefore : ∀ k p, (i ≤ k < j)%nat → log !! k = Some p → padsOn view p = false).
  { intros k p Hk Hp. destruct (Hrun k Hk) as (a & b & Ha & Hb & Hline).
    unfold log, alignDiffs in Hp.
    exact (alignDiffs_loop_not_last view _ _ info _ k a b p Ha Hb Hline Hp). }
  split; [exact Hbefore|]. split.
  - apply (padCount_le_1 view _ (j - i)).
    + rewrite length_take. lia.
    + intros k p Hk Hp. rewrite lookup_take_lt in Hp by lia.
      rewrite lookup_drop in Hp. apply (Hbefore (i + k)%nat p); [lia|done].
  - intros k pad Hp. unfold log, alignDiffs in Hp.
    exact (alignDiffs_loop_padding _ _ info _ k pad Hp).
Qed.

(** C6 (amended): [isAlignmentNeeded] reads the records in order up to the
    first one whose line on the view lies past [lastLine], that record
    included, and answers true exactly when one of the records it reads
    has its line on the view at or after [firstLine], the same diff mask
    on both sides and different visible positions in the two views; so it
    answers what the records of [firstLine..lastLine] give, or what the
    first record past [lastLine] gives. *)
Theorem isAlignmentNeeded_scan (view : ViewId) (h : Host) (info : AlignmentInfo_t) :
  let examined := λ a, (firstLineOf view h <=? line (side view a)) && misaligned h a in
  let within := upToLast view (lastLineOf view h) info in
  let past := take 1 (drop (length within) info) in
  isAlignmentNeeded view h info
  = existsb examined (scanned view (lastLineOf view h) info) ∧
  scanned view (lastLineOf view h) info = within ++ past ∧
  (∀ a, a ∈ within → line (side view a) <= lastLineOf view h) ∧
  (∀ a, past = [a] → lastLineOf view h < line (side view a)) ∧
  isAlignmentNeeded view h info = isAlignmentNeeded_spec view h info || existsb examined past.
Proof.
  intros examined within past.
  assert (E1 : isAlignmentNeeded view h info
               = existsb examined (scanned view (lastLineOf view h) info)).
  { apply isAlignmentNeeded_loop_scanned. }
  assert (E2 : scanned view (lastLineOf view h) info = within ++ past).
  { apply scanned_upToLast. }
  repeat split; try done.
  - intros a. apply upToLast_within.
  - intros a. apply first_past_upToLast.
  - rewrite E1, E2, existsb_app. done.
Qed.

End WithHost.

(** *** A plain editor for concrete runs

    Two views without folds or wrapped lines; [annotation view l] is the
    number of annotation lines shown under document line [l]. *)

Record Editor : Type := mkEditor {
  topLine     : ViewId → Z;
  screenLines : ViewId → Z;
  lineCount   : ViewId → Z;
  annotation  : ViewId → Z → Z
}.

Fixpoint annotationsBefore (ann : Z → Z) (n : nat) : Z :=
  match n with
  | O => 0
  | S k => annotationsBefore ann k + ann (Z.of_nat k)
  end.

Definition editorVisible (e : Editor) (view : ViewId) (l : Z) : Z :=
  l + annotationsBefore (annotation e view) (Z.to_nat l).

Fixpoint editorDocLine_from (vis : Z → Z) (x : Z) (n : nat) : Z :=
  match n with
  | O => 0
  | S k => if vis (Z.of_nat (S k)) <=? x then Z.of_nat (S k)
           else editorDocLine_from vis x k
  end.

Definition setAnnotation (view : ViewId) (l n : Z) (e : Editor) : Editor :=
  mkEditor (topLine e) (screenLines e) (lineCount e)
           (λ v k, if view_eqb v view && (k =? l) then n else annotation e v k).

#[local] Instance editorScintilla : Scintilla Editor := {
  getFirstVisibleLine view e := topLine e view;
  linesOnScreen view e := screenLines e view;
  docLineFromVisible view x e := editorDocLine_from (editorVisible e view) x (Z.to_nat x);
  visibleFromDocLine view l e := editorVisible e view l;
  getLineCount view e := lineCount e view;
  foldAllExpand view e := e;
  annotationGetLines view l e := annotation e view l;
  annotationClear view l e := setAnnotation view l 0 e;
  addBlankSection view l len e := setAnnotation view (l - 1) len e
}.

(** Both views show a hundred lines from the top, ten on a screen; the sub
    view has one annotation line under its first line. *)
Definition sampleEditor : Editor :=
  mkEditor (λ _, 0) (λ _, 10) (λ _, 100)
           (λ v l, if view_eqb v SUB_VIEW && (l =? 0) then 1 else 0).

(** Two records with equal diff masks: the first lines, aligned, and line
    50 of both views, far below the screen and one line apart. *)
Definition sampleAlignment : AlignmentInfo_t :=
  [mkPair (mkViewData 0 0) (mkViewData 0 0); mkPair (mkViewData 50 0) (mkViewData 50 0)].

(** C6 as stated fails on the first record past the range: no record of
    [sampleAlignment] between the first and the last line of the screen
    is misaligned, and [isAlignmentNeeded] answers true for the record of
    line 50. *)
Lemma isAlignmentNeeded_reads_past_viewport :
  firstLineOf MAIN_VIEW sampleEditor = 0 ∧ lastLineOf MAIN_VIEW sampleEditor = 10 ∧
  isAlignmentNeeded_spec MAIN_VIEW sampleEditor sampleAlignment = false ∧
  isAlignmentNeeded MAIN_VIEW sampleEditor sampleAlignment = true.
Proof. repeat split. Qed.

(** Three records on line 5 of the sub view, for lines 5, 6 and 7 of the
    main view. *)
Definition sampleRun : AlignmentInfo_t :=
  [mkPair (mkViewData 5 0) (mkViewData 5 0);
   mkPair (mkViewData 6 1) (mkViewData 5 0);
   mkPair (mkViewData 7 1) (mkViewData 5 0)].

Definition plainEditor : Editor := mkEditor (λ _, 0) (λ _, 10) (λ _, 100) (λ _ _, 0).

Lemma alignDiffs_pads_once_witness :
  (alignDiffs sampleRun plainEditor).2 = [None; None; Some (mkPadding SUB_VIEW 5 2)] ∧
  (padCount SUB_VIEW (take (3 - 0) (drop 0 (alignDiffs sampleRun plainEditor).2)) ≤ 1)%nat.
Proof.
  split; [reflexivity|].
  apply (alignDiffs_pads_once sampleRun plainEditor SUB_VIEW 0 2); [lia|].
  intros [|[|k]] Hk; [| |lia].
  - eexists _, _. repeat split; reflexivity.
  - eexists _, _. repeat split; reflexivity.
Defined.

(** *** Where [alignDiffs] stops *)

Section Bounds.

Context {Host : Type} `{Scintilla Host}.

(** The last lines of the two documents, as [alignDiffs] reads them once
    every fold is expanded. *)
Definition expanded (h : Host) : Host :=
  foldAllExpand SUB_VIEW (foldAllExpand MAIN_VIEW h).

Definition endLineOf (view : ViewId) (h : Host) : Z :=
  Int.sub (getLineCount view (expanded h)) 1.

Definition withinDocuments (h : Host) (a : AlignmentPair) : Prop :=
  line (main a) <= endLineOf MAIN_VIEW h ∧ line (sub a) <= endLineOf SUB_VIEW h.

Lemma neg_negative m : Int.in_range m → m < 0 → 0 < Int.neg m ∨ Int.neg m = Int.int_min.
Proof.
  unfold Int.in_range, Int.int_min, Int.int_max. intros Hm Hneg.
  destruct (decide (m = - 2 ^ 31)) as [->|Hne].
  - right. reflexivity.
  - left. unfold Int.neg. rewrite Int.wrap_small; [lia|].
    unfold Int.in_range, Int.int_min, Int.int_max. lia.
Qed.

Lemma alignDiffs_loop_bounds mainEndLine subEndLine info : ∀ h,
  let log := (alignDiffs_loop mainEndLine subEndLine info h).2 in
  (length log ≤ length info)%nat ∧
  (∀ k a, (k < length log)%nat → info !! k = Some a →
          line (main a) <= mainEndLine ∧ line (sub a) <= subEndLine) ∧
  (∀ a, info !! length log = Some a →
        ¬ (line (main a) <= mainEndLine ∧ line (sub a) <= subEndLine)) ∧
  (∀ k pad, log !! k = Some (Some pad) →
            0 < padLen pad ∨ padLen pad = Int.int_min).
Proof.
  induction info as [|x rest IH]; intros h; simpl.
  - split; [done|]. split; [|done]. intros k a Hk. simpl in Hk. lia.
  - destruct ((line (main x) <=? mainEndLine) && (line (sub x) <=? subEndLine)) eqn:Hin.
    2:{ simpl. split; [lia|]. split; [intros k a Hk; lia|]. split; [|done].
        intros a Ha. injection Ha as <-. intros [H1 H2].
        apply andb_false_iff in Hin as [Hin|Hin]; apply Z.leb_gt in Hin; lia. }
    apply andb_true_iff in Hin as [H1 H2]. apply Z.leb_le in H1, H2.
    set (h2 := clearStaleAnnotation SUB_VIEW _ _).
    set (len := Int.sub _ _).
    assert (Hlen : Int.in_range len) by apply Int.wrap_range.
    assert (Hstep : ∀ h' p,
      (p = None ∨ (∃ pad, p = Some pad ∧ (0 < padLen pad ∨ padLen pad = Int.int_min))) →
      let log := p :: (alignDiffs_loop mainEndLine subEndLine rest h').2 in
      (length log ≤ S (length rest))%nat ∧
      (∀ k a, (k < length log)%nat → (x :: rest) !! k = Some a →
              line (main a) <= mainEndLine ∧ line (sub a) <= subEndLine) ∧
      (∀ a, (x :: rest) !! length log = Some a →
            ¬ (line (main a) <= mainEndLine ∧ line (sub a) <= subEndLine)) ∧
      (∀ k pad, log !! k = Some (Some pad) →
                0 < padLen pad ∨ padLen pad = Int.int_min)).
    { intros h' p Hp. destruct (IH h') as (G1 & G2 & G3 & G4). simpl.
      split; [lia|]. split; [|split].
      - intros [|k] a Hk Ha; simpl in Ha.
        + by injection Ha as <-.
        + apply (G2 k a); [lia|done].
      - intros a Ha. by apply G3.
      - intros [|k] pad Hk; simpl in Hk.
        + destruct Hp as [->|(pad' & -> & Hpad')]; [done|]. by injection Hk as <-.
        + by apply (G4 k). }
    destruct (len >? 0) eqn:Hpos.
    + destruct (nextSharesLine SUB_VIEW x rest); simpl.
      * apply Hstep. by left.
      * apply Hstep. right. eexists. split; [done|]. simpl. left.
        by apply Z.gtb_lt in Hpos.
    + destruct (len <? 0) eqn:Hneg.
      * destruct (nextSharesLine MAIN_VIEW x rest); simpl.
        -- apply Hstep. by left.
        -- apply Hstep. right. eexists. split; [done|]. simpl.
           apply neg_negative; [done|]. by apply Z.ltb_lt in Hneg.
      * simpl. apply Hstep. by left.
Qed.

(** X5: [alignDiffs] goes through the alignment records in order and
    stops at the first one whose line lies past the last line of either
    document: the records it handles all lie within both documents, the
    record it stops at does not, and every padding it inserts is a
    positive number of lines long (the difference of two visible lines is
    taken in 32 bits, so the length is [-2^31] for a difference of
    [-2^31]) and sits on a line of its document. *)
Theorem alignDiffs_within_documents (info : AlignmentInfo_t) (h : Host) :
  let log := (alignDiffs info h).2 in
  (length log ≤ length info)%nat ∧
  (∀ k a, (k < length log)%nat → info !! k = Some a → withinDocuments h a) ∧
  (∀ a, info !! length log = Some a → ¬ withinDocuments h a) ∧
  (∀ k pad, log !! k = Some (Some pad) →
            (0 < padLen pad ∨ padLen pad = Int.int_min) ∧
            padLine pad <= endLineOf (padView pad) h).
Proof.
  intros log.
  destruct (alignDiffs_loop_bounds (endLineOf MAIN_VIEW h) (endLineOf SUB_VIEW h) info
              (expanded h)) as (G1 & G2 & G3 & G4).
  split; [exact G1|]. split; [exact G2|]. split; [exact G3|].
  intros k pad Hpad. split; [by apply (G4 k)|].
  assert (Hk : (k < length log)%nat) by (apply lookup_lt_is_Some; by eexists).
  destruct (alignDiffs_loop_padding _ _ info _ k pad Hpad) as (a & Ha & Hline & _).
  destruct (G2 k a Hk Ha) as [Hm Hs]. rewrite Hline.
  destruct (padView pad); done.
Qed.

End Bounds.

End Alignment.

(** ** Incremental update scheduler ([DelayedUpdate], [onSciModifiedUpdate]) *)

Module Scheduler.

(** What the handler does besides updating [delayedUpdate]: the calls on
    the timer of [DelayedWork] and the marker clean-up before a
    multi-line deletion. *)
Inductive Effect : Type :=
| Cancel
| Post (delay_ms : Z)
| ClearMarks (startLine len : Z).

(** Modelled from the spec: the timer of [DelayedWork] ([Tools.h]), a
    cancellable delayed action that is pending from [post] until it fires
    or is cancelled; [armed] holds the delay of the pending timer. *)
Record DelayedUpdate : Type := mkUpdate {
  armed        : option Z;
  changePos    : Z;
  linesAdded   : Z;
  linesDeleted : Z;
  fullCompare  : bool
}.

(** The constructor leaves [changePos] uninitialised. *)
Definition newUpdate (changePos0 : Z) : DelayedUpdate := mkUpdate None changePos0 0 0 false.

Definition isPending (du : DelayedUpdate) : bool :=
  match armed du with Some _ => true | None => false end.

Definition cancel (du : DelayedUpdate) : DelayedUpdate :=
  mkUpdate None (changePos du) (linesAdded du) (linesDeleted du) (fullCompare du).

Definition post (delay_ms : Z) (du : DelayedUpdate) : DelayedUpdate :=
  mkUpdate (Some delay_ms) (changePos du) (linesAdded du) (linesDeleted du) (fullCompare du).

Record SCNotification : Type := mkSCN {
  modificationType : Z;
  position         : Z;
  scnLength        : Z;
  scnLinesAdded    : Z
}.

Section WithDocument.

(** [SCI_LINEFROMPOSITION] on the current view. *)
Variable lineFromPosition : Z → Z.

(** [onSciModifiedUpdate]; [compared] tells whether the current buffer
    belongs to a compared pair. *)
Definition onSciModifiedUpdate (compared : bool) (n : SCNotification) (du : DelayedUpdate)
  : DelayedUpdate * list Effect :=
  if negb compared then (du, [])
  else if has_flag (modificationType n) SC_MOD_BEFOREDELETE then
    let startLine := lineFromPosition (position n) in
    let endLine := lineFromPosition (Int.add (position n) (scnLength n)) in
    if endLine >? startLine
    then (du, [ClearMarks startLine (Int.add (Int.sub endLine startLine) 1)])
    else (du, [])
  else if has_flag (modificationType n) (Z.lor SC_MOD_INSERTTEXT SC_MOD_DELETETEXT) then
    if negb (fullCompare du) then
      let '(du1, eff) :=
        if negb (isPending du) then
          (mkUpdate (armed du) (position n) (linesAdded du) (linesDeleted du) (fullCompare du),
           [])
        else
          let du' := cancel du in
          (if changePos du' >? position n
           then mkUpdate (armed du') (position n) (linesAdded du') (linesDeleted du')
                         (fullCompare du')
           else du',
           [Cancel]) in
      let du2 :=
        if has_flag (modificationType n) SC_MOD_INSERTTEXT
        then mkUpdate (armed du1) (changePos du1)
                      (Int.add (linesAdded du1) (scnLinesAdded n)) (linesDeleted du1)
                      (fullCompare du1)
        else mkUpdate (armed du1) (changePos du1) (linesAdded du1)
                      (Int.add (linesDeleted du1) (Int.neg (scnLinesAdded n)))
                      (fullCompare du1) in
      (post 10 du2, eff ++ [Post 10])
    else (du, [])
  else (du, []).

(** A burst of notifications, handled one after the other. *)
Fixpoint burst (ns : list SCNotification) (du : DelayedUpdate) : DelayedUpdate :=
  match ns with
  | [] => du
  | n :: ns' => burst ns' (onSciModifiedUpdate true n du).1
  end.

End WithDocument.

(** [DelayedUpdate::operator()] as far as [delayedUpdate] goes, once its
    timer has fired: with [fullCompare] set it resets the counters and
    the flag and runs [compare]; otherwise it compares the changed lines
    again and resets the counters. *)
Definition fire (du : DelayedUpdate) : DelayedUpdate :=
  if fullCompare du
  then mkUpdate None (changePos du) 0 0 false
  else mkUpdate None (changePos du) 0 0 (fullCompare du).

(** A text insertion or deletion, as opposed to the notice before a
    deletion. *)
Definition isEdit (n : SCNotification) : bool :=
  negb (has_flag (modificationType n) SC_MOD_BEFOREDELETE) &&
  has_flag (modificationType n) (Z.lor SC_MOD_INSERTTEXT SC_MOD_DELETETEXT).

Definition isInsert (n : SCNotification) : bool :=
  has_flag (modificationType n) SC_MOD_INSERTTEXT.

(** The lines a notification adds and deletes. *)
Definition addedBy (n : SCNotification) : Z :=
  if isInsert n then scnLinesAdded n else 0.

Definition deletedBy (n : SCNotification) : Z :=
  if isInsert n then 0 else - scnLinesAdded n.

Fixpoint earliest (pos : Z) (ns : list SCNotification) : Z :=
  match ns with
  | [] => pos
  | n :: ns' => earliest (Z.min pos (position n)) ns'
  end.

Fixpoint total (f : SCNotification → Z) (ns : list SCNotification) : Z :=
  match ns with
  | [] => 0
  | n :: ns' => f n + total f ns'
  end.

(** *** One notification *)

Lemma isEdit_flags n :
  isEdit n = true →
  has_flag (modificationType n) SC_MOD_BEFOREDELETE = false ∧
  has_flag (modificationType n) (Z.lor SC_MOD_INSERTTEXT SC_MOD_DELETETEXT) = true.
Proof.
  unfold isEdit. intros [H1 H2]%andb_true_iff. split; [|done].
  by apply negb_true_iff.
Qed.

Lemma onSciModifiedUpdate_pending lfp n du d :
  isEdit n = true → armed du = Some d → fullCompare du = false →
  onSciModifiedUpdate lfp true n du
  = (mkUpdate (Some 10) (Z.min (changePos du) (position n))
              (if isInsert n then Int.add (linesAdded du) (scnLinesAdded n)
               else linesAdded du)
              (if isInsert n then linesDeleted du
               else Int.add (linesDeleted du) (Int.neg (scnLinesAdded n)))
              false,
     [Cancel; Post 10]).
Proof.
  intros [H1 H2]%isEdit_flags Harmed Hfull.
  unfold onSciModifiedUpdate, isPending, isInsert. simpl.
  rewrite H1, H2, Hfull, Harmed. simpl.
  assert (Hmin : (if changePos du >? position n then position n else changePos du)
                 = Z.min (changePos du) (position n)).
  { destruct (changePos du >? position n) eqn:E; lia. }
  rewrite <- Hmin.
  destruct (changePos du >? position n);
    destruct (has_flag (modificationType n) SC_MOD_INSERTTEXT);
    unfold post, cancel; simpl; by rewrite ?Hfull.
Qed.

Lemma onSciModifiedUpdate_idle lfp n du :
  isEdit n = true → armed du = None → fullCompare du = false →
  onSciModifiedUpdate lfp true n du
  = (mkUpdate (Some 10) (position n)
              (if isInsert n then Int.add (linesAdded du) (scnLinesAdded n)
               else linesAdded du)
              (if isInsert n then linesDeleted du
               else Int.add (linesDeleted du) (Int.neg (scnLinesAdded n)))
              false,
     [Post 10]).
Proof.
  intros [H1 H2]%isEdit_flags Harmed Hfull.
  unfold onSciModifiedUpdate, isPending, isInsert. simpl.
  rewrite H1, H2, Hfull, Harmed. simpl.
  destruct (has_flag (modificationType n) SC_MOD_INSERTTEXT);
    unfold post; simpl; by rewrite ?Hfull.
Qed.

(** The update is idle, with its counters at zero, when it is new and
    each time it has fired. *)
Lemma fire_idle du :
  armed (fire du) = None ∧ fullCompare (fire du) = false ∧
  linesAdded (fire du) = 0 ∧ linesDeleted (fire du) = 0.
Proof. unfold fire. destruct (fullCompare du) eqn:E; simpl; by rewrite ?E. Qed.

Lemma newUpdate_idle pos :
  armed (newUpdate pos) = None ∧ fullCompare (newUpdate pos) = false ∧
  linesAdded (newUpdate pos) = 0 ∧ linesDeleted (newUpdate pos) = 0.
Proof. done. Qed.

(** *** A burst *)

Lemma earliest_le_start pos ns : earliest pos ns <= pos.
Proof.
  revert pos. induction ns as [|n ns IH]; intros pos; simpl; [lia|].
  specialize (IH (Z.min pos (position n))). lia.
Qed.

Lemma earliest_le pos ns m : m ∈ ns → earliest pos ns <= position m.
Proof.
  revert pos. induction ns as [|n ns IH]; intros pos; simpl; [by intros ?%elem_of_nil|].
  intros [->|Hin]%elem_of_cons.
  - pose proof (earliest_le_start (Z.min pos (position n)) ns). lia.
  - by apply IH.
Qed.

Lemma earliest_seen pos ns : earliest pos ns = pos ∨ ∃ m, m ∈ ns ∧ earliest pos ns = position m.
Proof.
  revert pos. induction ns as [|n ns IH]; intros pos; simpl; [by left|].
  destruct (IH (Z.min pos (position n))) as [E|(m & Hm & E)].
  - destruct (Z.min_spec pos (position n)) as [[_ Hmin]|[_ Hmin]]; rewrite Hmin in E |- *.
    + by left.
    + right. exists n. split; [apply elem_of_cons; by left|done].
  - right. exists m. split; [apply elem_of_cons; by right|done].
Qed.

Lemma burst_pending lfp ns :
  ∀ du d,
    armed du = Some d → fullCompare du = false →
    Forall (λ m, isEdit m = true) ns →
    Int.in_range (linesAdded du) → Int.in_range (linesDeleted du) →
    let du' := burst lfp ns du in
    (∃ d', armed du' = Some d') ∧ fullCompare du' = false ∧
    changePos du' = earliest (changePos du) ns ∧
    linesAdded du' = Int.wrap (linesAdded du + total addedBy ns) ∧
    linesDeleted du' = Int.wrap (linesDeleted du + total deletedBy ns).
Proof.
  induction ns as [|n ns IH]; intros du d Harmed Hfull Hall Hra Hrd; simpl.
  - rewrite !Z.add_0_r, !Int.wrap_small by done. repeat split; eauto.
  - apply Forall_cons in Hall as [Hn Hns].
    rewrite (onSciModifiedUpdate_pending lfp n du d) by done. simpl.
    set (du1 := mkUpdate _ _ _ _ _).
    destruct (IH du1 10) as (G1 & G2 & G3 & G4 & G5); try done.
    + unfold du1. simpl. destruct (isInsert n); [apply Int.wrap_range|done].
    + unfold du1. simpl. destruct (isInsert n); [done|apply Int.wrap_range].
    + repeat split; try done.
      * rewrite G4. unfold du1, addedBy. simpl. destruct (isInsert n).
        -- unfold Int.add. rewrite Int.wrap_add_l. by rewrite Z.add_assoc.
        -- by rewrite Z.add_0_l.
      * rewrite G5. unfold du1, deletedBy. simpl. destruct (isInsert n).
        -- by rewrite Z.add_0_l.
        -- unfold Int.add, Int.neg. rewrite Int.wrap_add_l.
           rewrite <- Z.add_assoc, (Z.add_comm (Int.wrap _)), Z.add_assoc.
           rewrite Int.wrap_add_r. f_equal. lia.
Qed.

(** C7: an insertion or deletion notified while the delayed update is
    pending and no full compare is requested cancels the timer and posts
    it again, adds the lines the notification added or deleted to the
    pending counters (as [int]s) and keeps the smaller of the stored and
    the notified position; so a burst of such notifications that starts
    with the update idle and its counters at zero leaves the update
    pending with the least position of the burst and, in each counter,
    the sum of the lines added, respectively deleted. *)
Theorem update_coalescing (lineFromPosition : Z → Z) :
  (∀ n du d,
      isEdit n = true → armed du = Some d → fullCompare du = false →
      let r := onSciModifiedUpdate lineFromPosition true n du in
      r.2 = [Cancel; Post 10] ∧ armed r.1 = Some 10 ∧ fullCompare r.1 = false ∧
      changePos r.1 = Z.min (changePos du) (position n) ∧
      (isInsert n = true →
         linesAdded r.1 = Int.add (linesAdded du) (scnLinesAdded n) ∧
         linesDeleted r.1 = linesDeleted du) ∧
      (isInsert n = false →
         linesAdded r.1 = linesAdded du ∧
         linesDeleted r.1 = Int.add (linesDeleted du) (Int.neg (scnLinesAdded n)))) ∧
  (∀ n ns du,
      armed du = None → fullCompare du = false →
      linesAdded du = 0 → linesDeleted du = 0 →
      Forall (λ m, isEdit m = true) (n :: ns) →
      let du' := burst lineFromPosition (n :: ns) du in
      (∃ d, armed du' = Some d) ∧ fullCompare du' = false ∧
      changePos du' = earliest (position n) ns ∧
      (∀ m, m ∈ n :: ns → changePos du' <= position m) ∧
      (∃ m, m ∈ n :: ns ∧ changePos du' = position m) ∧
      linesAdded du' = Int.wrap (total addedBy (n :: ns)) ∧
      linesDeleted du' = Int.wrap (total deletedBy (n :: ns)) ∧
      (Int.in_range (total addedBy (n :: ns)) →
         linesAdded du' = total addedBy (n :: ns)) ∧
      (Int.in_range (total deletedBy (n :: ns)) →
         linesDeleted du' = total deletedBy (n :: ns))).
Proof.
  split.
  - intros n du d Hn Harmed Hfull r. unfold r.
    rewrite (onSciModifiedUpdate_pending lineFromPosition n du d) by done. simpl.
    split; [done|]. split; [done|]. split; [done|]. split; [done|].
    split; intros ->; done.
  - intros n ns du Harmed Hfull Hla Hld Hall du'.
    apply Forall_cons in Hall as [Hn Hns].
    unfold du'. simpl.
    rewrite (onSciModifiedUpdate_idle lineFromPosition n du) by done. simpl.
    set (du1 := mkUpdate _ _ _ _ _).
    destruct (burst_pending lineFromPosition ns du1 10) as (G1 & G2 & G3 & G4 & G5);
      try done.
    { unfold du1. simpl. rewrite Hla. destruct (isInsert n); [apply Int.wrap_range|done]. }
    { unfold du1. simpl. rewrite Hld. destruct (isInsert n); [done|apply Int.wrap_range]. }
    assert (HA : linesAdded (burst lineFromPosition ns du1)
                 = Int.wrap (addedBy n + total addedBy ns)).
    { rewrite G4. unfold du1, addedBy. simpl. rewrite Hla. destruct (isInsert n).
      - unfold Int.add. rewrite Int.wrap_add_l. done.
      - done. }
    assert (HD : linesDeleted (burst lineFromPosition ns du1)
                 = Int.wrap (deletedBy n + total deletedBy ns)).
    { rewrite G5. unfold du1, deletedBy. simpl. rewrite Hld. destruct (isInsert n).
      - done.
      - unfold Int.add, Int.neg. rewrite Int.wrap_add_l, Z.add_0_l, Int.wrap_add_l. done. }
    simpl in G3.
    split; [done|]. split; [done|]. split; [done|]. split; [|split; [|split; [|split]]].
    + intros m [->|Hin]%elem_of_cons; rewrite G3.
      * apply earliest_le_start.
      * by apply earliest_le.
    + rewrite G3. destruct (earliest_seen (position n) ns) as [E|(m & Hm & E)].
      * exists n. split; [apply elem_of_cons; by left|done].
      * exists m. split; [apply elem_of_cons; by right|done].
    + exact HA.
    + exact HD.
    + split; intros Hr.
      * rewrite HA. by apply Int.wrap_small.
      * rewrite HD. by apply Int.wrap_small.
Qed.

(** An insertion of two lines at position 120, a deletion of one line at
    position 40 and an insertion of three lines at position 75. *)
Definition sampleBurst : list SCNotification :=
  [mkSCN (Z.lor SC_MOD_INSERTTEXT SC_PERFORMED_USER) 120 30 2;
   mkSCN (Z.lor SC_MOD_DELETETEXT SC_PERFORMED_USER) 40 12 (-1);
   mkSCN (Z.lor SC_MOD_INSERTTEXT SC_PERFORMED_USER) 75 50 3].

Lemma update_coalescing_witness :
  (onSciModifiedUpdate (λ p, p / 10) true
     (mkSCN (Z.lor SC_MOD_DELETETEXT SC_PERFORMED_USER) 40 12 (-1))
     (mkUpdate (Some 10) 120 2 0 false)).2 = [Cancel; Post 10] ∧
  changePos (burst (λ p, p / 10) sampleBurst (newUpdate 0)) = 40 ∧
  linesAdded (burst (λ p, p / 10) sampleBurst (newUpdate 0)) = 5 ∧
  linesDeleted (burst (λ p, p / 10) sampleBurst (newUpdate 0)) = 1.
Proof.
  destruct (update_coalescing (λ p, p / 10)) as [A B].
  split.
  - apply (A (mkSCN (Z.lor SC_MOD_DELETETEXT SC_PERFORMED_USER) 40 12 (-1))
             (mkUpdate (Some 10) 120 2 0 false) 10); reflexivity.
  - destruct (B (mkSCN (Z.lor SC_MOD_INSERTTEXT SC_PERFORMED_USER) 120 30 2)
                [mkSCN (Z.lor SC_MOD_DELETETEXT SC_PERFORMED_USER) 40 12 (-1);
                 mkSCN (Z.lor SC_MOD_INSERTTEXT SC_PERFORMED_USER) 75 50 3]
                (newUpdate 0))
      as (_ & _ & G3 & _ & _ & _ & _ & G8 & G9);
      [reflexivity|reflexivity|reflexivity|reflexivity| |].
    + repeat constructor.
    + split; [exact G3|]. split.
      * apply G8. vm_compute. split; discriminate.
      * apply G9. vm_compute. split; discriminate.
Defined.

End Scheduler.

(** ** Compared files, pairs and the session registry *)

Module Session.

Import Alignment.

Inductive Temp_t : Type := NO_TEMP | LAST_SAVED_TEMP | SVN_TEMP | GIT_TEMP.

Definition isTempFile (t : Temp_t) : bool :=
  match t with NO_TEMP => false | _ => true end.

(** Modelled from the spec: the result of [compareViews] ([Engine.h]),
    one of match, mismatch and error. *)
Inductive CompareResult : Type := COMPARE_ERROR | COMPARE_MATCH | COMPARE_MISMATCH.

Record section_t : Type := mkSectionT { off : Z; len : Z }.

(** The fields of [UserSettings] the compare flow reads. *)
Record UserSettings : Type := mkSettings {
  OldFileViewId        : ViewId;
  CompareToPrev        : bool;
  EncodingsCheck       : bool;
  GotoFirstDiff        : bool;
  PromptToCloseOnMatch : bool;
  IgnoreSpaces         : bool;
  IgnoreCase           : bool;
  DetectMoves          : bool;
  UseNavBar            : bool
}.

(** [ComparedFile], without the file name. *)
Record ComparedFile : Type := mkFile {
  isTemp          : Temp_t;
  isNew           : bool;
  originalViewId  : ViewId;
  originalPos     : Z;
  compareViewId   : ViewId;
  buffId          : Z;
  sciDoc          : Z;
  deletedSections : MarkerHistory.DeletedSectionsList
}.

Record ComparedPair : Type := mkComparedPair {
  file0         : ComparedFile;
  file1         : ComparedFile;
  relativePos   : Z;
  isFullCompare : bool;
  spacesIgnored : bool;
  caseIgnored   : bool;
  movesDetected : bool;
  selections    : (Z * Z) * (Z * Z);
  alignmentInfo : AlignmentInfo_t
}.

Abbreviation CompareList_t := (list ComparedPair).

(** The menu commands the session sends to Notepad++. *)
Inductive MenuCmd : Type :=
| IDM_FILE_CLOSE
| IDM_VIEW_GOTO_ANOTHER_VIEW
| IDM_VIEW_SWITCHTO_OTHER_VIEW
| IDM_VIEW_TAB_PREV
| IDM_VIEW_TAB_NEXT
| IDM_VIEW_TAB_MOVEBACKWARD.

(** The calls that only change what the windows show. *)
Inductive UiCall : Type :=
| SyncZoom
| SetStyles
| ShowNavBar
| SetCompareMode
| SetCompareView (view : ViewId)
| ClearSelection (view : ViewId)
| CenterAt (view : ViewId) (line : Z)
| TempTabName (buff : Z)
| MarkFirstTab (buff : Z)
| NewCompareSet
| NewCompareReleased
| BufferActivated (buff : Z) (compared : bool).

(** The two questions asked with [MB_YESNO]. *)
Inductive Question : Type := CompareAnyway | CloseComparedFiles.

(** Notepad++ and its two Scintilla views, as the session uses them;
    [bufferOpen] is [NPPM_GETFULLPATHFROMBUFFERID >= 0], [deleteFile]
    removes the file of a temp buffer, [answerYes] is the [IDYES] answer
    to a message box. *)
Class Npp (Host : Type) : Type := {
  getCurrentBuffId  : Host → Z;
  getCurrentViewId  : Host → ViewId;
  viewIdFromBuffId  : Z → Host → ViewId;
  posFromBuffId     : Z → Host → Z;
  getDocId          : ViewId → Host → Z;
  bufferOpen        : Z → Host → bool;
  isSingleView      : Host → bool;
  getNumberOfFiles  : ViewId → Host → Z;
  getSelectionLines : ViewId → Host → Z * Z;
  getEncoding       : Z → Host → Z;
  answerYes         : Question → Host → bool;
  activateBufferID  : Z → Host → Host;
  menuCommand       : MenuCmd → Host → Host;
  clearWindow       : ViewId → Host → Host;
  setSavePoint      : ViewId → Host → Host;
  deleteFile        : Z → Host → Host;
  ui                : UiCall → Host → Host;
  compareViews      : section_t → section_t → UserSettings → Host
                      → CompareResult * AlignmentInfo_t * Host
}.

Section WithNpp.

Context {Host : Type} `{Npp Host}.

Definition setOriginalPos (pos : Z) (f : ComparedFile) : ComparedFile :=
  mkFile (isTemp f) (isNew f) (originalViewId f) pos (compareViewId f) (buffId f)
         (sciDoc f) (deletedSections f).

(** [ComparedFile::updateFromCurrent]; the new tab name of a temp file is
    left to the host. *)
Definition updateFromCurrent (f : ComparedFile) (h : Host) : ComparedFile * Host :=
  (mkFile (isTemp f) (isNew f) (originalViewId f) (originalPos f) (compareViewId f)
          (buffId f) (getDocId (getCurrentViewId h) h) (deletedSections f),
   if isTempFile (isTemp f) then ui (TempTabName (buffId f)) h else h).

(** [ComparedFile::initFromCurrent]. *)
Definition initFromCurrent (currFileIsNew : bool) (f : ComparedFile) (h : Host)
  : ComparedFile * Host :=
  let buff := getCurrentBuffId h in
  updateFromCurrent
    (mkFile (isTemp f) currFileIsNew (getCurrentViewId h) (posFromBuffId buff h)
            (getCurrentViewId h) buff (sciDoc f) (deletedSections f)) h.

(** [ComparedFile::updateView]. *)
Definition updateView (settings : UserSettings) (f : ComparedFile) : ComparedFile :=
  mkFile (isTemp f) (isNew f) (originalViewId f) (originalPos f)
         (if isNew f then otherView (OldFileViewId settings) else OldFileViewId settings)
         (buffId f) (sciDoc f) (deletedSections f).

(** [ComparedFile::clear()]. *)
Definition clearFile (f : ComparedFile) (h : Host) : ComparedFile * Host :=
  (mkFile (isTemp f) (isNew f) (originalViewId f) (originalPos f) (compareViewId f)
          (buffId f) (sciDoc f) (MarkerHistory.clear (deletedSections f)),
   clearWindow (viewIdFromBuffId (buffId f) h) h).

(** [ComparedFile::onBeforeClose], [onClose] and [close]. *)
Definition onBeforeClose (f : ComparedFile) (h : Host) : Host :=
  let h1 := activateBufferID (buffId f) h in
  let view := getCurrentViewId h1 in
  let h2 := clearWindow view h1 in
  if isTempFile (isTemp f) then setSavePoint view h2 else h2.

Definition onClose (f : ComparedFile) (h : Host) : Host :=
  if isTempFile (isTemp f) then deleteFile (buffId f) h else h.

Definition close (f : ComparedFile) (h : Host) : Host :=
  onClose f (menuCommand IDM_FILE_CLOSE (onBeforeClose f h)).

(** [ComparedFile::restore]. *)
Definition restore (f : ComparedFile) (h : Host) : Host :=
  if isTempFile (isTemp f) then close f h
  else
    let h1 := activateBufferID (buffId f) h in
    let h2 := clearWindow (getCurrentViewId h1) h1 in
    if negb (view_eqb (viewIdFromBuffId (buffId f) h2) (originalViewId f)) then
      let h3 := menuCommand IDM_VIEW_GOTO_ANOTHER_VIEW h2 in
      if negb (bufferOpen (buffId f) h3) then h3
      else
        let currentPos := posFromBuffId (buffId f) h3 in
        if originalPos f >=? currentPos then h3
        else Nat.iter (Z.to_nat (Int.sub currentPos (originalPos f)))
                      (menuCommand IDM_VIEW_TAB_MOVEBACKWARD) h3
    else h2.

Definition getFileByBuffId (p : ComparedPair) (buff : Z) : ComparedFile :=
  if buffId (file0 p) =? buff then file0 p else file1 p.

Definition getOtherFileByBuffId (p : ComparedPair) (buff : Z) : ComparedFile :=
  if buffId (file0 p) =? buff then file1 p else file0 p.

Definition getFileByViewId (p : ComparedPair) (view : ViewId) (h : Host) : ComparedFile :=
  if view_eqb (viewIdFromBuffId (buffId (file0 p)) h) view then file0 p else file1 p.

Definition getOldFile (p : ComparedPair) : ComparedFile :=
  if isNew (file0 p) then file1 p else file0 p.

Definition getNewFile (p : ComparedPair) : ComparedFile :=
  if isNew (file0 p) then file0 p else file1 p.

Definition setFiles (f0 f1 : ComparedFile) (p : ComparedPair) : ComparedPair :=
  mkComparedPair f0 f1 (relativePos p) (isFullCompare p) (spacesIgnored p) (caseIgnored p)
                 (movesDetected p) (selections p) (alignmentInfo p).

(** Writing through the references [getOldFile()] and [getNewFile()]. *)
Definition setOldNew (oldFile newFile : ComparedFile) (p : ComparedPair) : ComparedPair :=
  if isNew (file0 p) then setFiles newFile oldFile p else setFiles oldFile newFile p.

(** The position update at the head of [ComparedPair::restoreFiles]:
    [biasFile] is the file found in its original view, [movedFile] the
    other one. *)
Definition biasIsFile0 (p : ComparedPair) (h : Host) : bool :=
  view_eqb (viewIdFromBuffId (buffId (file0 p)) h) (originalViewId (file0 p)).

Definition biasFile (p : ComparedPair) (h : Host) : ComparedFile :=
  if biasIsFile0 p h then file0 p else file1 p.

Definition movedFile (p : ComparedPair) (h : Host) : ComparedFile :=
  if biasIsFile0 p h then file1 p else file0 p.

Definition updateMovedPos (p : ComparedPair) (h : Host) : ComparedPair :=
  if negb (relativePos p =? 0) then
    if originalPos (biasFile p h) >? originalPos (movedFile p h) then
      let newPos := posFromBuffId (buffId (biasFile p h)) h in
      if negb (newPos =? originalPos (biasFile p h))
         && (newPos <? originalPos (movedFile p h))
      then
        if biasIsFile0 p h
        then setFiles (file0 p) (setOriginalPos newPos (file1 p)) p
        else setFiles (setOriginalPos newPos (file0 p)) (file1 p) p
      else p
    else p
  else p.

(** [ComparedPair::restoreFiles]; [currentBuffId] is [-1] by default. *)
Definition restoreFiles (currentBuffId : Z) (p : ComparedPair) (h : Host)
  : ComparedPair * Host :=
  let p' := updateMovedPos p h in
  (p',
   if currentBuffId =? -1 then restore (file1 p') (restore (file0 p') h)
   else restore (getFileByBuffId p' currentBuffId)
                (restore (getOtherFileByBuffId p' currentBuffId) h)).

(** [ComparedPair::positionFiles]. *)
Definition positionFiles (settings : UserSettings) (p : ComparedPair) (h : Host)
  : ComparedPair * Host :=
  let h0 := ui SyncZoom h in
  let currentBuffId := getCurrentBuffId h0 in
  let oldFile := updateView settings (getOldFile p) in
  let newFile := updateView settings (getNewFile p) in
  let relPos :=
    if negb (view_eqb (originalViewId oldFile) (originalViewId newFile)) then 0
    else if view_eqb (originalViewId oldFile) (compareViewId oldFile)
         then Int.sub (originalPos newFile) (originalPos oldFile)
         else Int.sub (originalPos oldFile) (originalPos newFile) in
  let '(oldFile1, h1) :=
    if negb (view_eqb (viewIdFromBuffId (buffId oldFile) h0) (compareViewId oldFile))
    then updateFromCurrent oldFile
           (menuCommand IDM_VIEW_GOTO_ANOTHER_VIEW (activateBufferID (buffId oldFile) h0))
    else (oldFile, h0) in
  let '(newFile1, h2) :=
    if negb (view_eqb (viewIdFromBuffId (buffId newFile) h1) (compareViewId newFile))
    then updateFromCurrent newFile
           (menuCommand IDM_VIEW_GOTO_ANOTHER_VIEW (activateBufferID (buffId newFile) h1))
    else (newFile, h1) in
  let h3 := if negb (sciDoc oldFile1 =? getDocId (compareViewId oldFile1) h2)
            then activateBufferID (buffId oldFile1) h2 else h2 in
  let h4 := if negb (sciDoc newFile1 =? getDocId (compareViewId newFile1) h3)
            then activateBufferID (buffId newFile1) h3 else h3 in
  let p1 := setOldNew oldFile1 newFile1 p in
  (mkComparedPair (file0 p1) (file1 p1) relPos (isFullCompare p) (spacesIgnored p)
                  (caseIgnored p) (movesDetected p) (selections p) (alignmentInfo p),
   activateBufferID currentBuffId h4).

(** The session: the registry [compareList], the pair [newCompare] holds
    while a first file waits for its second, [storedLocation] (the view
    whose location is stored) and [goToFirst]. *)
Record Session : Type := mkSession {
  compareList    : CompareList_t;
  newCompare     : option ComparedPair;
  storedLocation : option ViewId;
  goToFirst      : bool
}.

Definition setCompareList (l : CompareList_t) (s : Session) : Session :=
  mkSession l (newCompare s) (storedLocation s) (goToFirst s).

(** [newCompare.reset()], which runs [~NewCompare] on a set pair. *)
Definition resetNewCompare (s : Session) (h : Host) : Session * Host :=
  (mkSession (compareList s) None (storedLocation s) (goToFirst s),
   match newCompare s with Some _ => ui NewCompareReleased h | None => h end).

Definition hasBuff (buff : Z) (p : ComparedPair) : bool :=
  (buffId (file0 p) =? buff) || (buffId (file1 p) =? buff).

Definition hasSciDoc (doc : Z) (p : ComparedPair) : bool :=
  (sciDoc (file0 p) =? doc) || (sciDoc (file1 p) =? doc).

(** [getCompare] and [getCompareBySciDoc]: the index of the first pair
    that holds the buffer, respectively the document; [None] is
    [compareList.end()]. *)
Fixpoint findPair (test : ComparedPair → bool) (l : CompareList_t) : option nat :=
  match l with
  | [] => None
  | p :: l' => if test p then Some O else S <$> findPair test l'
  end.

Definition getCompare (buff : Z) (l : CompareList_t) : option nat :=
  findPair (hasBuff buff) l.

Definition getCompareBySciDoc (doc : Z) (l : CompareList_t) : option nat :=
  findPair (hasSciDoc doc) l.

(** [isFileCompared]; its notice changes nothing. *)
Definition isFileCompared (view : ViewId) (s : Session) (h : Host) : bool :=
  match getCompareBySciDoc (getDocId view h) (compareList s) with
  | Some _ => true
  | None => false
  end.

(** [isEncodingOK]. *)
Definition isEncodingOK (p : ComparedPair) (h : Host) : bool :=
  if negb (getEncoding (buffId (file0 p)) h =? getEncoding (buffId (file1 p)) h)
  then answerYes CompareAnyway h
  else true.

(** [areSelectionsValid]; both arguments are [-1] by default. *)
Definition areSelectionsValid (currentBuffId otherBuffId : Z) (h : Host) : bool * Host :=
  let view1 := if currentBuffId =? otherBuffId then MAIN_VIEW
               else viewIdFromBuffId currentBuffId h in
  let view2 := if currentBuffId =? otherBuffId then SUB_VIEW
               else viewIdFromBuffId otherBuffId h in
  let h1 := if view_eqb view1 view2 then activateBufferID otherBuffId h else h in
  let valid := negb ((getSelectionLines view2 h1).1 <? 0) in
  let h2 := if view_eqb view1 view2 then activateBufferID currentBuffId h1 else h1 in
  (if valid then negb ((getSelectionLines view1 h2).1 <? 0) else false, h2).

(** A [ComparedFile] as its constructor leaves it, the fields it does not
    set being zero. *)
Definition newFile : ComparedFile :=
  mkFile NO_TEMP false MAIN_VIEW 0 MAIN_VIEW 0 0 MarkerHistory.empty.

Definition newPair : ComparedPair :=
  mkComparedPair newFile newFile 0 false false false false ((0, 0), (0, 0)) [].

(** [setFirst], with the constructor of [NewCompare]. *)
Definition setFirst (currFileIsNew markName : bool) (s : Session) (h : Host)
  : bool * Session * Host :=
  if isFileCompared (getCurrentViewId h) s h then (false, s, h)
  else
    let '(s1, h1) := resetNewCompare s h in
    let '(f0, h2) := initFromCurrent currFileIsNew (file0 newPair) h1 in
    let h3 := ui NewCompareSet h2 in
    let h4 := if markName then ui (MarkFirstTab (buffId f0)) h3 else h3 in
    (true,
     mkSession (compareList s1) (Some (setFiles f0 (file1 newPair) newPair))
               (storedLocation s1) (goToFirst s1),
     h4).

(** [initNewCompare]. *)
Definition initNewCompare (settings : UserSettings) (s : Session) (h : Host)
  : bool * Session * Host :=
  let firstIsSet :=
    match newCompare s with
    | Some p => negb (buffId (file0 p) =? getCurrentBuffId h)
    | None => false
    end in
  let '(ok, s1, h1) :=
    if negb firstIsSet then
      let singleView := isSingleView h in
      let isNew := if singleView then true
                   else negb (view_eqb (getCurrentViewId h) (OldFileViewId settings)) in
      let '(set, s', h') := setFirst isNew false s h in
      if negb set then (false, s', h')
      else if singleView then
        if getNumberOfFiles (getCurrentViewId h') h' <? 2 then (false, s', h')
        else (true, s',
              menuCommand (if CompareToPrev settings then IDM_VIEW_TAB_PREV
                           else IDM_VIEW_TAB_NEXT) h')
      else if isFileCompared (otherView (getCurrentViewId h')) s' h' then (false, s', h')
      else (true, s', menuCommand IDM_VIEW_SWITCHTO_OTHER_VIEW h')
    else (true, s, h) in
  if negb ok then (false, s1, h1)
  else
    match newCompare s1 with
    | Some p =>
        let '(f1, h2) := initFromCurrent (negb (isNew (file0 p))) (file1 p) h1 in
        (true,
         mkSession (compareList s1) (Some (setFiles (file0 p) f1 p))
                   (storedLocation s1) (goToFirst s1),
         h2)
    | None => (false, s1, h1)
    end.

(** [addComparePair]: the new pair goes to the back of the registry; the
    index returned is [compareList.end() - 1]. *)
Definition addComparePair (s : Session) (h : Host) : Session * Host * nat :=
  match newCompare s with
  | Some p =>
      let '(s1, h1) := resetNewCompare (setCompareList (compareList s ++ [p]) s) h in
      (s1, h1, length (compareList s))
  | None => (s, h, length (compareList s))
  end.

(** [onBufferActivated], whose timers and view modes are the host's. *)
Definition onBufferActivated (buff : Z) (s : Session) (h : Host) : Host :=
  ui (BufferActivated buff
        (match getCompare buff (compareList s) with Some _ => true | None => false end)) h.

(** [clearComparePair]. *)
Definition clearComparePair (buff : Z) (s : Session) (h : Host) : Session * Host :=
  match getCompare buff (compareList s) with
  | None => (s, h)
  | Some i =>
      match compareList s !! i with
      | None => (s, h)
      | Some p =>
          let '(_, h1) := restoreFiles buff p h in
          let s1 := setCompareList (delete i (compareList s)) s in
          (s1, onBufferActivated (getCurrentBuffId h1) s1 h1)
      end
  end.

(** [closeComparePair]. *)
Definition closeComparePair (i : nat) (s : Session) (h : Host) : Session * Host :=
  match compareList s !! i with
  | None => (s, h)
  | Some p =>
      let h1 := close (getFileByViewId p SUB_VIEW h) h in
      let h2 := close (getFileByViewId p MAIN_VIEW h1) h1 in
      let s1 := setCompareList (delete i (compareList s)) s in
      (s1, onBufferActivated (getCurrentBuffId h2) s1 h2)
  end.

(** [runCompare] on the pair [cmpPair] points to. *)
Definition runCompare (settings : UserSettings) (selectionCompare : bool)
           (p : ComparedPair) (h : Host) : CompareResult * ComparedPair * Host :=
  let '(p1, h1) := positionFiles settings p h in
  let sel := if selectionCompare
             then (getSelectionLines MAIN_VIEW h1, getSelectionLines SUB_VIEW h1)
             else selections p1 in
  let mainViewSection :=
    if selectionCompare then mkSectionT sel.1.1 (Int.add (Int.sub sel.1.2 sel.1.1) 1)
    else mkSectionT 0 0 in
  let subViewSection :=
    if selectionCompare then mkSectionT sel.2.1 (Int.add (Int.sub sel.2.2 sel.2.1) 1)
    else mkSectionT 0 0 in
  let h2 := ui SetStyles h1 in
  let '(result, info, h3) := compareViews mainViewSection subViewSection settings h2 in
  (result,
   mkComparedPair (file0 p1) (file1 p1) (relativePos p1) (isFullCompare p1)
                  (spacesIgnored p1) (caseIgnored p1) (movesDetected p1) sel info,
   h3).

Definition setStoredLocation (loc : option ViewId) (s : Session) : Session :=
  mkSession (compareList s) (newCompare s) loc (goToFirst s).

Definition setGoToFirst (b : bool) (s : Session) : Session :=
  mkSession (compareList s) (newCompare s) (storedLocation s) b.

(** Writing through the iterator [cmpPair]. *)
Definition setPair (i : nat) (p : ComparedPair) (s : Session) : Session :=
  setCompareList (<[i := p]> (compareList s)) s.

(** What [compare] has reached when it calls [runCompare], if it does. *)
Inductive Prepared : Type :=
| Aborted (s : Session) (h : Host)
| Ready (s : Session) (h : Host) (cmpPair : nat).

(** The activation and the selection check [compare] makes between
    [addComparePair] and the encoding check. *)
Definition activateForCompare (sel : bool) (currentBuffId : Z) (p : ComparedPair) (h : Host)
  : bool * Host :=
  if isTempFile (isTemp (getOldFile p))
  then (true, activateBufferID (buffId (getNewFile p)) h)
  else
    let h' := activateBufferID currentBuffId h in
    if sel
    then areSelectionsValid currentBuffId (buffId (getOtherFileByBuffId p currentBuffId)) h'
    else (true, h').

(** [compare] down to the call of [runCompare]. *)
Definition compare_prepare (settings : UserSettings) (selectionCompare : bool)
           (s : Session) (h : Host) : Prepared :=
  let currentBuffId := getCurrentBuffId h in
  let s0 := setGoToFirst false (setStoredLocation None s) in
  match getCompare currentBuffId (compareList s0) with
  | Some i =>
      let '(s1, h1) := resetNewCompare s0 h in
      let '(valid, h2) := if selectionCompare then areSelectionsValid (-1) (-1) h1
                          else (true, h1) in
      if negb valid then Aborted s1 h2
      else
        match compareList s1 !! i with
        | None => Aborted s1 h2
        | Some p =>
            let s2 := if isFullCompare p && negb (GotoFirstDiff settings)
                         && negb selectionCompare
                      then setStoredLocation (Some (getCurrentViewId h2)) s1 else s1 in
            let '(oldFile, h3) := clearFile (getOldFile p) h2 in
            let '(newFile, h4) := clearFile (getNewFile p) h3 in
            Ready (setPair i (setOldNew oldFile newFile p) s2) h4 i
        end
  | None =>
      let '(ok, s1, h1) := initNewCompare settings s0 h in
      if negb ok then
        let '(s2, h2) := resetNewCompare s1 h1 in Aborted s2 h2
      else
        let '(s2, h2, i) := addComparePair s1 h1 in
        match compareList s2 !! i with
        | None => Aborted s2 h2
        | Some p =>
            let '(valid, h3) := activateForCompare selectionCompare currentBuffId p h2 in
            if negb valid then Aborted (setCompareList (delete i (compareList s2)) s2) h3
            else if EncodingsCheck settings && negb (isEncodingOK p h3)
            then let '(s3, h4) := clearComparePair (getCurrentBuffId h3) s2 h3 in
                 Aborted s3 h4
            else Ready s2 h3 i
        end
  end.

(** The first record with a diff on the main view, to centre both views
    at. *)
Fixpoint centerAtFirstDiff (info : AlignmentInfo_t) (h : Host) : Host :=
  match info with
  | [] => h
  | alignment :: rest =>
      if negb (diffMask (main alignment) =? 0)
      then ui (CenterAt SUB_VIEW (line (sub alignment)))
              (ui (CenterAt MAIN_VIEW (line (main alignment))) h)
      else centerAtFirstDiff rest h
  end.

(** [compare] from the call of [runCompare] on. *)
Definition compare_finish (settings : UserSettings) (selectionCompare doubleView : bool)
           (s : Session) (h : Host) (cmpPair : nat) : Session * Host :=
  match compareList s !! cmpPair with
  | None => (s, h)
  | Some p =>
      let '(cmpResult, p1, h1) := runCompare settings selectionCompare p h in
      let s1 := setPair cmpPair p1 s in
      match cmpResult with
      | COMPARE_MISMATCH =>
          let p2 := mkComparedPair (file0 p1) (file1 p1) (relativePos p1)
                      (negb selectionCompare) (IgnoreSpaces settings)
                      (IgnoreCase settings) (DetectMoves settings)
                      (selections p1) (alignmentInfo p1) in
          let s2 := setPair cmpPair p2 s1 in
          let h2 := if UseNavBar settings then ui ShowNavBar h1 else h1 in
          let h3 := ui (SetCompareView SUB_VIEW)
                       (ui (SetCompareView MAIN_VIEW) (ui SetCompareMode h2)) in
          match storedLocation s2 with
          | Some _ => (s2, h3)
          | None =>
              let h4 := if negb doubleView
                        then activateBufferID (buffId (getNewFile p2)) h3 else h3 in
              let h5 := if selectionCompare
                        then ui (ClearSelection (otherView (getCurrentViewId h4)))
                                (ui (ClearSelection (getCurrentViewId h4)) h4)
                        else h4 in
              (setGoToFirst true s2, centerAtFirstDiff (alignmentInfo p2) h5)
          end
      | COMPARE_MATCH =>
          let choice :=
            if isTempFile (isTemp (getOldFile p1)) then false
            else if PromptToCloseOnMatch settings then answerYes CloseComparedFiles h1
                 else false in
          let '(s2, h2) :=
            if choice then closeComparePair cmpPair s1 h1
            else clearComparePair (getCurrentBuffId h1) s1 h1 in
          (setStoredLocation None s2, h2)
      | COMPARE_ERROR =>
          let '(s2, h2) := clearComparePair (getCurrentBuffId h1) s1 h1 in
          (setStoredLocation None s2, h2)
      end
  end.

(** The call of [initNewCompare] in [compare]. *)
Definition initSecond (settings : UserSettings) (s : Session) (h : Host)
  : bool * Session * Host :=
  initNewCompare settings (setGoToFirst false (setStoredLocation None s)) h.

(** [compare]. *)
Definition compare (settings : UserSettings) (selectionCompare : bool)
           (s : Session) (h : Host) : Session * Host :=
  let doubleView := negb (isSingleView h) in
  match compare_prepare settings selectionCompare s h with
  | Aborted s' h' => (s', h')
  | Ready s' h' cmpPair => compare_finish settings selectionCompare doubleView s' h' cmpPair
  end.

(** *** The position update of [restoreFiles] *)

Lemma setOriginalPos_same f : setOriginalPos (originalPos f) f = f.
Proof. by destruct f. Qed.

(** The condition under which [restoreFiles] changes the recorded
    position of the moved file. *)
Definition positionAdjusted (p : ComparedPair) (h : Host) : bool :=
  negb (relativePos p =? 0)
  && (originalPos (biasFile p h) >? originalPos (movedFile p h))
  && negb (posFromBuffId (buffId (biasFile p h)) h =? originalPos (biasFile p h))
  && (posFromBuffId (buffId (biasFile p h)) h <? originalPos (movedFile p h)).

(** What the specification says the update does: the moved file's recorded
    position follows the shift of the bias file. *)
Definition updateMovedPos_spec (p : ComparedPair) (h : Host) : Z :=
  if negb (relativePos p =? 0)
  then originalPos (movedFile p h)
       + (posFromBuffId (buffId (biasFile p h)) h - originalPos (biasFile p h))
  else originalPos (movedFile p h).

Lemma updateMovedPos_bias p h :
  biasIsFile0 (updateMovedPos p h) h = biasIsFile0 p h ∧
  biasFile (updateMovedPos p h) h = biasFile p h.
Proof.
  unfold updateMovedPos, biasFile.
  destruct (negb (relativePos p =? 0)); [|done].
  destruct (_ >? _); [|done].
  destruct (_ && _); [|done].
  destruct (biasIsFile0 p h) eqn:E; unfold biasIsFile0 in *; simpl; rewrite E; done.
Qed.

Lemma updateMovedPos_moved p h :
  movedFile (updateMovedPos p h) h
  = setOriginalPos (if positionAdjusted p h
                    then posFromBuffId (buffId (biasFile p h)) h
                    else originalPos (movedFile p h))
                   (movedFile p h).
Proof.
  unfold positionAdjusted, updateMovedPos.
  destruct (negb (relativePos p =? 0)); simpl; [|by rewrite setOriginalPos_same].
  destruct (_ >? _); simpl; [|by rewrite setOriginalPos_same].
  destruct (_ && _); simpl; [|by rewrite setOriginalPos_same].
  unfold movedFile.
  destruct (biasIsFile0 p h) eqn:E; unfold biasIsFile0 in *; simpl; rewrite E; done.
Qed.

Lemma updateMovedPos_rest p h :
  relativePos (updateMovedPos p h) = relativePos p ∧
  alignmentInfo (updateMovedPos p h) = alignmentInfo p ∧
  buffId (file0 (updateMovedPos p h)) = buffId (file0 p) ∧
  buffId (file1 (updateMovedPos p h)) = buffId (file1 p).
Proof.
  unfold updateMovedPos.
  destruct (negb (relativePos p =? 0)); [|done].
  destruct (_ >? _); [|done].
  destruct (_ && _); [|done].
  destruct (biasIsFile0 p h); done.
Qed.

(** *** The registry as a vector *)

Lemma findPair_bound test l i : findPair test l = Some i → (i < length l)%nat.
Proof.
  revert i. induction l as [|p l IH]; intros i; simpl; [done|].
  destruct (test p); [intros [= <-]; lia|].
  destruct (findPair test l) as [j|]; simpl; [|done].
  intros [= <-]. specialize (IH j eq_refl). lia.
Qed.

Lemma findPair_back test l p :
  findPair test l = None →
  findPair test (l ++ [p]) = if test p then Some (length l) else None.
Proof.
  induction l as [|q l IH]; simpl; [by destruct (test p)|].
  destruct (test q); [done|].
  destruct (findPair test l); simpl; [done|]. intros _.
  rewrite IH by done. by destruct (test p).
Qed.

Lemma delete_back {A} (l : list A) (x : A) : delete (length l) (l ++ [x]) = l.
Proof. induction l as [|y l IH]; simpl; [done|]. by rewrite IH. Qed.

Lemma lookup_back {A} (l : list A) (x : A) : (l ++ [x]) !! length l = Some x.
Proof. induction l as [|y l IH]; simpl; done. Qed.

Lemma insert_back {A} (l : list A) (x y : A) : <[length l := y]> (l ++ [x]) = l ++ [y].
Proof. induction l as [|z l IH]; simpl; [done|]. by rewrite IH. Qed.

(** *** What the steps of [compare] leave of the registry *)

Lemma resetNewCompare_list s h : compareList (resetNewCompare s h).1 = compareList s.
Proof. done. Qed.

Ltac destruct_init :=
  match goal with
  | |- context [initFromCurrent ?a ?b ?c] => destruct (initFromCurrent a b c)
  end.

Lemma setFirst_list currFileIsNew markName s h :
  compareList (setFirst currFileIsNew markName s h).1.2 = compareList s.
Proof.
  unfold setFirst. destruct (isFileCompared _ _ _); [done|].
  unfold resetNewCompare. destruct_init. done.
Qed.

Lemma initNewCompare_list settings s h :
  compareList (initNewCompare settings s h).1.2 = compareList s.
Proof.
  unfold initNewCompare.
  set (firstIsSet := match newCompare s with Some _ => _ | None => _ end).
  destruct (negb firstIsSet).
  - pose proof (setFirst_list
                  (if isSingleView h then true
                   else negb (view_eqb (getCurrentViewId h) (OldFileViewId settings)))
                  false s h) as Hsf.
    destruct (setFirst _ false s h) as [[set s'] h']. simpl in Hsf.
    destruct (negb set); simpl; [done|].
    destruct (isSingleView h).
    + destruct (_ <? 2); simpl; [done|].
      destruct (newCompare s'); [|done]. try destruct_init; done.
    + destruct (isFileCompared _ _ _); simpl; [done|].
      destruct (newCompare s'); [|done]. try destruct_init; done.
  - simpl. destruct (newCompare s); [|done]. try destruct_init; done.
Qed.

Lemma initNewCompare_ok settings s h :
  (initNewCompare settings s h).1.1 = true →
  ∃ p, newCompare (initNewCompare settings s h).1.2 = Some p.
Proof.
  unfold initNewCompare.
  set (firstIsSet := match newCompare s with Some _ => _ | None => _ end).
  destruct (negb firstIsSet).
  - destruct (setFirst _ false s h) as [[set s'] h'].
    destruct (negb set); simpl; [done|].
    destruct (isSingleView h).
    + destruct (_ <? 2); simpl; [done|].
      destruct (newCompare s'); [|done]. try destruct_init; simpl; eauto.
    + destruct (isFileCompared _ _ _); simpl; [done|].
      destruct (newCompare s'); [|done]. try destruct_init; simpl; eauto.
  - simpl. destruct (newCompare s); [|done]. try destruct_init; simpl; eauto.
Qed.

Lemma updateFromCurrent_buffId f h : buffId (updateFromCurrent f h).1 = buffId f.
Proof. done. Qed.

Lemma setOldNew_buffIds (g1 g2 : ComparedFile → ComparedFile) p :
  (∀ f, buffId (g1 f) = buffId f) → (∀ f, buffId (g2 f) = buffId f) →
  buffId (file0 (setOldNew (g1 (getOldFile p)) (g2 (getNewFile p)) p)) = buffId (file0 p) ∧
  buffId (file1 (setOldNew (g1 (getOldFile p)) (g2 (getNewFile p)) p)) = buffId (file1 p).
Proof.
  intros H1 H2. unfold setOldNew, getOldFile, getNewFile.
  destruct (isNew (file0 p)); simpl; by rewrite H1, H2.
Qed.

Lemma positionFiles_buffIds settings p h :
  buffId (file0 (positionFiles settings p h).1) = buffId (file0 p) ∧
  buffId (file1 (positionFiles settings p h).1) = buffId (file1 p).
Proof.
  unfold positionFiles.
  set (h0 := ui SyncZoom h).
  set (oldFile := updateView settings (getOldFile p)).
  set (newFile := updateView settings (getNewFile p)).
  destruct (negb (view_eqb (viewIdFromBuffId (buffId oldFile) h0) (compareViewId oldFile)));
    [set (x := updateFromCurrent oldFile _);
     assert (buffId x.1 = buffId oldFile) by done; destruct x as [oldFile1 h1]
    |set (oldFile1 := oldFile); set (h1 := h0);
     assert (buffId oldFile1 = buffId oldFile) by done];
    (destruct (negb (view_eqb (viewIdFromBuffId (buffId newFile) h1) (compareViewId newFile)));
     [set (y := updateFromCurrent newFile _);
      assert (buffId y.1 = buffId newFile) by done; destruct y as [newFile1 h2]
     |set (newFile1 := newFile); set (h2 := h1);
      assert (buffId newFile1 = buffId newFile) by done]);
    simpl in *; unfold setOldNew, oldFile, newFile, getOldFile, getNewFile in *;
    destruct (isNew (file0 p)); simpl in *; split; congruence.
Qed.

Lemma runCompare_buffIds settings sel p h :
  buffId (file0 (runCompare settings sel p h).1.2) = buffId (file0 p) ∧
  buffId (file1 (runCompare settings sel p h).1.2) = buffId (file1 p).
Proof.
  unfold runCompare. pose proof (positionFiles_buffIds settings p h) as Hp.
  destruct (positionFiles settings p h) as [p1 h1]. simpl in Hp.
  destruct (compareViews _ _ _ _) as [[result info] h3]. done.
Qed.

End WithNpp.

(** *** The compare flow on a host that keeps track of the current buffer *)

Section WithLaws.

Context {Host : Type} `{Npp Host}.

(** [activateBufferID] makes the buffer current; what only changes the
    windows, and the diff engine, leave the current buffer alone. *)
Hypothesis activate_current : ∀ b h, getCurrentBuffId (activateBufferID b h) = b.
Hypothesis ui_current : ∀ c h, getCurrentBuffId (ui c h) = getCurrentBuffId h.
Hypothesis compareViews_current :
  ∀ a b settings h, getCurrentBuffId (compareViews a b settings h).2 = getCurrentBuffId h.

Lemma positionFiles_current settings p h :
  getCurrentBuffId (positionFiles settings p h).2 = getCurrentBuffId h.
Proof.
  unfold positionFiles.
  repeat match goal with
         | |- context [let '(_, _) := ?x in _] => destruct x
         end.
  simpl. by rewrite activate_current, ui_current.
Qed.

Lemma runCompare_current settings sel p h :
  getCurrentBuffId (runCompare settings sel p h).2 = getCurrentBuffId h.
Proof.
  unfold runCompare. pose proof (positionFiles_current settings p h) as Hp.
  destruct (positionFiles settings p h) as [p1 h1]. simpl in Hp.
  match goal with
  | |- context [compareViews ?a ?b ?c ?d] =>
      pose proof (compareViews_current a b c d) as Hc; destruct (compareViews a b c d) as [[r i] h3]
  end.
  simpl in *. by rewrite Hc, ui_current.
Qed.

Lemma areSelectionsValid_current cur other h :
  getCurrentBuffId h = cur →
  getCurrentBuffId (areSelectionsValid cur other h).2 = cur.
Proof.
  intros Hc. unfold areSelectionsValid. simpl.
  destruct (view_eqb _ _); [apply activate_current|done].
Qed.

Lemma initNewCompare_has_current settings s h p :
  (initNewCompare settings s h).1.1 = true →
  newCompare (initNewCompare settings s h).1.2 = Some p →
  hasBuff (getCurrentBuffId h) p = true.
Proof.
  unfold initNewCompare.
  destruct (newCompare s) as [p0|] eqn:Enew.
  - destruct (buffId (file0 p0) =? getCurrentBuffId h) eqn:Ecur; simpl.
    + unfold setFirst. destruct (isFileCompared _ _ _); simpl; [done|].
      rewrite Enew. simpl.
      destruct (isSingleView h); simpl.
      * destruct (_ <? 2); simpl; [done|]. intros _ [= <-].
        unfold hasBuff. simpl. by rewrite ui_current, Z.eqb_refl.
      * destruct (isFileCompared _ _ _); simpl; [done|]. intros _ [= <-].
        unfold hasBuff. simpl. by rewrite ui_current, Z.eqb_refl.
    + rewrite Enew. simpl. intros _ [= <-].
      unfold hasBuff. simpl. by rewrite Z.eqb_refl, orb_true_r.
  - simpl. unfold setFirst. destruct (isFileCompared _ _ _); simpl; [done|].
    rewrite Enew. simpl.
    destruct (isSingleView h); simpl.
    + destruct (_ <? 2); simpl; [done|]. intros _ [= <-].
      unfold hasBuff. simpl. by rewrite Z.eqb_refl.
    + destruct (isFileCompared _ _ _); simpl; [done|]. intros _ [= <-].
      unfold hasBuff. simpl. by rewrite Z.eqb_refl.
Qed.

Lemma clearComparePair_back b s h cl p :
  compareList s = cl ++ [p] → getCompare b cl = None → hasBuff b p = true →
  compareList (clearComparePair b s h).1 = cl.
Proof.
  intros Hl Hnone Hin. unfold clearComparePair, getCompare in *.
  rewrite Hl, (findPair_back _ _ _ Hnone), Hin. cbn beta iota.
  rewrite lookup_back.
  destruct (restoreFiles b p h). simpl. apply delete_back.
Qed.

Lemma closeComparePair_back s h cl p :
  compareList s = cl ++ [p] →
  compareList (closeComparePair (length cl) s h).1 = cl.
Proof.
  intros Hl. unfold closeComparePair. rewrite Hl, lookup_back. simpl.
  rewrite ?Hl. apply delete_back.
Qed.

Lemma hasBuff_same b p p' :
  buffId (file0 p') = buffId (file0 p) → buffId (file1 p') = buffId (file1 p) →
  hasBuff b p' = hasBuff b p.
Proof. unfold hasBuff. by intros -> ->. Qed.

Lemma compare_finish_list settings sel doubleView s h cl p :
  compareList s = cl ++ [p] →
  hasBuff (getCurrentBuffId h) p = true →
  getCompare (getCurrentBuffId h) cl = None →
  ((runCompare settings sel p h).1.1 = COMPARE_MISMATCH →
     ∃ p', compareList (compare_finish settings sel doubleView s h (length cl)).1
           = cl ++ [p'] ∧
           buffId (file0 p') = buffId (file0 p) ∧ buffId (file1 p') = buffId (file1 p)) ∧
  ((runCompare settings sel p h).1.1 ≠ COMPARE_MISMATCH →
     compareList (compare_finish settings sel doubleView s h (length cl)).1 = cl).
Proof.
  intros Hl Hin Hnone. unfold compare_finish. rewrite Hl, lookup_back.
  pose proof (runCompare_buffIds settings sel p h) as [Hb0 Hb1].
  pose proof (runCompare_current settings sel p h) as Hcur.
  destruct (runCompare settings sel p h) as [[cmpResult p1] h1]. simpl in *.
  assert (Hl1 : compareList (setPair (length cl) p1 s) = cl ++ [p1]).
  { unfold setPair. simpl. rewrite Hl. apply insert_back. }
  assert (Hin1 : hasBuff (getCurrentBuffId h1) p1 = true).
  { rewrite Hcur. by rewrite (hasBuff_same _ p p1). }
  split.
  - intros ->.
    set (p2 := mkComparedPair _ _ _ _ _ _ _ _ _).
    exists p2. split; [|done].
    assert (Hl2 : compareList (setPair (length cl) p2 (setPair (length cl) p1 s)) = cl ++ [p2]).
    { unfold setPair at 1. simpl. rewrite Hl. rewrite insert_back. apply insert_back. }
    destruct (storedLocation _); simpl; exact Hl2.
  - intros Hres. destruct cmpResult; [| |done].
    + pose proof (clearComparePair_back (getCurrentBuffId h1) _ h1 cl p1 Hl1) as Hc.
      destruct (clearComparePair _ _ _) as [s2 h2]. simpl in *.
      apply Hc; [by rewrite Hcur|done].
    + destruct (if isTempFile _ then false else _).
      * pose proof (closeComparePair_back _ h1 cl p1 Hl1) as Hc.
        destruct (closeComparePair _ _ _) as [s2 h2]. simpl in *. exact Hc.
      * pose proof (clearComparePair_back (getCurrentBuffId h1) _ h1 cl p1 Hl1) as Hc.
        destruct (clearComparePair _ _ _) as [s2 h2]. simpl in *.
        apply Hc; [by rewrite Hcur|done].
Qed.

Lemma getCompare_pair_file b p :
  hasBuff b p = true → b = buffId (file0 p) ∨ b = buffId (file1 p).
Proof.
  unfold hasBuff. intros [E|E]%orb_true_iff; apply Z.eqb_eq in E; [by left|by right].
Qed.

Lemma getNewFile_in p : hasBuff (buffId (getNewFile p)) p = true.
Proof.
  unfold hasBuff, getNewFile. destruct (isNew (file0 p)); rewrite Z.eqb_refl;
    by rewrite ?orb_true_r.
Qed.

Lemma addComparePair_some s h p :
  newCompare s = Some p →
  addComparePair s h
  = (mkSession (compareList s ++ [p]) None (storedLocation s) (goToFirst s),
     ui NewCompareReleased h, length (compareList s)).
Proof. intros Hp. unfold addComparePair, resetNewCompare. rewrite Hp. simpl. by rewrite Hp. Qed.

Lemma activateForCompare_current sel cur p h :
  hasBuff cur p = true →
  hasBuff (getCurrentBuffId (activateForCompare sel cur p h).2) p = true.
Proof.
  intros Hin. unfold activateForCompare.
  destruct (isTempFile _); cbv beta iota zeta.
  - cbn [snd]. rewrite activate_current. apply getNewFile_in.
  - destruct sel; cbv beta iota zeta.
    + by rewrite areSelectionsValid_current by apply activate_current.
    + cbn [snd]. by rewrite activate_current.
Qed.

Lemma compare_prepare_new settings sel s h :
  getCompare (getCurrentBuffId h) (compareList s) = None →
  (∀ p, newCompare (initSecond settings s h).1.2 = Some p →
        getCompare (buffId (file0 p)) (compareList s) = None ∧
        getCompare (buffId (file1 p)) (compareList s) = None) →
  match compare_prepare settings sel s h with
  | Aborted s' h' => compareList s' = compareList s
  | Ready s' h' cmpPair =>
      ∃ p, compareList s' = compareList s ++ [p] ∧ cmpPair = length (compareList s) ∧
           hasBuff (getCurrentBuffId h') p = true ∧
           getCompare (getCurrentBuffId h') (compareList s) = None
  end.
Proof.
  intros Hnew Hex. unfold compare_prepare.
  change (compareList (setGoToFirst false (setStoredLocation None s))) with (compareList s).
  rewrite Hnew. fold (initSecond settings s h).
  pose proof (initNewCompare_list settings (setGoToFirst false (setStoredLocation None s)) h)
    as Hlist.
  pose proof (initNewCompare_ok settings (setGoToFirst false (setStoredLocation None s)) h)
    as Hok.
  pose proof (λ p, initNewCompare_has_current settings
                     (setGoToFirst false (setStoredLocation None s)) h p) as Hcur.
  fold (initSecond settings s h) in Hlist, Hok, Hcur.
  change (compareList (setGoToFirst false (setStoredLocation None s)))
    with (compareList s) in Hlist.
  destruct (initSecond settings s h) as [[ok s1] h1]. cbn [fst snd] in *.
  destruct ok; cbn [negb].
  2:{ unfold resetNewCompare. exact Hlist. }
  destruct (Hok eq_refl) as [p Hp].
  destruct (Hex p Hp) as [Hx0 Hx1].
  specialize (Hcur p eq_refl Hp).
  assert (Hnone : ∀ b, hasBuff b p = true → getCompare b (compareList s) = None).
  { intros b [->| ->]%getCompare_pair_file; done. }
  rewrite (addComparePair_some s1 h1 p Hp). cbn [compareList]. rewrite Hlist, lookup_back.
  set (h2 := ui NewCompareReleased h1).
  set (s2 := mkSession (compareList s ++ [p]) None (storedLocation s1) (goToFirst s1)).
  pose proof (activateForCompare_current sel (getCurrentBuffId h) p h2 Hcur) as Hin3.
  destruct (activateForCompare sel (getCurrentBuffId h) p h2) as [valid h3].
  cbn [fst snd] in *.
  destruct valid; cbn [negb].
  2:{ unfold setCompareList. cbn [compareList]. apply delete_back. }
  destruct (EncodingsCheck settings && negb (isEncodingOK p h3)).
  - pose proof (clearComparePair_back (getCurrentBuffId h3) s2 h3 (compareList s) p
                  eq_refl (Hnone _ Hin3) Hin3) as Hc.
    by destruct (clearComparePair _ _ _).
  - exists p. repeat split; try done. by apply Hnone.
Qed.

(** C8 (amended): in a new compare, [compare] puts the pair at the back
    of the registry before the first compare runs, so the pair is
    registered while [runCompare] works; every failure that follows (no
    valid selection, a declined encoding mismatch, an engine error, files
    that match) takes the pair out again, and a failure before that point
    registers nothing: when [compare] returns, the registry is the one it
    found, with the new pair added at the back only if the first compare
    ended in a mismatch. *)
Theorem compare_registers_then_rolls_back settings sel s h :
  getCompare (getCurrentBuffId h) (compareList s) = None →
  (∀ p, newCompare (initSecond settings s h).1.2 = Some p →
        getCompare (buffId (file0 p)) (compareList s) = None ∧
        getCompare (buffId (file1 p)) (compareList s) = None) →
  match compare_prepare settings sel s h with
  | Aborted s' h' => compareList s' = compareList s ∧ compare settings sel s h = (s', h')
  | Ready s' h' cmpPair =>
      ∃ p, compareList s' = compareList s ++ [p] ∧ cmpPair = length (compareList s) ∧
           ((runCompare settings sel p h').1.1 = COMPARE_MISMATCH →
              ∃ p', compareList (compare settings sel s h).1 = compareList s ++ [p'] ∧
                    buffId (file0 p') = buffId (file0 p) ∧
                    buffId (file1 p') = buffId (file1 p)) ∧
           ((runCompare settings sel p h').1.1 ≠ COMPARE_MISMATCH →
              compareList (compare settings sel s h).1 = compareList s)
  end.
Proof.
  intros Hnew Hex.
  pose proof (compare_prepare_new settings sel s h Hnew Hex) as Hprep.
  unfold compare.
  destruct (compare_prepare settings sel s h) as [s' h'|s' h' cmpPair].
  - done.
  - destruct Hprep as (p & Hl & -> & Hin & Hnone).
    exists p. split; [done|]. split; [done|].
    apply compare_finish_list; done.
Qed.

End WithLaws.

(** *** Looking a buffer up in the registry *)

Section Registry.

Context {Host : Type} `{Npp Host}.

Lemma findPair_first test (l : CompareList_t) :
  match findPair test l with
  | Some i => (∃ p, l !! i = Some p ∧ test p = true) ∧
              (∀ j q, (j < i)%nat → l !! j = Some q → test q = false)
  | None => ∀ q, q ∈ l → test q = false
  end.
Proof.
  induction l as [|p l IH]; simpl.
  - by intros q ?%elem_of_nil.
  - destruct (test p) eqn:Hp.
    + split; [by exists p|]. intros j q Hj. lia.
    + destruct (findPair test l) as [i|]; simpl.
      * destruct IH as [IH1 IH2]. split; [exact IH1|].
        intros [|j] q Hj Hq; simpl in Hq; [by injection Hq as <-|].
        apply (IH2 j q); [lia|done].
      * intros q [->|Hq]%elem_of_cons; [done|by apply IH].
Qed.

Lemma findPair_ext test test' (l : CompareList_t) :
  (∀ q, q ∈ l → test q = test' q) → findPair test l = findPair test' l.
Proof.
  induction l as [|p l IH]; intros Hext; simpl; [done|].
  rewrite <- (Hext p) by apply list_elem_of_here.
  rewrite IH; [done|]. intros q Hq. apply Hext. by apply list_elem_of_further.
Qed.

Lemma findPair_delete_none test (l : CompareList_t) i :
  findPair test l = Some i →
  (∀ j q, l !! j = Some q → test q = true → j = i) →
  findPair test (delete i l) = None.
Proof.
  revert i. induction l as [|p l IH]; intros i; simpl; [done|].
  destruct (test p) eqn:Hp.
  - intros [= <-] Huniq. simpl.
    pose proof (findPair_first test l) as Hf.
    destruct (findPair test l) as [k|]; [|done].
    destruct Hf as [(q & Hq & Htq) _]. specialize (Huniq (S k) q Hq Htq). lia.
  - destruct (findPair test l) as [k|] eqn:Hk; simpl; [|done].
    intros [= <-] Huniq. simpl. rewrite Hp.
    rewrite (IH k eq_refl); [done|].
    intros j q Hq Htq. specialize (Huniq (S j) q Hq Htq). lia.
Qed.

(** X6: [getCompare] and [getCompareBySciDoc] return the first pair of
    the registry that holds the buffer, respectively the document, in one
    of its two files, and the end of the registry exactly when no pair
    holds it. *)
Theorem getCompare_first_holder (buff doc : Z) (l : CompareList_t) :
  match getCompare buff l with
  | Some i => (∃ p, l !! i = Some p ∧
                    (buffId (file0 p) = buff ∨ buffId (file1 p) = buff)) ∧
              (∀ j q, (j < i)%nat → l !! j = Some q →
                      buffId (file0 q) ≠ buff ∧ buffId (file1 q) ≠ buff)
  | None => ∀ q, q ∈ l → buffId (file0 q) ≠ buff ∧ buffId (file1 q) ≠ buff
  end ∧
  match getCompareBySciDoc doc l with
  | Some i => (∃ p, l !! i = Some p ∧
                    (sciDoc (file0 p) = doc ∨ sciDoc (file1 p) = doc)) ∧
              (∀ j q, (j < i)%nat → l !! j = Some q →
                      sciDoc (file0 q) ≠ doc ∧ sciDoc (file1 q) ≠ doc)
  | None => ∀ q, q ∈ l → sciDoc (file0 q) ≠ doc ∧ sciDoc (file1 q) ≠ doc
  end.
Proof.
  assert (Hyes : ∀ a b c, (a =? c) || (b =? c) = true → a = c ∨ b = c).
  { intros a b c [E|E]%orb_true_iff; apply Z.eqb_eq in E; tauto. }
  assert (Hno : ∀ a b c, (a =? c) || (b =? c) = false → a ≠ c ∧ b ≠ c).
  { intros a b c [E1 E2]%orb_false_iff. apply Z.eqb_neq in E1, E2. done. }
  split.
  - unfold getCompare. pose proof (findPair_first (hasBuff buff) l) as Hf.
    destruct (findPair (hasBuff buff) l) as [i|].
    + destruct Hf as [(p & Hp & Htp) Hbefore]. split.
      * exists p. split; [done|]. by apply Hyes.
      * intros j q Hj Hq. apply Hno. by apply (Hbefore j q).
    + intros q Hq. apply Hno. by apply Hf.
  - unfold getCompareBySciDoc. pose proof (findPair_first (hasSciDoc doc) l) as Hf.
    destruct (findPair (hasSciDoc doc) l) as [i|].
    + destruct Hf as [(p & Hp & Htp) Hbefore]. split.
      * exists p. split; [done|]. by apply Hyes.
      * intros j q Hj Hq. apply Hno. by apply (Hbefore j q).
    + intros q Hq. apply Hno. by apply Hf.
Qed.

(** X7: [clearComparePair] on a buffer that no pair holds changes
    nothing; otherwise it takes the first pair that holds the buffer out
    of the registry and keeps the other pairs, in their order; when no
    other pair holds the buffer, the buffer is compared no more. *)
Theorem clearComparePair_forgets (buff : Z) (s : Session) (h : Host) :
  match getCompare buff (compareList s) with
  | None => clearComparePair buff s h = (s, h)
  | Some i =>
      compareList (clearComparePair buff s h).1 = delete i (compareList s) ∧
      newCompare (clearComparePair buff s h).1 = newCompare s ∧
      ((∀ j q, compareList s !! j = Some q → hasBuff buff q = true → j = i) →
       getCompare buff (compareList (clearComparePair buff s h).1) = None)
  end.
Proof.
  unfold clearComparePair.
  destruct (getCompare buff (compareList s)) as [i|] eqn:Hi; [|done].
  pose proof (findPair_bound _ _ _ Hi) as Hlt.
  destruct (lookup_lt_is_Some_2 (compareList s) i Hlt) as [p Hp]. rewrite Hp.
  destruct (restoreFiles buff p h) as [p' h1]. simpl.
  split; [done|]. split; [done|].
  intros Huniq. by apply findPair_delete_none.
Qed.

(** *** The roles and the views of a new pair *)

Lemma initFromCurrent_isNew b f h : isNew (initFromCurrent b f h).1 = b.
Proof. done. Qed.

Lemma initNewCompare_roles settings s h p :
  (initNewCompare settings s h).1.1 = true →
  newCompare (initNewCompare settings s h).1.2 = Some p →
  isNew (file1 p) = negb (isNew (file0 p)).
Proof.
  assert (Hsecond : ∀ (s1 : Session) (h1 : Host) p0,
    newCompare s1 = Some p0 →
    newCompare
      (let '(f1, h2) := initFromCurrent (negb (isNew (file0 p0))) (file1 p0) h1 in
       (true, mkSession (compareList s1) (Some (setFiles (file0 p0) f1 p0))
                        (storedLocation s1) (goToFirst s1), h2)).1.2 = Some p →
    isNew (file1 p) = negb (isNew (file0 p))).
  { intros s1 h1 p0 Hp0.
    pose proof (initFromCurrent_isNew (negb (isNew (file0 p0))) (file1 p0) h1) as Hn.
    destruct (initFromCurrent _ _ _) as [f1 h2]. simpl in *. by intros [= <-]. }
  unfold initNewCompare.
  set (firstIsSet := match newCompare s with Some _ => _ | None => _ end).
  destruct (negb firstIsSet).
  - destruct (setFirst _ false s h) as [[set s'] h'].
    destruct (negb set); simpl; [done|].
    destruct (isSingleView h).
    + destruct (_ <? 2); simpl; [done|].
      destruct (newCompare s') as [p0|] eqn:Hp0; [|done]. intros _. by apply Hsecond.
    + destruct (isFileCompared _ _ _); simpl; [done|].
      destruct (newCompare s') as [p0|] eqn:Hp0; [|done]. intros _. by apply Hsecond.
  - simpl. destruct (newCompare s) as [p0|] eqn:Hp0; [|done]. intros _. by apply Hsecond.
Qed.

(** What [updateFromCurrent] leaves of a file: all but its document. *)
Definition sameFile (f g : ComparedFile) : Prop :=
  isTemp f = isTemp g ∧ isNew f = isNew g ∧ originalViewId f = originalViewId g ∧
  originalPos f = originalPos g ∧ compareViewId f = compareViewId g ∧ buffId f = buffId g.

Lemma updateFromCurrent_same f h : sameFile (updateFromCurrent f h).1 f.
Proof. done. Qed.

Lemma positionFiles_files settings p h :
  sameFile (getOldFile (positionFiles settings p h).1) (updateView settings (getOldFile p)) ∧
  sameFile (getNewFile (positionFiles settings p h).1) (updateView settings (getNewFile p)).
Proof.
  unfold positionFiles.
  set (h0 := ui SyncZoom h).
  set (oldFile := updateView settings (getOldFile p)).
  set (newFile := updateView settings (getNewFile p)).
  destruct (negb (view_eqb (viewIdFromBuffId (buffId oldFile) h0) (compareViewId oldFile)));
    [set (x := updateFromCurrent oldFile _);
     assert (sameFile x.1 oldFile) by done; destruct x as [oldFile1 h1]
    |set (oldFile1 := oldFile); set (h1 := h0);
     assert (sameFile oldFile1 oldFile) by done];
    (destruct (negb (view_eqb (viewIdFromBuffId (buffId newFile) h1) (compareViewId newFile)));
     [set (y := updateFromCurrent newFile _);
      assert (sameFile y.1 newFile) by done; destruct y as [newFile1 h2]
     |set (newFile1 := newFile); set (h2 := h1);
      assert (sameFile newFile1 newFile) by done]);
    simpl in *; unfold sameFile, setOldNew, oldFile, newFile, getOldFile, getNewFile in *;
    destruct (isNew (file0 p)) eqn:E0; simpl in *;
    repeat match goal with H : _ ∧ _ |- _ => destruct H end;
    repeat match goal with H : isNew ?f = _ |- context [isNew ?f] => rewrite H end;
    simpl; rewrite ?E0; rewrite ?E0 in *; done.
Qed.

(** X8: of the two files [initNewCompare] pairs, one is the old and one
    the new file, and [positionFiles] gives the old file
    [Settings.OldFileViewId] as its compare view and the new file the
    other view, whatever views the two come from; both keep their
    buffers. *)
Theorem new_pair_roles settings s h h' :
  (initNewCompare settings s h).1.1 = true →
  ∃ p, newCompare (initNewCompare settings s h).1.2 = Some p ∧
       isNew (getOldFile p) = false ∧ isNew (getNewFile p) = true ∧
       let p' := (positionFiles settings p h').1 in
       isNew (getOldFile p') = false ∧ isNew (getNewFile p') = true ∧
       compareViewId (getOldFile p') = OldFileViewId settings ∧
       compareViewId (getNewFile p') = otherView (OldFileViewId settings) ∧
       buffId (getOldFile p') = buffId (getOldFile p) ∧
       buffId (getNewFile p') = buffId (getNewFile p).
Proof.
  intros Hok. destruct (initNewCompare_ok settings s h Hok) as [p Hp].
  exists p. split; [exact Hp|].
  pose proof (initNewCompare_roles settings s h p Hok Hp) as Hroles.
  assert (Hold : isNew (getOldFile p) = false).
  { unfold getOldFile. destruct (isNew (file0 p)) eqn:E; [by rewrite Hroles|done]. }
  assert (Hnew : isNew (getNewFile p) = true).
  { unfold getNewFile. destruct (isNew (file0 p)) eqn:E; [done|by rewrite Hroles]. }
  split; [exact Hold|]. split; [exact Hnew|].
  destruct (positionFiles_files settings p h')
    as [(_ & O2 & _ & _ & O5 & O6) (_ & N2 & _ & _ & N5 & N6)].
  cbv zeta. rewrite O2, N2, O5, N5, O6, N6. simpl. rewrite Hold, Hnew. done.
Qed.

End Registry.

(** *** Comparing a pair again *)

Section Again.

Context {Host : Type} `{Npp Host}.

Hypothesis activate_current : ∀ b h, getCurrentBuffId (activateBufferID b h) = b.
Hypothesis ui_current : ∀ c h, getCurrentBuffId (ui c h) = getCurrentBuffId h.
Hypothesis compareViews_current :
  ∀ a b settings h, getCurrentBuffId (compareViews a b settings h).2 = getCurrentBuffId h.
Hypothesis clearWindow_current :
  ∀ view h, getCurrentBuffId (clearWindow view h) = getCurrentBuffId h.

Lemma findPair_insert test (l : CompareList_t) i p p' :
  l !! i = Some p → test p' = test p → findPair test (<[i := p']> l) = findPair test l.
Proof.
  revert i. induction l as [|q l IH]; intros [|i] Hp Ht; simpl in *; try done.
  - injection Hp as ->. by rewrite Ht.
  - by rewrite (IH i Hp Ht).
Qed.

Lemma delete_insert {A} (l : list A) i x : delete i (<[i := x]> l) = delete i l.
Proof. revert i. induction l as [|y l IH]; intros [|i]; simpl; try done. by rewrite IH. Qed.

Lemma clearComparePair_at b s h i :
  getCompare b (compareList s) = Some i →
  compareList (clearComparePair b s h).1 = delete i (compareList s) ∧
  newCompare (clearComparePair b s h).1 = newCompare s.
Proof.
  intros Hi. unfold clearComparePair. rewrite Hi.
  pose proof (findPair_bound _ _ _ Hi) as Hlt.
  destruct (lookup_lt_is_Some_2 (compareList s) i Hlt) as [p Hp]. rewrite Hp.
  by destruct (restoreFiles b p h).
Qed.

Lemma closeComparePair_at s h i p :
  compareList s !! i = Some p →
  compareList (closeComparePair i s h).1 = delete i (compareList s) ∧
  newCompare (closeComparePair i s h).1 = newCompare s.
Proof. intros Hp. unfold closeComparePair. by rewrite Hp. Qed.

Lemma compare_finish_at settings sel doubleView s h i p :
  compareList s !! i = Some p →
  getCompare (getCurrentBuffId h) (compareList s) = Some i →
  let r := compare_finish settings sel doubleView s h i in
  newCompare r.1 = newCompare s ∧
  ((runCompare settings sel p h).1.1 = COMPARE_MISMATCH →
     ∃ p', compareList r.1 = <[i := p']> (compareList s) ∧
           buffId (file0 p') = buffId (file0 p) ∧ buffId (file1 p') = buffId (file1 p)) ∧
  ((runCompare settings sel p h).1.1 ≠ COMPARE_MISMATCH →
     compareList r.1 = delete i (compareList s)).
Proof.
  intros Hp Hi. unfold compare_finish. rewrite Hp.
  pose proof (runCompare_buffIds settings sel p h) as [Hb0 Hb1].
  pose proof (runCompare_current activate_current ui_current compareViews_current
                settings sel p h) as Hcur.
  destruct (runCompare settings sel p h) as [[cmpResult p1] h1]. simpl in *.
  set (s1 := setPair i p1 s).
  assert (Hl1 : compareList s1 = <[i := p1]> (compareList s)) by done.
  assert (Hi1 : getCompare (getCurrentBuffId h1) (compareList s1) = Some i).
  { rewrite Hl1, Hcur. unfold getCompare.
    rewrite (findPair_insert _ _ i p p1 Hp); [done|]. by apply hasBuff_same. }
  assert (Hp1 : compareList s1 !! i = Some p1).
  { rewrite Hl1. apply list_lookup_insert_eq. apply lookup_lt_is_Some. by eexists. }
  destruct cmpResult.
  - destruct (clearComparePair_at _ s1 h1 i Hi1) as [Hc Hn].
    destruct (clearComparePair _ s1 h1) as [s2 h2]. simpl in *.
    split; [done|]. split; [done|]. intros _. rewrite Hc. apply delete_insert.
  - destruct (if isTempFile _ then false else _).
    + destruct (closeComparePair_at s1 h1 i p1 Hp1) as [Hc Hn].
      destruct (closeComparePair i s1 h1) as [s2 h2]. simpl in *.
      split; [done|]. split; [done|]. intros _. rewrite Hc. apply delete_insert.
    + destruct (clearComparePair_at _ s1 h1 i Hi1) as [Hc Hn].
      destruct (clearComparePair _ s1 h1) as [s2 h2]. simpl in *.
      split; [done|]. split; [done|]. intros _. rewrite Hc. apply delete_insert.
  - set (p2 := mkComparedPair _ _ _ _ _ _ _ _ _).
    assert (Hl2 : compareList (setPair i p2 s1) = <[i := p2]> (compareList s)).
    { unfold setPair at 1. simpl. apply list_insert_insert_eq. }
    split; [by destruct (storedLocation _)|]. split; [|done]. intros _.
    exists p2. split; [|done]. by destruct (storedLocation _).
Qed.

(** X9: comparing again from a buffer that a pair [i] of the registry
    holds never registers a pair and never touches another pair: [compare]
    drops a pending first file and then either gives up with the registry
    as it was (a compare of selections, none of them valid), or keeps
    pair [i] in its place with the same two buffers (the files differ),
    or takes pair [i] out of the registry (the files match, or the engine
    fails). *)
Theorem recompare_keeps_registry settings sel s h i :
  getCompare (getCurrentBuffId h) (compareList s) = Some i →
  let r := compare settings sel s h in
  newCompare r.1 = None ∧
  ((sel = true ∧ compareList r.1 = compareList s) ∨
   (∃ p p', compareList s !! i = Some p ∧ compareList r.1 = <[i := p']> (compareList s) ∧
            buffId (file0 p') = buffId (file0 p) ∧ buffId (file1 p') = buffId (file1 p)) ∨
   compareList r.1 = delete i (compareList s)).
Proof.
  intros Hi. unfold compare, compare_prepare.
  change (compareList (setGoToFirst false (setStoredLocation None s))) with (compareList s).
  rewrite Hi. cbn [resetNewCompare].
  set (s1 := mkSession _ None _ _).
  set (h1 := match newCompare _ with Some _ => _ | None => _ end).
  assert (Hcur1 : getCurrentBuffId h1 = getCurrentBuffId h).
  { unfold h1. destruct (newCompare _); [apply ui_current|done]. }
  pose proof (findPair_bound _ _ _ Hi) as Hlt.
  destruct (lookup_lt_is_Some_2 (compareList s) i Hlt) as [p Hp].
  assert (Hvalid : ∀ valid : bool,
    (if valid then sel = sel else sel = true) →
    let r := match (if negb valid then Aborted s1 h1
                    else match compareList s1 !! i with
                         | None => Aborted s1 h1
                         | Some p =>
                             let s2 := if isFullCompare p && negb (GotoFirstDiff settings)
                                          && negb sel
                                       then setStoredLocation (Some (getCurrentViewId h1)) s1
                                       else s1 in
                             let '(oldFile, h3) := clearFile (getOldFile p) h1 in
                             let '(newFile, h4) := clearFile (getNewFile p) h3 in
                             Ready (setPair i (setOldNew oldFile newFile p) s2) h4 i
                         end) with
             | Aborted s' h' => (s', h')
             | Ready s' h' cmpPair =>
                 compare_finish settings sel (negb (isSingleView h)) s' h' cmpPair
             end in
    newCompare r.1 = None ∧
    ((sel = true ∧ compareList r.1 = compareList s) ∨
     (∃ p p', compareList s !! i = Some p ∧ compareList r.1 = <[i := p']> (compareList s) ∧
              buffId (file0 p') = buffId (file0 p) ∧ buffId (file1 p') = buffId (file1 p)) ∨
     compareList r.1 = delete i (compareList s))).
  { intros [|] Hsel; cbn [negb]; [|split; [done|by left]].
    change (compareList s1) with (compareList s). rewrite Hp.
    set (s2 := if _ && _ && _ then _ else s1).
    assert (Hs2 : compareList s2 = compareList s ∧ newCompare s2 = None).
    { unfold s2. by destruct (_ && _ && _). }
    destruct Hs2 as [Hl2 Hn2].
    unfold clearFile. cbv beta iota zeta.
    set (p0 := setOldNew _ _ p).
    set (h4 := clearWindow _ (clearWindow _ h1)).
    assert (Hb : buffId (file0 p0) = buffId (file0 p) ∧ buffId (file1 p0) = buffId (file1 p)).
    { unfold p0, setOldNew, getOldFile, getNewFile. by destruct (isNew (file0 p)). }
    destruct Hb as [Hb0 Hb1].
    assert (Hcur4 : getCurrentBuffId h4 = getCurrentBuffId h).
    { unfold h4. by rewrite !clearWindow_current. }
    assert (Hl0 : compareList (setPair i p0 s2) = <[i := p0]> (compareList s)).
    { unfold setPair. simpl. by rewrite Hl2. }
    assert (Hp0 : compareList (setPair i p0 s2) !! i = Some p0).
    { rewrite Hl0. by apply list_lookup_insert_eq. }
    assert (Hi0 : getCompare (getCurrentBuffId h4) (compareList (setPair i p0 s2)) = Some i).
    { rewrite Hl0, Hcur4. unfold getCompare.
      rewrite (findPair_insert _ _ i p p0 Hp); [done|]. by apply hasBuff_same. }
    destruct (compare_finish_at settings sel (negb (isSingleView h)) _ h4 i p0 Hp0 Hi0)
      as (Hn & Hmis & Hrest).
    split; [by rewrite Hn|]. right.
    assert (Hdec : (runCompare settings sel p0 h4).1.1 = COMPARE_MISMATCH
                   ∨ (runCompare settings sel p0 h4).1.1 ≠ COMPARE_MISMATCH).
    { destruct ((runCompare settings sel p0 h4).1.1); [by right|by right|by left]. }
    destruct Hdec as [E|E].
    - left. destruct (Hmis E) as (p' & Hl' & Hb0' & Hb1').
      exists p, p'. split; [done|]. split; [|split; congruence].
      rewrite Hl', Hl0. apply list_insert_insert_eq.
    - right. rewrite (Hrest E), Hl0. apply delete_insert. }
  destruct sel.
  - unfold areSelectionsValid. rewrite Z.eqb_refl. cbn [view_eqb fst snd].
    set (valid := if negb _ then _ else false).
    apply (Hvalid valid). by destruct valid.
  - apply (Hvalid true). done.
Qed.

End Again.

(** *** A desk of tabs for concrete runs

    A host with the tab bars of the two views, the buffer each view
    shows and the view that has the focus; a buffer sent to the other
    view goes to the end of that view's tab bar. The document of a buffer
    is numbered like the buffer; the diff engine answers [diffResult]. *)

Record Desk : Type := mkDesk {
  tabs       : ViewId → list Z;
  shown      : ViewId → Z;
  focus      : ViewId;
  diffResult : CompareResult;
  yes        : Question → bool;
  selection  : ViewId → Z * Z;
  encoding   : Z → Z
}.

Definition inTabs (b : Z) (l : list Z) : bool := existsb (Z.eqb b) l.

Fixpoint indexOf (b : Z) (l : list Z) : Z :=
  match l with
  | [] => -1
  | x :: l' => if x =? b then 0
               else let i := indexOf b l' in if i <? 0 then -1 else i + 1
  end.

Fixpoint removeTab (b : Z) (l : list Z) : list Z :=
  match l with
  | [] => []
  | x :: l' => if x =? b then removeTab b l' else x :: removeTab b l'
  end.

(** The tab of [b] changes place with the tab before it. *)
Fixpoint moveBack (b : Z) (l : list Z) : list Z :=
  match l with
  | x :: ((y :: l') as t) => if y =? b then b :: x :: l' else x :: moveBack b t
  | _ => l
  end.

Definition deskViewOf (b : Z) (d : Desk) : ViewId :=
  if inTabs b (tabs d MAIN_VIEW) then MAIN_VIEW else SUB_VIEW.

Definition setTabs (view : ViewId) (l : list Z) (d : Desk) : Desk :=
  mkDesk (λ v, if view_eqb v view then l else tabs d v) (shown d) (focus d)
         (diffResult d) (yes d) (selection d) (encoding d).

Definition setShown (view : ViewId) (b : Z) (d : Desk) : Desk :=
  mkDesk (tabs d) (λ v, if view_eqb v view then b else shown d v) (focus d)
         (diffResult d) (yes d) (selection d) (encoding d).

Definition setFocus (view : ViewId) (d : Desk) : Desk :=
  mkDesk (tabs d) (shown d) view (diffResult d) (yes d) (selection d) (encoding d).

Definition deskActivate (b : Z) (d : Desk) : Desk :=
  setFocus (deskViewOf b d) (setShown (deskViewOf b d) b d).

Definition deskMenu (c : MenuCmd) (d : Desk) : Desk :=
  let v := focus d in
  let b := shown d v in
  match c with
  | IDM_FILE_CLOSE =>
      let l := removeTab b (tabs d v) in
      setShown v (hd 0 l) (setTabs v l d)
  | IDM_VIEW_GOTO_ANOTHER_VIEW =>
      let l := removeTab b (tabs d v) in
      setFocus (otherView v)
        (setShown (otherView v) b
           (setShown v (hd 0 l)
              (setTabs (otherView v) (tabs d (otherView v) ++ [b]) (setTabs v l d))))
  | IDM_VIEW_SWITCHTO_OTHER_VIEW => setFocus (otherView v) d
  | IDM_VIEW_TAB_PREV =>
      setShown v (nth (Z.to_nat (indexOf b (tabs d v) - 1)) (tabs d v) b) d
  | IDM_VIEW_TAB_NEXT =>
      setShown v (nth (Z.to_nat (indexOf b (tabs d v) + 1)) (tabs d v) b) d
  | IDM_VIEW_TAB_MOVEBACKWARD => setTabs v (moveBack b (tabs d v)) d
  end.

#[local] Instance deskNpp : Npp Desk := {
  getCurrentBuffId d := shown d (focus d);
  getCurrentViewId d := focus d;
  viewIdFromBuffId b d := deskViewOf b d;
  posFromBuffId b d := indexOf b (tabs d (deskViewOf b d));
  getDocId view d := shown d view;
  bufferOpen b d := inTabs b (tabs d MAIN_VIEW) || inTabs b (tabs d SUB_VIEW);
  isSingleView d := match tabs d SUB_VIEW with [] => true | _ => false end;
  getNumberOfFiles view d := Z.of_nat (length (tabs d view));
  getSelectionLines view d := selection d view;
  getEncoding b d := encoding d b;
  answerYes q d := yes d q;
  activateBufferID b d := deskActivate b d;
  menuCommand c d := deskMenu c d;
  clearWindow view d := d;
  setSavePoint view d := d;
  deleteFile b d := d;
  ui c d := d;
  compareViews mainSection subSection settings d := (diffResult d, [], d)
}.

(** *** Tabs *)

Lemma inTabs_elem b l : inTabs b l = true ↔ b ∈ l.
Proof.
  unfold inTabs. induction l as [|x l IH]; simpl.
  - split; [done|by intros ?%elem_of_nil].
  - rewrite elem_of_cons, orb_true_iff, IH, Z.eqb_eq. done.
Qed.

Lemma inTabs_not_elem b l : inTabs b l = false ↔ b ∉ l.
Proof. rewrite <- inTabs_elem. by destruct (inTabs b l). Qed.

Lemma removeTab_gone b l : b ∉ removeTab b l.
Proof.
  induction l as [|x l IH]; simpl; [by intros ?%elem_of_nil|].
  destruct (x =? b) eqn:E; [done|].
  apply Z.eqb_neq in E. intros [->|Hin]%elem_of_cons; done.
Qed.

Lemma removeTab_other a b l : a ≠ b → a ∈ removeTab b l ↔ a ∈ l.
Proof.
  intros Hab. induction l as [|x l IH]; simpl; [done|].
  destruct (x =? b) eqn:E.
  - apply Z.eqb_eq in E. subst x. rewrite elem_of_cons, IH.
    split; [by right|]. by intros [?|?].
  - rewrite !elem_of_cons, IH. done.
Qed.

Lemma indexOf_notin b l : b ∉ l → indexOf b l = -1.
Proof.
  induction l as [|x l IH]; simpl; [done|].
  intros Hn. apply not_elem_of_cons in Hn as [Hne Hn].
  destruct (x =? b) eqn:E; [apply Z.eqb_eq in E; done|].
  by rewrite IH.
Qed.

Lemma indexOf_range b l : b ∈ l → 0 <= indexOf b l < Z.of_nat (length l).
Proof.
  induction l as [|x l IH]; simpl; [by intros ?%elem_of_nil|].
  destruct (x =? b) eqn:E; [lia|].
  apply Z.eqb_neq in E. intros [->|Hin]%elem_of_cons; [done|].
  specialize (IH Hin). destruct (indexOf b l <? 0) eqn:E'; lia.
Qed.

(** [b] put at place [k] of the tab bar [l]. *)
Definition placeAt (k : nat) (b : Z) (l : list Z) : list Z := take k l ++ b :: drop k l.

Lemma indexOf_placeAt_self b l : ∀ k, b ∉ l → (k ≤ length l)%nat →
  indexOf b (placeAt k b l) = Z.of_nat k.
Proof.
  unfold placeAt. induction l as [|x l IH]; intros k Hn Hk.
  - simpl in Hk. assert (k = O) by lia. subst k. simpl. by rewrite Z.eqb_refl.
  - apply not_elem_of_cons in Hn as [Hne Hn]. destruct k as [|k]; simpl.
    + by rewrite Z.eqb_refl.
    + destruct (x =? b) eqn:E; [apply Z.eqb_eq in E; done|].
      rewrite IH by (done || simpl in Hk; lia).
      destruct (Z.of_nat k <? 0) eqn:E'; lia.
Qed.

Lemma indexOf_placeAt_other a b l : ∀ k, a ≠ b → a ∈ l → (k ≤ length l)%nat →
  indexOf a (placeAt k b l)
  = if indexOf a l <? Z.of_nat k then indexOf a l else indexOf a l + 1.
Proof.
  unfold placeAt. induction l as [|x l IH]; intros k Hab Hin Hk.
  - by apply elem_of_nil in Hin.
  - destruct k as [|k].
    + pose proof (indexOf_range a (x :: l) Hin) as Hr.
      remember (x :: l) as l' eqn:El'. simpl. rewrite drop_0.
      destruct (b =? a) eqn:E; [apply Z.eqb_eq in E; by subst|].
      change (Z.of_nat 0) with 0.
      destruct (Z.ltb_spec (indexOf a l') 0); [lia|done].
    + simpl. destruct (x =? a) eqn:E; [done|].
      apply Z.eqb_neq in E. apply elem_of_cons in Hin as [->|Hin]; [done|].
      rewrite IH by (done || simpl in Hk; lia).
      pose proof (indexOf_range a l Hin) as Hr.
      destruct (Z.ltb_spec (indexOf a l) (Z.of_nat k));
        destruct (Z.ltb_spec (indexOf a l) 0); try lia.
      * destruct (Z.ltb_spec (indexOf a l + 1) (Z.of_nat (S k))); lia.
      * destruct (Z.ltb_spec (indexOf a l + 1) 0); [lia|].
        destruct (Z.ltb_spec (indexOf a l + 1) (Z.of_nat (S k))); lia.
Qed.

Lemma elem_of_placeAt a b l k : a ∈ placeAt k b l ↔ a = b ∨ a ∈ l.
Proof.
  unfold placeAt. rewrite elem_of_app, elem_of_cons.
  rewrite <- (take_drop k l) at 3. rewrite elem_of_app. tauto.
Qed.

Lemma moveBack_swap b x pre post :
  b ∉ pre → x ≠ b → moveBack b (pre ++ x :: b :: post) = pre ++ b :: x :: post.
Proof.
  induction pre as [|y pre IH]; intros Hn Hx; simpl.
  - by rewrite Z.eqb_refl.
  - apply not_elem_of_cons in Hn as [Hne Hn].
    destruct pre as [|z pre']; simpl.
    + destruct (x =? b) eqn:E; [apply Z.eqb_eq in E; done|].
      by rewrite Z.eqb_refl.
    + destruct (z =? b) eqn:E.
      * apply Z.eqb_eq in E. subst z. exfalso. apply Hn. apply elem_of_cons. by left.
      * f_equal. apply (IH Hn Hx).
Qed.

Lemma moveBack_iter b l : ∀ j, b ∉ l → (j ≤ length l)%nat →
  Nat.iter j (moveBack b) (l ++ [b]) = placeAt (length l - j) b l.
Proof.
  unfold placeAt. induction j as [|j IH]; intros Hn Hj.
  - simpl. by rewrite Nat.sub_0_r, firstn_all, drop_all.
  - simpl. rewrite IH by (done || lia).
    destruct (lookup_lt_is_Some_2 l (length l - S j)) as [x Hx]; [lia|].
    replace (length l - j)%nat with (S (length l - S j)) by lia.
    rewrite (take_S_r _ _ _ Hx), (drop_S _ _ _ Hx), <- app_assoc. simpl.
    apply moveBack_swap.
    + intros Hin. apply Hn. apply elem_of_take in Hin as (i & Hi & _).
      by eapply list_elem_of_lookup_2.
    + intros ->. apply Hn. by eapply list_elem_of_lookup_2.
Qed.

(** *** Restoring a file on the desk *)

Lemma placeAt_end b l : placeAt (length l) b l = l ++ [b].
Proof. unfold placeAt. by rewrite firstn_all, drop_all. Qed.

Lemma otherView_neq v : view_eqb (otherView v) v = false.
Proof. by destruct v. Qed.

Lemma otherView_neq' v : view_eqb v (otherView v) = false.
Proof. by destruct v. Qed.

Lemma deskViewOf_tabs b d d' :
  tabs d' MAIN_VIEW = tabs d MAIN_VIEW → deskViewOf b d' = deskViewOf b d.
Proof. unfold deskViewOf. by intros ->. Qed.

(** [restore] on the desk, for a file that is not a temp file. *)
Definition deskRestore (f : ComparedFile) (d : Desk) : Desk :=
  let d2 := deskActivate (buffId f) d in
  if negb (view_eqb (deskViewOf (buffId f) d2) (originalViewId f)) then
    let d3 := deskMenu IDM_VIEW_GOTO_ANOTHER_VIEW d2 in
    if negb (inTabs (buffId f) (tabs d3 MAIN_VIEW) || inTabs (buffId f) (tabs d3 SUB_VIEW))
    then d3
    else
      let currentPos := indexOf (buffId f) (tabs d3 (deskViewOf (buffId f) d3)) in
      if originalPos f >=? currentPos then d3
      else Nat.iter (Z.to_nat (Int.sub currentPos (originalPos f)))
                    (deskMenu IDM_VIEW_TAB_MOVEBACKWARD) d3
  else d2.

Lemma restore_desk (f : ComparedFile) (d : Desk) :
  isTemp f = NO_TEMP → restore f d = deskRestore f d.
Proof. intros Ht. unfold restore. by rewrite Ht. Qed.

(** A file found in its original view stays where it is. *)
Lemma restore_home (f : ComparedFile) (d : Desk) :
  isTemp f = NO_TEMP → deskViewOf (buffId f) d = originalViewId f →
  restore f d = deskActivate (buffId f) d.
Proof.
  intros Ht Hv. rewrite restore_desk by done. unfold deskRestore.
  replace (deskViewOf (buffId f) (deskActivate (buffId f) d)) with (originalViewId f)
    by (rewrite <- Hv; symmetry; by apply deskViewOf_tabs).
  by rewrite view_eqb_refl.
Qed.

Lemma moveBackward_iter (b : Z) (view : ViewId) : ∀ (k : nat) (d : Desk),
  focus d = view → shown d view = b →
  tabs (Nat.iter k (deskMenu IDM_VIEW_TAB_MOVEBACKWARD) d) view
  = Nat.iter k (moveBack b) (tabs d view) ∧
  tabs (Nat.iter k (deskMenu IDM_VIEW_TAB_MOVEBACKWARD) d) (otherView view)
  = tabs d (otherView view) ∧
  focus (Nat.iter k (deskMenu IDM_VIEW_TAB_MOVEBACKWARD) d) = view ∧
  shown (Nat.iter k (deskMenu IDM_VIEW_TAB_MOVEBACKWARD) d) view = b.
Proof.
  induction k as [|k IH]; intros d Hf Hs; [done|].
  destruct (IH d Hf Hs) as (G1 & G2 & G3 & G4).
  simpl. set (d' := Nat.iter k _ d) in *.
  rewrite G3, G4, view_eqb_refl, otherView_neq, G1, G2. done.
Qed.

Lemma gotoAnotherView_tabs (b : Z) (d : Desk) :
  let V := otherView (deskViewOf b d) in
  let d3 := deskMenu IDM_VIEW_GOTO_ANOTHER_VIEW (deskActivate b d) in
  tabs d3 V = tabs d V ++ [b] ∧
  tabs d3 (otherView V) = removeTab b (tabs d (otherView V)) ∧
  focus d3 = V ∧ shown d3 V = b.
Proof. unfold deskMenu, deskActivate. simpl. destruct (deskViewOf b d); simpl; done. Qed.

(** A file found in the other view goes to the end of the tab bar of its
    original view and, from there, back to its recorded position when
    that lies before the end. *)
Lemma restore_away (f : ComparedFile) (d : Desk) :
  isTemp f = NO_TEMP →
  deskViewOf (buffId f) d = otherView (originalViewId f) →
  buffId f ∉ tabs d (originalViewId f) →
  0 <= originalPos f →
  Z.of_nat (length (tabs d (originalViewId f))) <= Int.int_max →
  tabs (restore f d) (originalViewId f)
  = placeAt (Z.to_nat (Z.min (originalPos f)
                             (Z.of_nat (length (tabs d (originalViewId f))))))
            (buffId f) (tabs d (originalViewId f)) ∧
  tabs (restore f d) (otherView (originalViewId f))
  = removeTab (buffId f) (tabs d (otherView (originalViewId f))).
Proof.
  intros Ht Hv Hn Hpos Hlen. rewrite restore_desk by done. unfold deskRestore.
  set (b := buffId f) in *. set (V := originalViewId f) in *.
  set (l := tabs d V) in *.
  assert (HV : otherView (deskViewOf b d) = V) by (rewrite Hv; by destruct V).
  destruct (gotoAnotherView_tabs b d) as (T1 & T2 & T3 & T4).
  rewrite HV in T1, T2, T3, T4. fold l in T1.
  replace (deskViewOf b (deskActivate b d)) with (otherView V)
    by (rewrite <- Hv; symmetry; by apply deskViewOf_tabs).
  rewrite otherView_neq. cbn [negb].
  set (d3 := deskMenu IDM_VIEW_GOTO_ANOTHER_VIEW (deskActivate b d)) in *.
  assert (Hin : b ∈ l ++ [b]) by (apply elem_of_app; right; apply elem_of_cons; by left).
  assert (Hview : deskViewOf b d3 = V).
  { unfold deskViewOf. destruct V; simpl in *.
    - rewrite T1. by apply inTabs_elem in Hin as ->.
    - rewrite T2. pose proof (removeTab_gone b (tabs d MAIN_VIEW)) as Hg.
      by apply inTabs_not_elem in Hg as ->. }
  assert (Hopen : inTabs b (tabs d3 MAIN_VIEW) || inTabs b (tabs d3 SUB_VIEW) = true).
  { apply inTabs_elem in Hin. destruct V; simpl in *; rewrite T1, Hin; by rewrite ?orb_true_r. }
  rewrite Hopen, Hview, T1. cbn [negb].
  assert (Hidx : indexOf b (l ++ [b]) = Z.of_nat (length l)).
  { rewrite <- placeAt_end. by apply indexOf_placeAt_self. }
  rewrite Hidx.
  destruct (originalPos f >=? Z.of_nat (length l)) eqn:E.
  - rewrite Z.min_r by lia. rewrite Nat2Z.id, placeAt_end. done.
  - assert (Hlt : originalPos f < Z.of_nat (length l)) by lia.
    rewrite Z.min_l by lia.
    destruct (moveBackward_iter b V
                (Z.to_nat (Int.sub (Z.of_nat (length l)) (originalPos f))) d3 T3 T4)
      as (G1 & G2 & _).
    rewrite G1, G2, T1, T2. split; [|done].
    unfold Int.sub. rewrite Int.wrap_small
      by (unfold Int.in_range, Int.int_min, Int.int_max in *; lia).
    rewrite moveBack_iter by (done || lia).
    f_equal. lia.
Qed.

(** *** The two files after [restoreFiles] *)

Lemma restoreFiles_default (p : ComparedPair) (d : Desk) :
  (restoreFiles (-1) p d).2
  = restore (file1 (updateMovedPos p d)) (restore (file0 (updateMovedPos p d)) d).
Proof. done. Qed.

Lemma deskActivate_tabs b d view : tabs (deskActivate b d) view = tabs d view.
Proof. done. Qed.

(** On the desk the moved file lands on the side of the bias file it was
    on before the compare. *)
Lemma restoreFiles_desk_order (p : ComparedPair) (d : Desk) :
  let a := biasFile p d in
  let m := movedFile p d in
  let V := originalViewId a in
  relativePos p ≠ 0 →
  isTemp a = NO_TEMP → isTemp m = NO_TEMP → originalViewId m = V →
  deskViewOf (buffId a) d = V → deskViewOf (buffId m) d = otherView V →
  buffId a ∈ tabs d V → buffId m ∉ tabs d V →
  0 <= originalPos m → originalPos a ≠ originalPos m →
  indexOf (buffId a) (tabs d V) <= originalPos a →
  Z.of_nat (length (tabs d V)) <= Int.int_max →
  let l' := tabs (restoreFiles (-1) p d).2 V in
  buffId a ∈ l' ∧ buffId m ∈ l' ∧
  (indexOf (buffId m) l' < indexOf (buffId a) l' ↔ originalPos m < originalPos a).
Proof.
  intros a m V Hrel Hta Htm HVm Hva Hvm Hain Hmnot Hpm Hne Hnew Hlen l'.
  set (l := tabs d V) in *.
  set (newPos := indexOf (buffId a) l) in *.
  assert (Hab : buffId a ≠ buffId m) by (intros E; rewrite E in Hain; done).
  pose proof (indexOf_range (buffId a) l Hain) as Hr.
  set (pm' := if positionAdjusted p d then posFromBuffId (buffId a) d else originalPos m).
  assert (Hposa : posFromBuffId (buffId a) d = newPos).
  { unfold newPos, l. simpl. by rewrite Hva. }
  set (k := Z.to_nat (Z.min pm' (Z.of_nat (length l)))).
  assert (Hm' : movedFile (updateMovedPos p d) d = setOriginalPos pm' m)
    by apply updateMovedPos_moved.
  destruct (updateMovedPos_bias p d) as [Hb0 Ha'].
  assert (Hpm' : 0 <= pm') by (unfold pm'; destruct (positionAdjusted p d); lia).
  assert (Hl' : l' = placeAt k (buffId m) l).
  { unfold l'. rewrite restoreFiles_default.
    unfold biasFile, movedFile in Hm', Ha'. rewrite Hb0 in Hm', Ha'.
    fold a m in Hm', Ha'. unfold a, m, biasFile, movedFile in *.
    destruct (biasIsFile0 p d) eqn:Eb.
    - rewrite Ha', Hm'.
      rewrite (restore_home (file0 p) d) by done.
      destruct (restore_away (setOriginalPos pm' (file1 p)) (deskActivate (buffId (file0 p)) d))
        as [G1 _]; try done.
      + simpl. rewrite HVm. rewrite <- Hvm. by apply deskViewOf_tabs.
      + simpl. by rewrite HVm.
      + simpl. rewrite HVm. exact Hlen.
      + simpl in G1. rewrite HVm in G1. exact G1.
    - rewrite Ha', Hm'.
      destruct (restore_away (setOriginalPos pm' (file0 p)) d) as [G1 G2]; try done.
      + simpl. by rewrite HVm.
      + simpl. by rewrite HVm.
      + simpl. rewrite HVm. exact Hlen.
      + simpl in G1, G2. rewrite HVm in G1, G2.
        set (d1 := restore (setOriginalPos pm' (file0 p)) d) in *.
        rewrite (restore_home (file1 p) d1); [by rewrite deskActivate_tabs|done|].
        unfold deskViewOf in Hva |- *.
        destruct (originalViewId (file1 p)) eqn:EV; simpl in *.
        * change (tabs d1 MAIN_VIEW) with (tabs d1 V). rewrite G1.
          match goal with
          | |- context [inTabs ?x ?y] =>
              assert (E : inTabs x y = true)
                by (apply inTabs_elem, elem_of_placeAt; by right);
              by rewrite E
          end.
        * rewrite G2.
          destruct (inTabs (buffId (file1 p)) (tabs d MAIN_VIEW)) eqn:E1; [done|].
          apply inTabs_not_elem in E1.
          assert (Hnin : buffId (file1 p) ∉ removeTab (buffId (file0 p)) (tabs d MAIN_VIEW))
            by (rewrite removeTab_other by done; done).
          by apply inTabs_not_elem in Hnin as ->. }
  assert (Hk : (k ≤ length l)%nat) by (unfold k; lia).
  rewrite Hl'. split; [apply elem_of_placeAt; by right|].
  split; [apply elem_of_placeAt; by left|].
  rewrite indexOf_placeAt_self by done.
  rewrite indexOf_placeAt_other by done. fold newPos.
  assert (Hkz : Z.of_nat k = Z.min pm' (Z.of_nat (length l))) by (unfold k; lia).
  rewrite Hkz.
  unfold pm', positionAdjusted. fold a m. rewrite Hposa.
  destruct (Z.eqb_spec (relativePos p) 0); [done|]; simpl;
    destruct (Z.gtb_spec (originalPos a) (originalPos m)); simpl;
    destruct (Z.eqb_spec newPos (originalPos a)); simpl;
    destruct (Z.ltb_spec newPos (originalPos m)); simpl;
    match goal with
    | |- context [?x <? ?y] => destruct (Z.ltb_spec x y)
    end; lia.
Qed.

(** C9 (amended): [restoreFiles] takes the file it finds in its original
    view as the bias file and the other one as the moved file, and before
    restoring it sets the moved file's recorded position to the current
    tab position of the bias file exactly when [relativePos] is non-zero,
    the bias file's recorded position is greater than the moved file's,
    and the bias file's current position differs from its recorded one
    and is less than the moved file's recorded position; otherwise the
    recorded positions stay as they are. On the desk, where a buffer sent
    to another view goes to the end of its tab bar, with [relativePos]
    non-zero and the bias file not further right than recorded, the moved
    file is restored before the bias file exactly when its recorded
    position was the smaller one: the two files keep their relative
    order. *)
Theorem restoreFiles_relative_position :
  (∀ (Host : Type) (N : Npp Host) (p : ComparedPair) (h : Host) (currentBuffId : Z),
      let p' := (restoreFiles currentBuffId p h).1 in
      biasFile p' h = biasFile p h ∧
      movedFile p' h
      = setOriginalPos (if positionAdjusted p h
                        then posFromBuffId (buffId (biasFile p h)) h
                        else originalPos (movedFile p h))
                       (movedFile p h)) ∧
  (∀ (p : ComparedPair) (d : Desk),
      let a := biasFile p d in
      let m := movedFile p d in
      let V := originalViewId a in
      relativePos p ≠ 0 →
      isTemp a = NO_TEMP → isTemp m = NO_TEMP → originalViewId m = V →
      deskViewOf (buffId a) d = V → deskViewOf (buffId m) d = otherView V →
      buffId a ∈ tabs d V → buffId m ∉ tabs d V →
      0 <= originalPos m → originalPos a ≠ originalPos m →
      indexOf (buffId a) (tabs d V) <= originalPos a →
      Z.of_nat (length (tabs d V)) <= Int.int_max →
      let l' := tabs (restoreFiles (-1) p d).2 V in
      buffId a ∈ l' ∧ buffId m ∈ l' ∧
      (indexOf (buffId m) l' < indexOf (buffId a) l' ↔ originalPos m < originalPos a)).
Proof.
  split.
  - intros Host N p h currentBuffId p'. unfold p', restoreFiles. simpl. split.
    + apply updateMovedPos_bias.
    + apply updateMovedPos_moved.
  - intros p d. apply restoreFiles_desk_order.
Qed.

(** The desk of the scenario of the specification: the old file, buffer
    12, was at tab 2 of the main view and the new file, buffer 15, at tab
    5; the new file is compared in the sub view, and buffer 11 at tab 1
    has been closed since. *)
Definition deskAfterClose (result : CompareResult) : Desk :=
  mkDesk (λ v, match v with MAIN_VIEW => [10; 12; 13; 14] | SUB_VIEW => [15] end)
         (λ v, match v with MAIN_VIEW => 12 | SUB_VIEW => 15 end)
         MAIN_VIEW result (λ _, false) (λ _, (0, 0)) (λ _, 0).

Definition oldAt2NewAt5 : ComparedPair :=
  mkComparedPair
    (mkFile NO_TEMP false MAIN_VIEW 2 MAIN_VIEW 12 12 MarkerHistory.empty)
    (mkFile NO_TEMP true MAIN_VIEW 5 SUB_VIEW 15 15 MarkerHistory.empty)
    3 true false false false ((0, 0), (0, 0)) [].

(** C9 as stated fails there: the bias file has gone from tab 2 to tab 1,
    a shift by one, and [restoreFiles] leaves the recorded position of
    the moved file at 5 where the shift would give 4. *)
Lemma restoreFiles_keeps_moved_position :
  let d := deskAfterClose COMPARE_MISMATCH in
  relativePos oldAt2NewAt5 ≠ 0 ∧
  buffId (biasFile oldAt2NewAt5 d) = 12 ∧
  originalPos (biasFile oldAt2NewAt5 d) = 2 ∧
  posFromBuffId 12 d = 1 ∧
  originalPos (movedFile oldAt2NewAt5 d) = 5 ∧
  updateMovedPos_spec oldAt2NewAt5 d = 4 ∧
  originalPos (movedFile (restoreFiles (-1) oldAt2NewAt5 d).1 d) = 5.
Proof. repeat split; done. Qed.

(** The mirror scenario: the old file, buffer 15, was at tab 5 and the
    new file, buffer 12, at tab 2; buffers 10, 11 and 14 have been closed
    since, which leaves the old file at tab 1. *)
Definition deskMirror : Desk :=
  mkDesk (λ v, match v with MAIN_VIEW => [13; 15] | SUB_VIEW => [12] end)
         (λ v, match v with MAIN_VIEW => 15 | SUB_VIEW => 12 end)
         MAIN_VIEW COMPARE_MISMATCH (λ _, false) (λ _, (0, 0)) (λ _, 0).

Definition oldAt5NewAt2 : ComparedPair :=
  mkComparedPair
    (mkFile NO_TEMP false MAIN_VIEW 5 MAIN_VIEW 15 15 MarkerHistory.empty)
    (mkFile NO_TEMP true MAIN_VIEW 2 SUB_VIEW 12 12 MarkerHistory.empty)
    (-3) true false false false ((0, 0), (0, 0)) [].

Lemma restoreFiles_relative_position_witness :
  tabs (restoreFiles (-1) oldAt5NewAt2 deskMirror).2 MAIN_VIEW = [13; 12; 15] ∧
  (indexOf 12 (tabs (restoreFiles (-1) oldAt5NewAt2 deskMirror).2 MAIN_VIEW)
   < indexOf 15 (tabs (restoreFiles (-1) oldAt5NewAt2 deskMirror).2 MAIN_VIEW)
   ↔ 2 < 5).
Proof.
  split; [reflexivity|].
  destruct restoreFiles_relative_position as [_ B].
  apply (B oldAt5NewAt2 deskMirror);
    [vm_compute; discriminate | reflexivity | reflexivity | reflexivity
    | reflexivity | reflexivity | | | vm_compute; discriminate
    | vm_compute; discriminate | vm_compute; discriminate | vm_compute; discriminate].
  - apply elem_of_cons. right. apply elem_of_cons. by left.
  - intros Hin. apply elem_of_cons in Hin as [?|Hin]; [done|].
    apply elem_of_cons in Hin as [?|Hin]; [done|]. by apply elem_of_nil in Hin.
Defined.

(** *** A first compare on the desk *)

Lemma desk_activate_current : ∀ b (d : Desk), getCurrentBuffId (activateBufferID b d) = b.
Proof. intros b d. simpl. by rewrite view_eqb_refl. Qed.

Lemma desk_ui_current : ∀ c (d : Desk), getCurrentBuffId (ui c d) = getCurrentBuffId d.
Proof. done. Qed.

Lemma desk_compareViews_current :
  ∀ a b settings (d : Desk),
    getCurrentBuffId (compareViews a b settings d).2 = getCurrentBuffId d.
Proof. done. Qed.

(** Buffer 10 in the main view, which has the focus, and buffer 20 in the
    sub view. *)
Definition deskOfTwo (result : CompareResult) : Desk :=
  mkDesk (λ v, match v with MAIN_VIEW => [10] | SUB_VIEW => [20] end)
         (λ v, match v with MAIN_VIEW => 10 | SUB_VIEW => 20 end)
         MAIN_VIEW result (λ _, false) (λ _, (0, 0)) (λ _, 0).

Definition sampleSettings : UserSettings :=
  mkSettings MAIN_VIEW false true false false false false false false.

Definition emptySession : Session := mkSession [] None None false.

(** C8 as stated fails on the order of the two steps: with an engine that
    ends in an error, the pair of buffers 10 and 20 is in the registry
    when [compare] calls [runCompare], before any compare has succeeded;
    the pair is gone when [compare] returns. *)
Lemma compare_registers_before_comparing :
  ∃ s' h' p,
    compare_prepare sampleSettings false emptySession (deskOfTwo COMPARE_ERROR)
    = Ready s' h' 0 ∧
    compareList s' = [p] ∧ buffId (file0 p) = 10 ∧ buffId (file1 p) = 20 ∧
    (runCompare sampleSettings false p h').1.1 = COMPARE_ERROR ∧
    compareList (compare sampleSettings false emptySession (deskOfTwo COMPARE_ERROR)).1 = [].
Proof.
  eexists _, _, _. split; [reflexivity|]. repeat split.
Qed.

Lemma compare_registers_then_rolls_back_witness :
  compareList (compare sampleSettings false emptySession (deskOfTwo COMPARE_MATCH)).1
  = compareList emptySession.
Proof.
  pose proof (compare_registers_then_rolls_back
                desk_activate_current desk_ui_current desk_compareViews_current
                sampleSettings false emptySession (deskOfTwo COMPARE_MATCH)) as T.
  destruct T as (p & Hl & _ & _ & T).
  - reflexivity.
  - intros p _. split; reflexivity.
  - apply T. injection Hl as <-. vm_compute. discriminate.
Defined.

(** *** A new pair and a second compare on the desk *)

Lemma new_pair_roles_witness :
  ∃ p, newCompare (initNewCompare sampleSettings emptySession (deskOfTwo COMPARE_MATCH)).1.2
       = Some p ∧
       buffId (getOldFile p) = 10 ∧ buffId (getNewFile p) = 20 ∧
       compareViewId (getNewFile (positionFiles sampleSettings p (deskOfTwo COMPARE_MATCH)).1)
       = SUB_VIEW.
Proof.
  destruct (new_pair_roles sampleSettings emptySession (deskOfTwo COMPARE_MATCH)
              (deskOfTwo COMPARE_MATCH)) as (p & Hp & _ & _ & _ & _ & _ & Hview & _).
  - reflexivity.
  - exists p. split; [exact Hp|]. vm_compute in Hp. injection Hp as <-.
    split; [reflexivity|]. split; [reflexivity|]. exact Hview.
Defined.

Lemma desk_clearWindow_current :
  ∀ view (d : Desk), getCurrentBuffId (clearWindow view d) = getCurrentBuffId d.
Proof. done. Qed.

(** Buffers 10 and 20 compared, with differences. *)
Definition comparedTwo : Session * Desk :=
  compare sampleSettings false emptySession (deskOfTwo COMPARE_MISMATCH).

Lemma recompare_keeps_registry_witness :
  getCompare (getCurrentBuffId comparedTwo.2) (compareList comparedTwo.1) = Some 0%nat ∧
  newCompare (compare sampleSettings false comparedTwo.1 comparedTwo.2).1 = None.
Proof.
  split; [reflexivity|].
  apply (recompare_keeps_registry desk_activate_current desk_ui_current
           desk_compareViews_current desk_clearWindow_current
           sampleSettings false comparedTwo.1 comparedTwo.2 0).
  reflexivity.
Defined.

End Session.

(** ** The delayed update at work ([DelayedUpdate::operator()]) *)

Module Recompare.

Import Alignment Session.

(** The two sections [DelayedUpdate::operator()] hands to [compareViews]. *)
Record Sections : Type := mkSections {
  mainViewSec : section_t;
  subViewSec  : section_t
}.

(** A reference to one of the two sections is the view whose section it
    is bound to. *)
Definition secOf (ref : ViewId) (ss : Sections) : section_t :=
  match ref with MAIN_VIEW => mainViewSec ss | SUB_VIEW => subViewSec ss end.

Definition setSec (ref : ViewId) (x : section_t) (ss : Sections) : Sections :=
  match ref with
  | MAIN_VIEW => mkSections x (subViewSec ss)
  | SUB_VIEW => mkSections (mainViewSec ss) x
  end.

(** [section_t& changeViewSec = (changeView == MAIN_VIEW) ? mainViewSec :
    subViewSec] and [section_t& otherViewSec = (changeView == SUB_VIEW) ?
    subViewSec : mainViewSec]. *)
Definition changeViewSec (changeView : ViewId) : ViewId :=
  if view_eqb changeView MAIN_VIEW then MAIN_VIEW else SUB_VIEW.

Definition otherViewSec (changeView : ViewId) : ViewId :=
  if view_eqb changeView SUB_VIEW then SUB_VIEW else MAIN_VIEW.

(** [ref.off -= d] and [ref.len += d]. *)
Definition subOff (ref : ViewId) (d : Z) (ss : Sections) : Sections :=
  setSec ref (mkSectionT (Int.sub (off (secOf ref ss)) d) (len (secOf ref ss))) ss.

Definition addLen (ref : ViewId) (d : Z) (ss : Sections) : Sections :=
  setSec ref (mkSectionT (off (secOf ref ss)) (Int.add (len (secOf ref ss)) d)) ss.

(** The calls of [NppHelpers] and of the navigation bar the delayed
    update makes, over the state [Host] of the two views; the marker mask
    of the two searches is [MARKER_MASK_LINE]. *)
Class Markers (Host : Type) : Type := {
  lineFromPosition    : ViewId → Z → Host → Z;
  getPrevUnmarkedLine : ViewId → Z → Host → Z;
  getNextUnmarkedLine : ViewId → Z → Host → Z;
  clearMarksAndBlanks : ViewId → Z → Z → Host → Host;
  clearMarksIn        : ViewId → Z → Z → Host → Host;
  navBarVisible       : Host → bool;
  navBarShow          : Host → Host
}.

Section WithMarkers.

Context {Host : Type} `{Npp Host} `{Markers Host}.

(** The block "Adjust views re-compare range", down to the last update of
    the two lengths. *)
Definition adjustSections (changeView : ViewId) (startLine linesAdded linesDeleted : Z)
           (h : Host) : Sections :=
  let ss0 := mkSections (mkSectionT startLine 1) (mkSectionT startLine 1) in
  let otherViewId := otherView changeView in
  let startOff := Int.sub startLine (getPrevUnmarkedLine otherViewId startLine h) in
  let ss1 := subOff (changeViewSec changeView) startOff ss0 in
  let ss2 := subOff (otherViewSec changeView) startOff ss1 in
  let ss3 := addLen (changeViewSec changeView) (Int.add startOff linesAdded) ss2 in
  let ss4 := addLen (otherViewSec changeView) (Int.add startOff linesDeleted) ss3 in
  let endLine := Int.sub (Int.add (off (secOf (otherViewSec changeView) ss4))
                                  (len (secOf (otherViewSec changeView) ss4))) 1 in
  let endOff := Int.sub (getNextUnmarkedLine otherViewId endLine h) endLine in
  let ss5 := addLen (changeViewSec changeView) endOff ss4 in
  addLen (otherViewSec changeView) endOff ss5.

(** [DelayedUpdate::operator()], once the timer has fired. *)
Definition runDelayedUpdate (settings : UserSettings) (du : Scheduler.DelayedUpdate)
           (s : Session) (h : Host) : Scheduler.DelayedUpdate * Session * Host :=
  if Scheduler.fullCompare du then
    let '(s', h') := compare settings false s h in
    (Scheduler.fire du, s', h')
  else
    let changeView := getCurrentViewId h in
    let startLine := lineFromPosition changeView (Scheduler.changePos du) h in
    let h3 :=
      if negb (Scheduler.linesAdded du =? 0) || negb (Scheduler.linesDeleted du =? 0) then
        let ss := adjustSections changeView startLine (Scheduler.linesAdded du)
                                 (Scheduler.linesDeleted du) h in
        let h1 := clearMarksAndBlanks MAIN_VIEW (off (mainViewSec ss)) (len (mainViewSec ss)) h in
        let h2 := clearMarksAndBlanks SUB_VIEW (off (subViewSec ss)) (len (subViewSec ss)) h1 in
        (compareViews (mainViewSec ss) (subViewSec ss) settings h2).2
      else
        let h1 := clearMarksIn MAIN_VIEW startLine 1 h in
        let h2 := clearMarksIn SUB_VIEW startLine 1 h1 in
        (compareViews (mkSectionT startLine 1) (mkSectionT startLine 1) settings h2).2 in
    (Scheduler.fire du, s, if navBarVisible h3 then navBarShow h3 else h3).

(** The arithmetic of the adjustments, in 32 bits. *)

Ltac wrap_solve :=
  unfold Int.add, Int.sub, Int.wrap;
  change (2 ^ 32) with 4294967296; change (2 ^ 31) with 2147483648;
  Z.div_mod_to_equations; lia.

Lemma adjust_off s so : Int.sub (Int.sub s so) so = Int.wrap (s - 2 * so).
Proof. wrap_solve. Qed.

Lemma adjust_end s so a d :
  Int.sub (Int.add (Int.sub (Int.sub s so) so)
             (Int.add (Int.add 1 (Int.add so a)) (Int.add so d))) 1
  = Int.wrap (s + a + d).
Proof. wrap_solve. Qed.

Lemma adjust_len so a d eo :
  Int.add (Int.add (Int.add (Int.add 1 (Int.add so a)) (Int.add so d)) eo) eo
  = Int.wrap (1 + 2 * so + a + d + 2 * eo).
Proof. wrap_solve. Qed.

(** X10: the two section references of [DelayedUpdate::operator()] are
    bound to the same section, that of the view the change was made in:
    every adjustment meant for the other view lands there too. With lines
    added or deleted, the section of the other view stays one line long
    at the changed line, and the section of the changed view is moved up
    by twice the distance to the previous unmarked line and grows by
    twice that distance, the lines added, the lines deleted and twice the
    distance to the next unmarked line (all in 32 bits). *)
Theorem recompare_sections_share_a_view (changeView : ViewId)
        (startLine linesAdded linesDeleted : Z) (h : Host) :
  let ss := adjustSections changeView startLine linesAdded linesDeleted h in
  let startOff := Int.sub startLine (getPrevUnmarkedLine (otherView changeView) startLine h) in
  let endLine := Int.wrap (startLine + linesAdded + linesDeleted) in
  let endOff := Int.sub (getNextUnmarkedLine (otherView changeView) endLine h) endLine in
  otherViewSec changeView = changeViewSec changeView ∧
  changeViewSec changeView = changeView ∧
  secOf (otherView changeView) ss = mkSectionT startLine 1 ∧
  off (secOf changeView ss) = Int.wrap (startLine - 2 * startOff) ∧
  len (secOf changeView ss)
  = Int.wrap (1 + 2 * startOff + linesAdded + linesDeleted + 2 * endOff).
Proof.
  intros ss startOff endLine endOff.
  split; [by destruct changeView|]. split; [by destruct changeView|].
  unfold ss, adjustSections.
  destruct changeView; cbn -[Int.add Int.sub Int.wrap];
    fold startOff; rewrite adjust_end; fold endLine endOff;
    by rewrite adjust_off, adjust_len.
Qed.

End WithMarkers.

End Recompare.

(** ** The plugin at work: modes, timers and notifications *)

Module Plugin.

Import Alignment Session.

(** The commands of the plugin menu and of the Notepad++ menu that
    [NppSettings] enables, disables and checks. *)
Inductive MenuItem : Type :=
| CMD_CLEAR_ACTIVE
| CMD_CLEAR_ALL
| CMD_FIRST
| CMD_PREV
| CMD_NEXT
| CMD_LAST
| IDM_VIEW_SYNSCROLLV
| IDM_VIEW_SYNSCROLLH.

(** Styles of a tab control ([commctrl.h]). *)
Definition TCS_VERTICAL  : Z := 0x0080.
Definition TCS_MULTILINE : Z := 0x0200.

(** The calls to the windows of Notepad++ besides those of [Npp]: menus
    and toolbar, the navigation bar, the tab bars, the two views and the
    helpers of [NppHelpers]. [menuChecked] is [GetMenuState & MF_CHECKED],
    [menuToggle] the [NPPM_MENUCOMMAND] of a checked command, [tabStyle]
    and [setTabStyle] are [GetWindowLongPtr] and [SetWindowLongPtr] on
    [GWL_STYLE], [tabSetStyle] is [WM_TABSETSTYLE]; [markOutdated] and
    [unmarkFirstTab] change the text of the tab of a buffer, the second
    one only where [NewCompare] had marked it. A [ViewLocation] remembers
    the place of a view; [jumpToFirstChange] answers the view it jumped
    in, [None] standing for a negative view. *)
Class Shell (Host : Type) : Type := {
  enableMenuItem      : MenuItem → bool → Host → Host;
  drawMenuBar         : Host → Host;
  hasToolbar          : Host → bool;
  enableToolbarButton : MenuItem → bool → Host → Host;
  menuChecked         : MenuItem → Host → bool;
  menuToggle          : MenuItem → Host → Host;
  navVisible          : Host → bool;
  navHide             : Host → Host;
  navShow             : Host → Host;
  navUpdate           : Host → Host;
  hasTabBar           : ViewId → Host → bool;
  tabBarTop           : ViewId → Host → Z;
  tabBarVisible       : ViewId → Host → bool;
  tabStyle            : ViewId → Host → Z;
  setTabStyle         : ViewId → Z → Host → Host;
  tabSetStyle         : ViewId → Host → Host;
  hideTabBar          : bool → Host → Host;
  tabCount            : ViewId → Host → Z;
  tabCurSel           : ViewId → Host → Z;
  tabSetCurFocus      : ViewId → Z → Host → Host;
  markOutdated        : Z → Host → Host;
  unmarkFirstTab      : Z → Host → Host;
  viewVisible         : ViewId → Host → bool;
  setViewFocus        : ViewId → Host → Host;
  getCurrentLine      : ViewId → Host → Z;
  linePosition        : ViewId → Z → Host → Z;
  setSel              : ViewId → Z → Z → Host → Host;
  getZoom             : ViewId → Host → Z;
  setZoom             : ViewId → Z → Host → Host;
  setFirstVisibleLine : ViewId → Z → Host → Host;
  setNormalView       : ViewId → Host → Host;
  setCompareView      : ViewId → Host → Host;
  jumpToFirstChange   : Host → option ViewId * Host;
  setStatusBar        : ComparedPair → Host → Host;
  fileNew             : Host → Host;
  getNumberOfAllFiles : Host → Z;
  ViewLocation        : Type;
  newViewLocation     : ViewId → Host → ViewLocation;
  locationView        : ViewLocation → ViewId;
  restoreLocation     : ViewLocation → Host → Host
}.

(** [NppSettings]. *)
Record NppSettings : Type := mkNppSettings {
  compareMode          : bool;
  _restoreMultilineTab : bool;
  _syncVScroll         : bool;
  _syncHScroll         : bool
}.

(** Modelled from the spec: the timers of [DelayedWork] ([Tools.h]), each
    a cancellable delayed action that is pending from [post] until it
    fires or is cancelled; a pending timer holds its delay. The fields
    [buffId] of [DelayedActivate] and [closedBuffs] of [DelayedClose] come
    with them. *)
Record Timers : Type := mkTimers {
  delayedAlignment  : option Z;
  delayedActivation : option Z;
  activationBuffId  : Z;
  delayedClosure    : option Z;
  closedBuffs       : list Z;
  delayedUpdate     : Scheduler.DelayedUpdate;
  delayedMaximize   : option Z
}.

Definition pending (timer : option Z) : bool :=
  match timer with Some _ => true | None => false end.

Section WithShell.

Context {Host : Type} `{Npp Host} `{Scintilla Host} `{Shell Host}.

(** The globals of [Compare.cpp] the handlers work on. *)
Record Plugin : Type := mkPlugin {
  compareList       : CompareList_t;
  newCompare        : option ComparedPair;
  storedLocation    : option ViewLocation;
  goToFirst         : bool;
  nppSettings       : NppSettings;
  notificationsLock : Z;
  timers            : Timers
}.

Definition withCompareList (l : CompareList_t) (pl : Plugin) : Plugin :=
  mkPlugin l (newCompare pl) (storedLocation pl) (goToFirst pl) (nppSettings pl)
           (notificationsLock pl) (timers pl).

Definition withNewCompare (p : option ComparedPair) (pl : Plugin) : Plugin :=
  mkPlugin (compareList pl) p (storedLocation pl) (goToFirst pl) (nppSettings pl)
           (notificationsLock pl) (timers pl).

Definition withStoredLocation (loc : option ViewLocation) (pl : Plugin) : Plugin :=
  mkPlugin (compareList pl) (newCompare pl) loc (goToFirst pl) (nppSettings pl)
           (notificationsLock pl) (timers pl).

Definition withGoToFirst (b : bool) (pl : Plugin) : Plugin :=
  mkPlugin (compareList pl) (newCompare pl) (storedLocation pl) b (nppSettings pl)
           (notificationsLock pl) (timers pl).

Definition withNppSettings (np : NppSettings) (pl : Plugin) : Plugin :=
  mkPlugin (compareList pl) (newCompare pl) (storedLocation pl) (goToFirst pl) np
           (notificationsLock pl) (timers pl).

Definition withLock (n : Z) (pl : Plugin) : Plugin :=
  mkPlugin (compareList pl) (newCompare pl) (storedLocation pl) (goToFirst pl)
           (nppSettings pl) n (timers pl).

Definition withTimers (t : Timers) (pl : Plugin) : Plugin :=
  mkPlugin (compareList pl) (newCompare pl) (storedLocation pl) (goToFirst pl)
           (nppSettings pl) (notificationsLock pl) t.

Definition withAlignment (timer : option Z) (t : Timers) : Timers :=
  mkTimers timer (delayedActivation t) (activationBuffId t) (delayedClosure t)
           (closedBuffs t) (delayedUpdate t) (delayedMaximize t).

Definition withActivation (timer : option Z) (t : Timers) : Timers :=
  mkTimers (delayedAlignment t) timer (activationBuffId t) (delayedClosure t)
           (closedBuffs t) (delayedUpdate t) (delayedMaximize t).

Definition withActivationBuffId (buff : Z) (t : Timers) : Timers :=
  mkTimers (delayedAlignment t) (delayedActivation t) buff (delayedClosure t)
           (closedBuffs t) (delayedUpdate t) (delayedMaximize t).

Definition withClosure (timer : option Z) (t : Timers) : Timers :=
  mkTimers (delayedAlignment t) (delayedActivation t) (activationBuffId t) timer
           (closedBuffs t) (delayedUpdate t) (delayedMaximize t).

Definition withClosedBuffs (l : list Z) (t : Timers) : Timers :=
  mkTimers (delayedAlignment t) (delayedActivation t) (activationBuffId t)
           (delayedClosure t) l (delayedUpdate t) (delayedMaximize t).

Definition withUpdate (du : Scheduler.DelayedUpdate) (t : Timers) : Timers :=
  mkTimers (delayedAlignment t) (delayedActivation t) (activationBuffId t)
           (delayedClosure t) (closedBuffs t) du (delayedMaximize t).

Definition withMaximize (timer : option Z) (t : Timers) : Timers :=
  mkTimers (delayedAlignment t) (delayedActivation t) (activationBuffId t)
           (delayedClosure t) (closedBuffs t) (delayedUpdate t) timer.

(** [compareList.empty()] and [(bool)newCompare]. *)
Definition noCompares (pl : Plugin) : bool :=
  match compareList pl with [] => true | _ => false end.

Definition firstIsSet (pl : Plugin) : bool :=
  match newCompare pl with Some _ => true | None => false end.

(** *** [NppSettings] *)

(** [NppSettings::enableClearCommands]; an item is enabled unless its
    flag is [MF_DISABLED | MF_GRAYED]. *)
Definition enableClearCommands (enable : bool) (pl : Plugin) (h : Host) : Host :=
  let h1 := enableMenuItem CMD_CLEAR_ACTIVE
              (negb (negb enable && negb (compareMode (nppSettings pl)))) h in
  let h2 := enableMenuItem CMD_CLEAR_ALL (negb (negb enable && noCompares pl)) h1 in
  let h3 := drawMenuBar h2 in
  if hasToolbar h3
  then enableToolbarButton CMD_CLEAR_ACTIVE (enable || compareMode (nppSettings pl)) h3
  else h3.

(** [NppSettings::enableNppScrollCommands]. *)
Definition enableNppScrollCommands (enable : bool) (h : Host) : Host :=
  let h1 := enableMenuItem IDM_VIEW_SYNSCROLLH enable h in
  let h2 := enableMenuItem IDM_VIEW_SYNSCROLLV enable h1 in
  let h3 := drawMenuBar h2 in
  if hasToolbar h3
  then enableToolbarButton IDM_VIEW_SYNSCROLLV enable
         (enableToolbarButton IDM_VIEW_SYNSCROLLH enable h3)
  else h3.

(** [NppSettings::updatePluginMenu]. *)
Definition updatePluginMenu (pl : Plugin) (h : Host) : Host :=
  let mode := compareMode (nppSettings pl) in
  let h1 := enableMenuItem CMD_CLEAR_ACTIVE (negb (negb mode && negb (firstIsSet pl))) h in
  let h2 := enableMenuItem CMD_CLEAR_ALL (negb (noCompares pl && negb (firstIsSet pl))) h1 in
  let h3 := enableMenuItem CMD_FIRST mode h2 in
  let h4 := enableMenuItem CMD_PREV mode h3 in
  let h5 := enableMenuItem CMD_NEXT mode h4 in
  let h6 := enableMenuItem CMD_LAST mode h5 in
  let h7 := drawMenuBar h6 in
  if hasToolbar h7 then
    let t1 := enableToolbarButton CMD_CLEAR_ACTIVE (mode || firstIsSet pl) h7 in
    let t2 := enableToolbarButton CMD_FIRST mode t1 in
    let t3 := enableToolbarButton CMD_PREV mode t2 in
    let t4 := enableToolbarButton CMD_NEXT mode t3 in
    enableToolbarButton CMD_LAST mode t4
  else h7.

(** [NppSettings::save]. *)
Definition save (np : NppSettings) (h : Host) : NppSettings :=
  mkNppSettings (compareMode np) (_restoreMultilineTab np)
                (menuChecked IDM_VIEW_SYNSCROLLV h) (menuChecked IDM_VIEW_SYNSCROLLH h).

(** [NppSettings::refreshTabBar] on the tab bar of a view. *)
Definition refreshTabBar (view : ViewId) (h : Host) : Host :=
  if tabBarVisible view h && (tabCount view h >? 1) then
    let currentTabIdx := tabCurSel view h in
    let h1 := tabSetCurFocus view (if negb (currentTabIdx =? 0) then 0 else 1) h in
    tabSetCurFocus view currentTabIdx h1
  else h.

(** [NppSettings::refreshTabBars]. *)
Definition refreshTabBars (h : Host) : Host :=
  let currentView := getCurrentViewId h in
  let h1 := if hasTabBar SUB_VIEW h then refreshTabBar SUB_VIEW h else h in
  let h2 := if hasTabBar MAIN_VIEW h1 then refreshTabBar MAIN_VIEW h1 else h1 in
  setViewFocus currentView h2.

Definition withRestoreMultilineTab (b : bool) (np : NppSettings) : NppSettings :=
  mkNppSettings (compareMode np) b (_syncVScroll np) (_syncHScroll np).

Definition withCompareMode (b : bool) (np : NppSettings) : NppSettings :=
  mkNppSettings b (_restoreMultilineTab np) (_syncVScroll np) (_syncHScroll np).

(** [NppSettings::toSingleLineTab]. *)
Definition toSingleLineTab (np : NppSettings) (h : Host) : NppSettings * Host :=
  if negb (_restoreMultilineTab np) then
    if hasTabBar MAIN_VIEW h && hasTabBar SUB_VIEW h then
      if tabBarTop MAIN_VIEW h =? tabBarTop SUB_VIEW h then
        let mainStyle := tabStyle MAIN_VIEW h in
        if has_flag mainStyle TCS_MULTILINE && negb (has_flag mainStyle TCS_VERTICAL) then
          let h1 := hideTabBar true h in
          let h2 := tabSetStyle MAIN_VIEW
                      (setTabStyle MAIN_VIEW (Z.land mainStyle (Z.lnot TCS_MULTILINE)) h1) in
          let subStyle := tabStyle SUB_VIEW h2 in
          let h3 := tabSetStyle SUB_VIEW
                      (setTabStyle SUB_VIEW (Z.land subStyle (Z.lnot TCS_MULTILINE)) h2) in
          let h4 := hideTabBar false h3 in
          (withRestoreMultilineTab true np, refreshTabBars h4)
        else (np, h)
      else (np, h)
    else (np, h)
  else (np, h).

(** [NppSettings::restoreMultilineTab]. *)
Definition restoreMultilineTab (np : NppSettings) (h : Host) : NppSettings * Host :=
  if _restoreMultilineTab np then
    (withRestoreMultilineTab false np,
     if hasTabBar MAIN_VIEW h && hasTabBar SUB_VIEW h then
       let mainStyle := tabStyle MAIN_VIEW h in
       let h1 := hideTabBar true h in
       let h2 := tabSetStyle MAIN_VIEW
                   (setTabStyle MAIN_VIEW (Z.lor mainStyle TCS_MULTILINE) h1) in
       let subStyle := tabStyle SUB_VIEW h2 in
       let h3 := tabSetStyle SUB_VIEW
                   (setTabStyle SUB_VIEW (Z.lor subStyle TCS_MULTILINE) h2) in
       hideTabBar false h3
     else h)
  else (np, h).

(** The two checks of [setNormalMode] on the scroll commands of
    Notepad++: a command whose check differs from the saved one is sent. *)
Definition restoreSync (item : MenuItem) (saved : bool) (h : Host) : Host :=
  if negb (Bool.eqb (menuChecked item h) saved) then menuToggle item h else h.

(** [NppSettings::setNormalMode]. *)
Definition setNormalMode (forceUpdate : bool) (pl : Plugin) (h : Host) : Plugin * Host :=
  if compareMode (nppSettings pl) then
    let '(np, h1) := restoreMultilineTab (withCompareMode false (nppSettings pl)) h in
    let h2 := if navVisible h1 then navHide h1 else h1 in
    let h3 :=
      if negb (isSingleView h2) then
        let h' := enableNppScrollCommands true h2 in
        let h'' := restoreSync IDM_VIEW_SYNSCROLLV (_syncVScroll np) h' in
        restoreSync IDM_VIEW_SYNSCROLLH (_syncHScroll np) h''
      else h2 in
    let pl' := withNppSettings np pl in
    (pl', updatePluginMenu pl' h3)
  else if forceUpdate then
    let '(np, h1) := restoreMultilineTab (nppSettings pl) h in
    let pl' := withNppSettings np pl in
    (pl', updatePluginMenu pl' h1)
  else (pl, h).

(** [NppSettings::setCompareMode]. *)
Definition setCompareMode (clearHorizontalScroll : bool) (pl : Plugin) (h : Host)
  : Plugin * Host :=
  if compareMode (nppSettings pl) then (pl, h)
  else
    let np1 := save (withCompareMode true (nppSettings pl)) h in
    let '(np, h1) := toSingleLineTab np1 h in
    let h2 :=
      if clearHorizontalScroll then
        let pos := linePosition MAIN_VIEW (getCurrentLine MAIN_VIEW h1) h1 in
        let h' := setSel MAIN_VIEW pos pos h1 in
        let pos' := linePosition SUB_VIEW (getCurrentLine SUB_VIEW h') h' in
        setSel SUB_VIEW pos' pos' h'
      else h1 in
    let h3 := if _syncVScroll np then menuToggle IDM_VIEW_SYNSCROLLV h2 else h2 in
    let h4 := if negb (_syncHScroll np) then menuToggle IDM_VIEW_SYNSCROLLH h3 else h3 in
    let zoom := getZoom (getCurrentViewId h4) h4 in
    let h5 := setZoom (otherView (getCurrentViewId h4)) zoom h4 in
    let h6 := enableNppScrollCommands false h5 in
    let pl' := withNppSettings np pl in
    (pl', updatePluginMenu pl' h6).

(** *** Activation *)

(** [resetCompareView]. *)
Definition resetCompareView (view : ViewId) (pl : Plugin) (h : Host) : Host :=
  if negb (viewVisible view h) then h
  else match getCompareBySciDoc (getDocId view h) (compareList pl) with
       | Some _ => setCompareView view h
       | None => h
       end.

(** [onBufferActivated], with the timers and the modes of the plugin. *)
Definition onBufferActivated (buff : Z) (pl : Plugin) (h : Host) : Plugin * Host :=
  let pl1 := withTimers (withActivation None (withAlignment None (timers pl))) pl in
  match getCompare buff (compareList pl1) with
  | None =>
      let '(pl2, h1) := setNormalMode false pl1 h in
      let h2 := setNormalView (getCurrentViewId h1) h1 in
      (pl2, resetCompareView (otherView (getCurrentViewId h2)) pl2 h2)
  | Some _ =>
      (withTimers (withActivation (Some 30) (withActivationBuffId buff (timers pl1))) pl1, h)
  end.

(** [comparedFileActivated]. *)
Definition comparedFileActivated (settings : UserSettings) (pl : Plugin) (h : Host)
  : Plugin * Host :=
  let '(pl1, h1) :=
    if negb (compareMode (nppSettings pl)) then
      let h' := if UseNavBar settings && negb (navVisible h) then navShow h else h in
      setCompareMode false pl h'
    else (pl, h) in
  let h2 := setCompareView SUB_VIEW (setCompareView MAIN_VIEW h1) in
  (withStoredLocation (Some (newViewLocation (getCurrentViewId h2) h2)) pl1, h2).

(** [DelayedActivate::operator()], once its timer has fired. *)
Definition runDelayedActivate (settings : UserSettings) (pl : Plugin) (h : Host)
  : Plugin * Host :=
  let pl0 := withTimers (withActivation None (timers pl)) pl in
  let buff := activationBuffId (timers pl0) in
  match getCompare buff (compareList pl0) with
  | None => (pl0, h)
  | Some i =>
      match compareList pl0 !! i with
      | None => (pl0, h)
      | Some cmpPair =>
          let otherFile := getOtherFileByBuffId cmpPair buff in
          let h1 :=
            if negb (getDocId (otherView (getCurrentViewId h)) h =? sciDoc otherFile)
            then activateBufferID buff (activateBufferID (buffId otherFile) h)
            else h in
          comparedFileActivated settings pl0 h1
      end
  end.

(** *** Closing *)

(** Writing through the reference [getOtherFileByBuffId(buffId)]. *)
Definition setOtherOriginalPos (buff pos : Z) (p : ComparedPair) : ComparedPair :=
  if buffId (file0 p) =? buff
  then setFiles (file0 p) (setOriginalPos pos (file1 p)) p
  else setFiles (setOriginalPos pos (file0 p)) (file1 p) p.

(** The position [onFileBeforeClose] records for the other file. *)
Definition closedPos (pos relPos : Z) : Z :=
  let pos1 := Int.add pos relPos in
  let pos2 := if relPos >? 0 then Int.decr pos1 else Int.incr pos1 in
  if pos2 <? 0 then 0 else pos2.

(** [onFileBeforeClose]. *)
Definition onFileBeforeClose (buff : Z) (pl : Plugin) (h : Host) : Plugin * Host :=
  match getCompare buff (compareList pl) with
  | None => (pl, h)
  | Some i =>
      match compareList pl !! i with
      | None => (pl, h)
      | Some cmpPair =>
          let t := timers pl in
          let t1 := withActivation None
                      (withUpdate (Scheduler.cancel (delayedUpdate t))
                         (withAlignment None t)) in
          let t2 := withClosedBuffs (closedBuffs t1 ++ [buff]) (withClosure None t1) in
          let currentBuffId := getCurrentBuffId h in
          let closedFile := getFileByBuffId cmpPair buff in
          let h1 := onBeforeClose closedFile h in
          let cmpPair' :=
            if negb (relativePos cmpPair =? 0)
               && view_eqb (originalViewId closedFile) (viewIdFromBuffId buff h1)
            then setOtherOriginalPos buff
                   (closedPos (posFromBuffId buff h1) (relativePos cmpPair)) cmpPair
            else cmpPair in
          let h2 := if negb (currentBuffId =? buff)
                    then activateBufferID currentBuffId h1 else h1 in
          (withTimers (withClosure (Some 30) t2)
             (withCompareList (<[i := cmpPair']> (compareList pl)) pl),
           h2)
      end
  end.

(** What [DelayedClose::operator()] does with a file of a closed pair. *)
Definition closeOrForget (f : ComparedFile) (h : Host) : Host :=
  if bufferOpen (buffId f) h then close f h else onClose f h.

(** The [for] loop of [DelayedClose::operator()], over the closed buffers
    from the last one to the first. *)
Fixpoint closeLoop (buffs : list Z) (l : CompareList_t) (h : Host) : CompareList_t * Host :=
  match buffs with
  | [] => (l, h)
  | buff :: rest =>
      match getCompare buff l with
      | None => closeLoop rest l h
      | Some i =>
          match l !! i with
          | None => closeLoop rest l h
          | Some cmpPair =>
              let closedFile := getFileByBuffId cmpPair buff in
              let otherFile := getOtherFileByBuffId cmpPair buff in
              let h1 := if isTempFile (isTemp closedFile)
                        then closeOrForget closedFile h else h in
              let h2 := if isTempFile (isTemp otherFile) then closeOrForget otherFile h1
                        else if bufferOpen (buffId otherFile) h1
                             then restore otherFile h1 else h1 in
              closeLoop rest (delete i l) h2
          end
      end
  end.

(** [DelayedClose::operator()], once its timer has fired. *)
Definition runDelayedClose (pl : Plugin) (h : Host) : Plugin * Host :=
  let pl0 := withTimers (withClosure None (timers pl)) pl in
  let currentBuffId := getCurrentBuffId h in
  let '(l, h1) := closeLoop (reverse (closedBuffs (timers pl0))) (compareList pl0) h in
  let pl1 := withTimers (withClosedBuffs [] (timers pl0)) (withCompareList l pl0) in
  let '(pl2, h2) := onBufferActivated currentBuffId pl1 (activateBufferID currentBuffId h1) in
  if (getNumberOfAllFiles h2 =? 1) && view_eqb (getCurrentViewId h2) SUB_VIEW then
    let h3 := fileNew h2 in
    let newBuffId := getCurrentBuffId h3 in
    let h4 := menuCommand IDM_VIEW_GOTO_ANOTHER_VIEW (activateBufferID currentBuffId h3) in
    (pl2, menuCommand IDM_FILE_CLOSE (activateBufferID newBuffId h4))
  else (pl2, h2).

(** *** Saving *)

(** [onFileSaved]; [recompareOnSave] is [Settings.RecompareOnSave]. *)
Definition onFileSaved (recompareOnSave : bool) (buff : Z) (pl : Plugin) (h : Host)
  : Plugin * Host :=
  match getCompare buff (compareList pl) with
  | None => (pl, h)
  | Some i =>
      match compareList pl !! i with
      | None => (pl, h)
      | Some cmpPair =>
          let otherFile := getOtherFileByBuffId cmpPair buff in
          let currentBuffId := getCurrentBuffId h in
          let pairIsActive := (currentBuffId =? buff) || (currentBuffId =? buffId otherFile) in
          let h1 := if negb pairIsActive then activateBufferID buff h else h in
          let pl1 :=
            if pairIsActive && recompareOnSave then
              let du := Scheduler.cancel (delayedUpdate (timers pl)) in
              let du' := Scheduler.mkUpdate (Scheduler.armed du) (Scheduler.changePos du)
                           (Scheduler.linesAdded du) (Scheduler.linesDeleted du) true in
              withTimers (withUpdate (Scheduler.post 30 du')
                            (withAlignment None (timers pl))) pl
            else pl in
          let h2 :=
            match isTemp otherFile with
            | LAST_SAVED_TEMP =>
                if hasTabBar (compareViewId otherFile) h1
                then markOutdated (buffId otherFile) h1 else h1
            | _ => h1
            end in
          if negb pairIsActive
          then onBufferActivated currentBuffId pl1 (activateBufferID currentBuffId h2)
          else (pl1, h2)
      end
  end.

(** *** Clearing *)

(** [newCompare.reset()] with [~NewCompare]; [unmarkFirstTab] is the
    block that gives the tab of the first file its text back where the
    file was marked. *)
Definition releaseNewCompare (pl : Plugin) (h : Host) : Plugin * Host :=
  match newCompare pl with
  | None => (pl, h)
  | Some first =>
      let pl' := withNewCompare None pl in
      let h1 := unmarkFirstTab (buffId (file0 first)) h in
      (pl', if negb (compareMode (nppSettings pl')) then enableClearCommands false pl' h1
            else h1)
  end.

(** [clearComparePair], with [onBufferActivated] as above. *)
Definition clearComparePair (buff : Z) (pl : Plugin) (h : Host) : Plugin * Host :=
  match getCompare buff (compareList pl) with
  | None => (pl, h)
  | Some i =>
      match compareList pl !! i with
      | None => (pl, h)
      | Some cmpPair =>
          let h1 := (restoreFiles buff cmpPair h).2 in
          onBufferActivated (getCurrentBuffId h1)
                            (withCompareList (delete i (compareList pl)) pl) h1
      end
  end.

(** [ClearActiveCompare]. *)
Definition ClearActiveCompare (pl : Plugin) (h : Host) : Plugin * Host :=
  let '(pl1, h1) := releaseNewCompare pl h in
  if compareMode (nppSettings pl1) then clearComparePair (getCurrentBuffId h1) pl1 h1
  else (pl1, h1).

(** The [for] loop of [ClearAllCompares], over the pairs from the last
    one to the first. *)
Fixpoint restoreAll (pairs : CompareList_t) (h : Host) : Host :=
  match pairs with
  | [] => h
  | cmpPair :: rest => restoreAll rest (restoreFiles (-1) cmpPair h).2
  end.

(** [ClearAllCompares]. *)
Definition ClearAllCompares (pl : Plugin) (h : Host) : Plugin * Host :=
  let '(pl1, h1) := releaseNewCompare pl h in
  if noCompares pl1 then (pl1, h1)
  else
    let buff := getCurrentBuffId h1 in
    let h2 := setViewFocus (otherView (getCurrentViewId h1)) h1 in
    let otherBuffId := getCurrentBuffId h2 in
    let h3 := restoreAll (reverse (compareList pl1)) h2 in
    let '(pl2, h4) := setNormalMode true (withCompareList [] pl1) h3 in
    let h5 := if negb (isSingleView h4) then activateBufferID otherBuffId h4 else h4 in
    (pl2, activateBufferID buff h5).

(** *** Alignment *)

(** [syncViews]. *)
Definition syncViews (biasView : ViewId) (h : Host) : Host :=
  let firstVisibleLine := getFirstVisibleLine biasView h in
  let h1 := if negb (firstVisibleLine =? getFirstVisibleLine (otherView biasView) h)
            then setFirstVisibleLine (otherView biasView) firstVisibleLine h
            else h in
  navUpdate h1.

(** [DelayedAlign::operator()], once its timer has fired. *)
Definition runDelayedAlign (pl : Plugin) (h : Host) : Plugin * Host :=
  let pl0 := withTimers (withAlignment None (timers pl)) pl in
  match getCompare (getCurrentBuffId h) (compareList pl0) with
  | None => (pl0, h)
  | Some i =>
      match compareList pl0 !! i with
      | None => (pl0, h)
      | Some cmpPair =>
          match alignmentInfo cmpPair with
          | [] => (pl0, h)
          | _ :: _ =>
              let realign :=
                if goToFirst pl0 then true
                else if isAlignmentNeeded MAIN_VIEW h (alignmentInfo cmpPair) then true
                     else isAlignmentNeeded SUB_VIEW h (alignmentInfo cmpPair) in
              let '(pl1, h1) :=
                if realign then
                  (match storedLocation pl0 with
                   | None =>
                       if negb (goToFirst pl0)
                       then withStoredLocation
                              (Some (newViewLocation (getCurrentViewId h) h)) pl0
                       else pl0
                   | Some _ => pl0
                   end,
                   (alignDiffs (alignmentInfo cmpPair) h).1)
                else (pl0, h) in
              if goToFirst pl1 then
                let '(viewLoc, h2) := jumpToFirstChange h1 in
                let h3 := match viewLoc with
                          | Some view => syncViews view h2
                          | None => h2
                          end in
                (withGoToFirst false pl1, setStatusBar cmpPair h3)
              else
                match storedLocation pl1 with
                | Some loc =>
                    let h2 := restoreLocation loc h1 in
                    (withStoredLocation None pl1,
                     setStatusBar cmpPair (syncViews (locationView loc) h2))
                | None => (pl1, h1)
                end
          end
      end
  end.

(** *** The lock on notifications *)

(** The [wParam] of a [WM_SIZE] message. *)
Inductive SizeKind : Type := SIZE_MINIMIZED | SIZE_MAXIMIZED | SIZE_OTHER.

(** [messageProc]; [isSize] tells whether the message is [WM_SIZE]. *)
Definition messageProc (isSize : bool) (wParam : SizeKind) (pl : Plugin) : Plugin :=
  if isSize then
    match wParam with
    | SIZE_MINIMIZED =>
        if notificationsLock pl =? 0
        then withLock (Int.dword (notificationsLock pl + 1))
               (withTimers (withAlignment None (timers pl)) pl)
        else pl
    | SIZE_MAXIMIZED =>
        if negb (notificationsLock pl =? 0)
        then withTimers (withMaximize (Some 100) (timers pl)) pl
        else pl
    | SIZE_OTHER => pl
    end
  else pl.

(** [DelayedMaximize::operator()], once its timer has fired. *)
Definition runDelayedMaximize (pl : Plugin) (h : Host) : Plugin * Host :=
  let pl0 := withTimers (withMaximize None (timers pl)) pl in
  (if negb (notificationsLock pl0 =? 0)
   then withLock (Int.dword (notificationsLock pl0 - 1)) pl0 else pl0,
   navUpdate h).

(** The notifications [beNotified] tells apart, and what it calls for
    them. *)
Inductive NotifyCode : Type :=
| SCN_PAINTED
| SCN_UPDATEUI
| NPPN_BUFFERACTIVATED
| NPPN_FILEBEFORECLOSE
| NPPN_FILESAVED
| SCN_MODIFIED
| SCN_ZOOM
| NPPN_WORDSTYLESUPDATED
| NPPN_TBMODIFICATION
| NPPN_READY
| NPPN_BEFORESHUTDOWN
| NPPN_SHUTDOWN
| OtherNotification.

Inductive Call : Type :=
| CallOnSciPaint
| CallOnSciUpdateUI
| CallOnBufferActivated (buff : Z)
| CallNewCompareReset
| CallOnFileBeforeClose (buff : Z)
| CallOnFileSaved (buff : Z)
| CallOnSciModifiedUpdate
| CallOnSciModified
| CallOnSciZoom
| CallStylesUpdated
| CallOnToolBarReady
| CallOnNppReady
| CallClearAllCompares
| CallShutdown
| NoCall.

(** [beNotified]: the handler it calls, if any; [idFrom] is
    [nmhdr.idFrom], [updateOnChange] is [Settings.UpdateOnChange]. *)
Definition beNotified (code : NotifyCode) (idFrom : Z) (updateOnChange : bool)
           (pl : Plugin) : Call :=
  let mode := compareMode (nppSettings pl) in
  let unlocked := notificationsLock pl =? 0 in
  let t := timers pl in
  match code with
  | SCN_PAINTED =>
      if mode && unlocked && negb (pending (delayedActivation t))
         && negb (pending (delayedClosure t)) && negb (Scheduler.isPending (delayedUpdate t))
      then CallOnSciPaint else NoCall
  | SCN_UPDATEUI =>
      if mode && unlocked
         && negb (match storedLocation pl with Some _ => true | None => false end)
         && negb (goToFirst pl) && negb (pending (delayedActivation t))
         && negb (pending (delayedClosure t)) && negb (Scheduler.isPending (delayedUpdate t))
      then CallOnSciUpdateUI else NoCall
  | NPPN_BUFFERACTIVATED =>
      if negb (noCompares pl) && unlocked && negb (pending (delayedClosure t))
      then CallOnBufferActivated idFrom else NoCall
  | NPPN_FILEBEFORECLOSE =>
      if match newCompare pl with
         | Some first => buffId (file0 first) =? idFrom
         | None => false
         end
      then CallNewCompareReset
      else if negb (noCompares pl) && unlocked then CallOnFileBeforeClose idFrom
      else NoCall
  | NPPN_FILESAVED =>
      if negb (noCompares pl) && unlocked then CallOnFileSaved idFrom else NoCall
  | SCN_MODIFIED =>
      if mode && unlocked
      then if updateOnChange then CallOnSciModifiedUpdate else CallOnSciModified
      else NoCall
  | SCN_ZOOM => if mode && unlocked then CallOnSciZoom else NoCall
  | NPPN_WORDSTYLESUPDATED => CallStylesUpdated
  | NPPN_TBMODIFICATION => CallOnToolBarReady
  | NPPN_READY => CallOnNppReady
  | NPPN_BEFORESHUTDOWN => CallClearAllCompares
  | NPPN_SHUTDOWN => CallShutdown
  | OtherNotification => NoCall
  end.

(** *** The lock, minimised and restored *)

Lemma messageProc_minimized (k : nat) (pl : Plugin) :
  notificationsLock pl = 0 → (0 < k)%nat →
  Nat.iter k (messageProc true SIZE_MINIMIZED) pl
  = withLock 1 (withTimers (withAlignment None (timers pl)) pl).
Proof.
  intros Hlock Hk. destruct k as [|k]; [lia|]. clear Hk.
  induction k as [|k IH].
  - simpl. by rewrite Hlock.
  - change (Nat.iter (S (S k)) (messageProc true SIZE_MINIMIZED) pl)
      with (messageProc true SIZE_MINIMIZED
              (Nat.iter (S k) (messageProc true SIZE_MINIMIZED) pl)).
    rewrite IH. done.
Qed.

(** X11: minimising Notepad++ raises the lock on notifications from
    zero to one, however often the message comes, and cancels a pending
    alignment; restoring the window then posts the delayed maximise, which
    brings the lock back to zero when it fires. With the lock at zero a
    restored window posts nothing, and a message that is not [WM_SIZE]
    changes nothing. *)
Theorem minimize_then_restore (k : nat) (pl : Plugin) (h : Host) :
  notificationsLock pl = 0 → (0 < k)%nat →
  let minimized := Nat.iter k (messageProc true SIZE_MINIMIZED) pl in
  let restored := messageProc true SIZE_MAXIMIZED minimized in
  notificationsLock minimized = 1 ∧
  delayedAlignment (timers minimized) = None ∧
  delayedMaximize (timers restored) = Some 100 ∧
  notificationsLock restored = 1 ∧
  notificationsLock (runDelayedMaximize restored h).1 = 0 ∧
  delayedMaximize (timers (runDelayedMaximize restored h).1) = None ∧
  messageProc true SIZE_MAXIMIZED pl = pl ∧
  (∀ wParam, messageProc false wParam pl = pl).
Proof.
  intros Hlock Hk minimized restored.
  assert (Hmin : minimized = withLock 1 (withTimers (withAlignment None (timers pl)) pl)).
  { by apply messageProc_minimized. }
  assert (Hres : restored
                 = withTimers (withMaximize (Some 100) (timers minimized)) minimized).
  { unfold restored. rewrite Hmin. done. }
  split; [by rewrite Hmin|]. split; [by rewrite Hmin|].
  split; [by rewrite Hres|]. split; [by rewrite Hres, Hmin|].
  split; [by rewrite Hres, Hmin|]. split; [by rewrite Hres, Hmin|].
  split; [|done]. unfold messageProc. by rewrite Hlock.
Qed.

(** The calls that work on compared files, as opposed to the life cycle
    of the plugin. *)
Definition worksOnCompares (c : Call) : bool :=
  match c with
  | CallOnSciPaint | CallOnSciUpdateUI | CallOnBufferActivated _
  | CallOnFileBeforeClose _ | CallOnFileSaved _
  | CallOnSciModifiedUpdate | CallOnSciModified | CallOnSciZoom => true
  | _ => false
  end.

Definition fromScintilla (code : NotifyCode) : bool :=
  match code with
  | SCN_PAINTED | SCN_UPDATEUI | SCN_MODIFIED | SCN_ZOOM => true
  | _ => false
  end.

(** X12: while the lock on notifications is held, [beNotified] calls no
    handler that works on compared files, whatever the notification;
    outside compare mode it calls no handler for a notification of
    Scintilla; with a delayed close pending it handles neither an
    activation nor a repaint nor a scroll; and it passes a scroll on to
    the views only when no location is stored and no jump to the first
    difference is due. *)
Theorem locked_notifications_ignored (code : NotifyCode) (idFrom : Z)
        (updateOnChange : bool) (pl : Plugin) :
  (notificationsLock pl ≠ 0 →
     worksOnCompares (beNotified code idFrom updateOnChange pl) = false) ∧
  (compareMode (nppSettings pl) = false → fromScintilla code = true →
     beNotified code idFrom updateOnChange pl = NoCall) ∧
  (pending (delayedClosure (timers pl)) = true →
     beNotified code idFrom updateOnChange pl ≠ CallOnBufferActivated idFrom ∧
     beNotified code idFrom updateOnChange pl ≠ CallOnSciPaint ∧
     beNotified code idFrom updateOnChange pl ≠ CallOnSciUpdateUI) ∧
  (beNotified code idFrom updateOnChange pl = CallOnSciUpdateUI →
     storedLocation pl = None ∧ goToFirst pl = false).
Proof.
  split; [|split; [|split]].
  - intros Hlock. apply Z.eqb_neq in Hlock. unfold beNotified. rewrite Hlock.
    destruct code; simpl; rewrite ?andb_false_r; simpl; try done.
    destruct (newCompare pl) as [first|]; [|done].
    by destruct (buffId (file0 first) =? idFrom).
  - intros Hmode Hsci. unfold beNotified. rewrite Hmode.
    by destruct code.
  - intros Hclose. unfold beNotified. rewrite Hclose.
    destruct code; simpl; rewrite ?andb_false_r; simpl;
      repeat match goal with |- context [if ?b then _ else _] => destruct b end; done.
  - unfold beNotified. destruct code;
      repeat match goal with |- context [if ?b then _ else _] => destruct b eqn:? end;
      try done.
    intros _.
    repeat match goal with H : _ && _ = true |- _ => apply andb_true_iff in H as [? ?] end.
    destruct (storedLocation pl); [done|]. by destruct (goToFirst pl).
Qed.

(** *** What the windows keep *)

(** A call that leaves the checks of the menu, the styles of the tab
    bars, or the number of views in use as they are. *)
Definition keepsChecks (f : Host → Host) : Prop :=
  ∀ item h, menuChecked item (f h) = menuChecked item h.

Definition keepsTabs (f : Host → Host) : Prop :=
  ∀ view h, tabStyle view (f h) = tabStyle view h ∧ hasTabBar view (f h) = hasTabBar view h.

Definition keepsViews (f : Host → Host) : Prop :=
  ∀ h, isSingleView (f h) = isSingleView h.

(** What Notepad++ and Windows are taken to do: a menu command flips its
    own check, a style set on a tab bar is the style read from it, and the
    other calls [NppSettings] makes change neither. *)
Record WindowLaws : Prop := mkWindowLaws {
  toggle_self : ∀ item h, menuChecked item (menuToggle item h) = negb (menuChecked item h);
  toggle_other : ∀ item item' h,
    item ≠ item' → menuChecked item (menuToggle item' h) = menuChecked item h;
  style_set : ∀ view z h, tabStyle view (setTabStyle view z h) = z;
  style_other : ∀ view view' z h,
    view ≠ view' → tabStyle view (setTabStyle view' z h) = tabStyle view h;
  style_bars : ∀ view view' z h, hasTabBar view (setTabStyle view' z h) = hasTabBar view h;
  style_top : ∀ view view' z h, tabBarTop view (setTabStyle view' z h) = tabBarTop view h;
  enableMenuItem_checks : ∀ item b, keepsChecks (enableMenuItem item b);
  drawMenuBar_checks : keepsChecks drawMenuBar;
  enableToolbarButton_checks : ∀ item b, keepsChecks (enableToolbarButton item b);
  navHide_checks : keepsChecks navHide;
  setTabStyle_checks : ∀ view z, keepsChecks (setTabStyle view z);
  tabSetStyle_checks : ∀ view, keepsChecks (tabSetStyle view);
  hideTabBar_checks : ∀ b, keepsChecks (hideTabBar b);
  tabSetCurFocus_checks : ∀ view z, keepsChecks (tabSetCurFocus view z);
  setViewFocus_checks : ∀ view, keepsChecks (setViewFocus view);
  setSel_checks : ∀ view a b, keepsChecks (setSel view a b);
  setZoom_checks : ∀ view z, keepsChecks (setZoom view z);
  tabSetStyle_tabs : ∀ view, keepsTabs (tabSetStyle view);
  hideTabBar_tabs : ∀ b, keepsTabs (hideTabBar b);
  tabSetCurFocus_tabs : ∀ view z, keepsTabs (tabSetCurFocus view z);
  setViewFocus_tabs : ∀ view, keepsTabs (setViewFocus view);
  navHide_views : keepsViews navHide;
  hideTabBar_views : ∀ b, keepsViews (hideTabBar b);
  setTabStyle_views : ∀ view z, keepsViews (setTabStyle view z);
  tabSetStyle_views : ∀ view, keepsViews (tabSetStyle view)
}.

Section Windows.

Hypothesis laws : WindowLaws.

Ltac keep_checks :=
  repeat first
    [ rewrite (enableMenuItem_checks laws) | rewrite (drawMenuBar_checks laws)
    | rewrite (enableToolbarButton_checks laws) | rewrite (navHide_checks laws)
    | rewrite (setTabStyle_checks laws) | rewrite (tabSetStyle_checks laws)
    | rewrite (hideTabBar_checks laws) | rewrite (tabSetCurFocus_checks laws)
    | rewrite (setViewFocus_checks laws) | rewrite (setSel_checks laws)
    | rewrite (setZoom_checks laws) ].

Lemma updatePluginMenu_checks pl : keepsChecks (updatePluginMenu pl).
Proof.
  intros item h. unfold updatePluginMenu. cbv zeta.
  destruct (hasToolbar _); by keep_checks.
Qed.

Lemma enableNppScrollCommands_checks b : keepsChecks (enableNppScrollCommands b).
Proof.
  intros item h. unfold enableNppScrollCommands. cbv zeta.
  destruct (hasToolbar _); by keep_checks.
Qed.

Lemma refreshTabBar_checks view : keepsChecks (refreshTabBar view).
Proof.
  intros item h. unfold refreshTabBar. destruct (_ && _); [|done]. by keep_checks.
Qed.

Lemma refreshTabBars_checks : keepsChecks refreshTabBars.
Proof.
  intros item h. unfold refreshTabBars. cbv zeta. keep_checks.
  destruct (hasTabBar MAIN_VIEW _); rewrite ?refreshTabBar_checks;
    destruct (hasTabBar SUB_VIEW _); by rewrite ?refreshTabBar_checks.
Qed.

Lemma toSingleLineTab_checks np h item :
  menuChecked item (toSingleLineTab np h).2 = menuChecked item h.
Proof.
  unfold toSingleLineTab.
  destruct (negb _); [|done]. destruct (_ && _); [|done].
  destruct (_ =? _); [|done]. destruct (_ && _); [|done].
  cbn [snd]. rewrite refreshTabBars_checks. by keep_checks.
Qed.

Lemma toSingleLineTab_sync np h :
  _syncVScroll (toSingleLineTab np h).1 = _syncVScroll np ∧
  _syncHScroll (toSingleLineTab np h).1 = _syncHScroll np ∧
  compareMode (toSingleLineTab np h).1 = compareMode np.
Proof.
  unfold toSingleLineTab.
  destruct (negb _); [|done]. destruct (_ && _); [|done].
  destruct (_ =? _); [|done]. by destruct (_ && _).
Qed.

Lemma restoreMultilineTab_checks np h item :
  menuChecked item (restoreMultilineTab np h).2 = menuChecked item h.
Proof.
  unfold restoreMultilineTab. destruct (_restoreMultilineTab np); [|done].
  cbn [snd]. destruct (_ && _); [|done]. by keep_checks.
Qed.

Lemma restoreMultilineTab_sync np h :
  _syncVScroll (restoreMultilineTab np h).1 = _syncVScroll np ∧
  _syncHScroll (restoreMultilineTab np h).1 = _syncHScroll np ∧
  compareMode (restoreMultilineTab np h).1 = compareMode np ∧
  _restoreMultilineTab (restoreMultilineTab np h).1 = false.
Proof.
  unfold restoreMultilineTab. by destruct (_restoreMultilineTab np) eqn:E.
Qed.

Lemma restoreMultilineTab_views np h :
  isSingleView (restoreMultilineTab np h).2 = isSingleView h.
Proof.
  unfold restoreMultilineTab. destruct (_restoreMultilineTab np); [|done].
  cbn [snd]. destruct (_ && _); [|done].
  repeat first [ rewrite (hideTabBar_views laws) | rewrite (tabSetStyle_views laws)
               | rewrite (setTabStyle_views laws) ].
  done.
Qed.

Lemma restoreSync_same item saved h : menuChecked item (restoreSync item saved h) = saved.
Proof.
  unfold restoreSync. destruct (menuChecked item h) eqn:E, saved; simpl;
    rewrite ?(toggle_self laws), ?E; done.
Qed.

Lemma restoreSync_other item item' saved h :
  item ≠ item' → menuChecked item (restoreSync item' saved h) = menuChecked item h.
Proof.
  intros Hne. unfold restoreSync. destruct (negb _); [|done].
  by apply (toggle_other laws).
Qed.

(** X13: entering compare mode saves the two scroll checks of
    Notepad++, switches its vertical scroll synchronisation off and the
    horizontal one on; leaving compare mode with both views in use puts
    both checks back as they were saved, whatever became of them in
    between, while with a single view it leaves them as it finds them.
    Entering compare mode twice, or leaving it twice, does nothing more
    than once. *)
Theorem scroll_sync_round_trip (clear force : bool) (pl : Plugin) (h : Host) :
  compareMode (nppSettings pl) = false →
  let entered := setCompareMode clear pl h in
  compareMode (nppSettings entered.1) = true ∧
  _syncVScroll (nppSettings entered.1) = menuChecked IDM_VIEW_SYNSCROLLV h ∧
  _syncHScroll (nppSettings entered.1) = menuChecked IDM_VIEW_SYNSCROLLH h ∧
  menuChecked IDM_VIEW_SYNSCROLLV entered.2 = false ∧
  menuChecked IDM_VIEW_SYNSCROLLH entered.2 = true ∧
  setCompareMode clear entered.1 entered.2 = entered ∧
  ∀ h', let left := setNormalMode force entered.1 h' in
        compareMode (nppSettings left.1) = false ∧
        (isSingleView h' = false →
           menuChecked IDM_VIEW_SYNSCROLLV left.2 = menuChecked IDM_VIEW_SYNSCROLLV h ∧
           menuChecked IDM_VIEW_SYNSCROLLH left.2 = menuChecked IDM_VIEW_SYNSCROLLH h) ∧
        (isSingleView h' = true →
           menuChecked IDM_VIEW_SYNSCROLLV left.2 = menuChecked IDM_VIEW_SYNSCROLLV h' ∧
           menuChecked IDM_VIEW_SYNSCROLLH left.2 = menuChecked IDM_VIEW_SYNSCROLLH h') ∧
        setNormalMode false left.1 left.2 = left.
Proof.
  intros Hmode entered.
  assert (Hne : IDM_VIEW_SYNSCROLLV ≠ IDM_VIEW_SYNSCROLLH) by done.
  assert (Hne' : IDM_VIEW_SYNSCROLLH ≠ IDM_VIEW_SYNSCROLLV) by done.
  unfold entered, setCompareMode. rewrite Hmode.
  set (np1 := save _ h).
  pose proof (toSingleLineTab_sync np1 h) as (HV & HH & HM).
  pose proof (toSingleLineTab_checks np1 h) as Hkeep.
  destruct (toSingleLineTab np1 h) as [np h1]. cbn [fst snd] in *.
  assert (HM' : compareMode np = true) by by rewrite HM.
  set (h2 := if clear then _ else h1).
  assert (H2 : ∀ item, menuChecked item h2 = menuChecked item h).
  { intros item. unfold h2. destruct clear; [|apply Hkeep]. keep_checks. apply Hkeep. }
  set (h3 := if _syncVScroll np then _ else h2).
  set (h4 := if negb (_syncHScroll np) then _ else h3).
  assert (H3V : menuChecked IDM_VIEW_SYNSCROLLV h3 = false).
  { unfold h3. rewrite HV. simpl. rewrite <- (H2 IDM_VIEW_SYNSCROLLV).
    destruct (menuChecked IDM_VIEW_SYNSCROLLV h2) eqn:E; cbv iota; [|done].
    by rewrite (toggle_self laws), E. }
  assert (H3H : menuChecked IDM_VIEW_SYNSCROLLH h3 = menuChecked IDM_VIEW_SYNSCROLLH h).
  { unfold h3. destruct (_syncVScroll np); [|apply H2].
    rewrite (toggle_other laws) by done. apply H2. }
  assert (H4V : menuChecked IDM_VIEW_SYNSCROLLV h4 = false).
  { unfold h4. destruct (negb _); [|done]. by rewrite (toggle_other laws). }
  assert (H4H : menuChecked IDM_VIEW_SYNSCROLLH h4 = true).
  { unfold h4. rewrite HH. simpl. rewrite <- H3H.
    destruct (menuChecked IDM_VIEW_SYNSCROLLH h3) eqn:E; cbn [negb]; [done|].
    by rewrite (toggle_self laws), E. }
  cbn [fst snd nppSettings withNppSettings].
  split; [exact HM'|]. split; [by rewrite HV|]. split; [by rewrite HH|].
  split. { rewrite updatePluginMenu_checks, enableNppScrollCommands_checks. by keep_checks. }
  split. { rewrite updatePluginMenu_checks, enableNppScrollCommands_checks. by keep_checks. }
  split. { by rewrite HM'. }
  intros h'. unfold setNormalMode. cbn [nppSettings withNppSettings]. rewrite HM'.
  set (np0 := withCompareMode false np).
  pose proof (restoreMultilineTab_sync np0 h') as (RV & RH & RM & RT).
  pose proof (restoreMultilineTab_checks np0 h') as Rkeep.
  pose proof (restoreMultilineTab_views np0 h') as Rviews.
  destruct (restoreMultilineTab np0 h') as [np' h1']. cbn [fst snd] in *.
  change (_syncVScroll np0) with (_syncVScroll np) in RV.
  change (_syncHScroll np0) with (_syncHScroll np) in RH.
  change (compareMode np0) with false in RM.
  set (g2 := if navVisible h1' then navHide h1' else h1').
  assert (G2 : ∀ item, menuChecked item g2 = menuChecked item h').
  { intros item. unfold g2. destruct (navVisible h1'); [|apply Rkeep].
    rewrite (navHide_checks laws). apply Rkeep. }
  assert (G2v : isSingleView g2 = isSingleView h').
  { unfold g2. destruct (navVisible h1'); [|done]. by rewrite (navHide_views laws). }
  cbn [fst snd nppSettings withNppSettings]. rewrite G2v.
  split; [by rewrite RM|]. split; [|split].
  - intros Hdouble. rewrite Hdouble. cbn [negb].
    rewrite !updatePluginMenu_checks, restoreSync_other, !restoreSync_same by done.
    rewrite RV, RH, HV, HH. done.
  - intros Hsingle. rewrite Hsingle. cbn [negb].
    by rewrite !updatePluginMenu_checks, !G2.
  - by rewrite RM.
Qed.

(** *** The styles of the tab bars *)

Lemma tabStyle_kept (f : Host → Host) view h :
  keepsTabs f → tabStyle view (f h) = tabStyle view h.
Proof. intros Hf. apply Hf. Qed.

Lemma hasTabBar_kept (f : Host → Host) view h :
  keepsTabs f → hasTabBar view (f h) = hasTabBar view h.
Proof. intros Hf. apply Hf. Qed.

Ltac keep_tabs :=
  repeat first
    [ rewrite (tabStyle_kept (tabSetStyle _)) by apply (tabSetStyle_tabs laws)
    | rewrite (tabStyle_kept (hideTabBar _)) by apply (hideTabBar_tabs laws)
    | rewrite (tabStyle_kept (tabSetCurFocus _ _)) by apply (tabSetCurFocus_tabs laws)
    | rewrite (tabStyle_kept (setViewFocus _)) by apply (setViewFocus_tabs laws)
    | rewrite (hasTabBar_kept (tabSetStyle _)) by apply (tabSetStyle_tabs laws)
    | rewrite (hasTabBar_kept (hideTabBar _)) by apply (hideTabBar_tabs laws)
    | rewrite (hasTabBar_kept (tabSetCurFocus _ _)) by apply (tabSetCurFocus_tabs laws)
    | rewrite (hasTabBar_kept (setViewFocus _)) by apply (setViewFocus_tabs laws)
    | rewrite (style_bars laws)
    | rewrite (style_set laws)
    | rewrite (style_other laws) by done ].

Lemma refreshTabBar_tabs view : keepsTabs (refreshTabBar view).
Proof.
  intros v h. unfold refreshTabBar. destruct (_ && _); [|done]. by keep_tabs.
Qed.

Lemma refreshTabBars_tabs : keepsTabs refreshTabBars.
Proof.
  intros v h. unfold refreshTabBars. cbv zeta. keep_tabs.
  destruct (hasTabBar MAIN_VIEW _);
    rewrite ?(tabStyle_kept (refreshTabBar _)), ?(hasTabBar_kept (refreshTabBar _))
      by apply refreshTabBar_tabs;
    destruct (hasTabBar SUB_VIEW _);
    rewrite ?(tabStyle_kept (refreshTabBar _)), ?(hasTabBar_kept (refreshTabBar _))
      by apply refreshTabBar_tabs; done.
Qed.

Lemma multiline_cleared_set s :
  Z.lor (Z.land s (Z.lnot TCS_MULTILINE)) TCS_MULTILINE = Z.lor s TCS_MULTILINE.
Proof.
  apply Z.bits_inj'. intros n Hn.
  rewrite !Z.lor_spec, Z.land_spec, Z.lnot_spec by done.
  destruct (Z.testbit s n), (Z.testbit TCS_MULTILINE n); done.
Qed.

Lemma multiline_set s : has_flag s TCS_MULTILINE = true → Z.lor s TCS_MULTILINE = s.
Proof.
  unfold has_flag. intros Hs. apply negb_true_iff, Z.eqb_neq in Hs.
  change TCS_MULTILINE with (2 ^ 9) in *.
  assert (H9 : Z.testbit s 9 = true).
  { destruct (Z.testbit s 9) eqn:E; [done|]. exfalso. apply Hs.
    apply Z.bits_inj'. intros n Hn.
    rewrite Z.land_spec, Z.pow2_bits_eqb, Z.bits_0 by lia.
    destruct (9 =? n) eqn:E9; [|by rewrite andb_false_r].
    apply Z.eqb_eq in E9. subst n. by rewrite E. }
  apply Z.bits_inj'. intros n Hn.
  rewrite Z.lor_spec, Z.pow2_bits_eqb by lia.
  destruct (9 =? n) eqn:E9; [|by rewrite orb_false_r].
  apply Z.eqb_eq in E9. subst n. by rewrite H9.
Qed.

(** Whether [toSingleLineTab] finds tab bars to change. *)
Definition multilineTabs (h : Host) : bool :=
  hasTabBar MAIN_VIEW h && hasTabBar SUB_VIEW h
  && (tabBarTop MAIN_VIEW h =? tabBarTop SUB_VIEW h)
  && (has_flag (tabStyle MAIN_VIEW h) TCS_MULTILINE
      && negb (has_flag (tabStyle MAIN_VIEW h) TCS_VERTICAL)).

Lemma toSingleLineTab_cases np h :
  _restoreMultilineTab np = false →
  (multilineTabs h = false ∧ toSingleLineTab np h = (np, h)) ∨
  (multilineTabs h = true ∧
   hasTabBar MAIN_VIEW h && hasTabBar SUB_VIEW h = true ∧
   has_flag (tabStyle MAIN_VIEW h) TCS_MULTILINE = true ∧
   ∃ h1, toSingleLineTab np h = (withRestoreMultilineTab true np, refreshTabBars h1) ∧
         (∀ view, hasTabBar view h1 = hasTabBar view h) ∧
         tabStyle MAIN_VIEW h1 = Z.land (tabStyle MAIN_VIEW h) (Z.lnot TCS_MULTILINE) ∧
         tabStyle SUB_VIEW h1 = Z.land (tabStyle SUB_VIEW h) (Z.lnot TCS_MULTILINE)).
Proof.
  intros Hflag. unfold toSingleLineTab, multilineTabs. rewrite Hflag. cbn [negb].
  destruct (hasTabBar MAIN_VIEW h && hasTabBar SUB_VIEW h) eqn:Hbars; [|by left].
  destruct (tabBarTop MAIN_VIEW h =? tabBarTop SUB_VIEW h); [|by left].
  destruct (has_flag (tabStyle MAIN_VIEW h) TCS_MULTILINE
            && negb (has_flag (tabStyle MAIN_VIEW h) TCS_VERTICAL)) eqn:Hstyle; [|by left].
  apply andb_true_iff in Hstyle as [Hmulti _].
  right. split; [done|]. split; [done|]. split; [done|].
  eexists. split; [reflexivity|]. split; [|split].
  - intros view. by keep_tabs.
  - by keep_tabs.
  - by keep_tabs.
Qed.

(** X14: the tab bars go to single-line tabs only when both exist, lie
    side by side and the main one shows several lines of horizontal
    tabs; [toSingleLineTab] then takes [TCS_MULTILINE] off both styles
    and notes that it did, and [restoreMultilineTab] gives the main tab
    bar its style back bit for bit, and the tab bar of the sub view its
    style with [TCS_MULTILINE] set, whether or not it was set before.
    Where the tab bars were left alone there is nothing to restore, and
    a second [toSingleLineTab] does nothing. *)
Theorem multiline_tabs_round_trip (np : NppSettings) (h : Host) :
  _restoreMultilineTab np = false →
  let single := toSingleLineTab np h in
  let multi := restoreMultilineTab single.1 single.2 in
  _restoreMultilineTab single.1 = multilineTabs h ∧
  toSingleLineTab single.1 single.2 = single ∧
  _restoreMultilineTab multi.1 = false ∧
  (multilineTabs h = false → single = (np, h) ∧ multi = (np, h)) ∧
  (multilineTabs h = true →
     tabStyle MAIN_VIEW single.2 = Z.land (tabStyle MAIN_VIEW h) (Z.lnot TCS_MULTILINE) ∧
     tabStyle SUB_VIEW single.2 = Z.land (tabStyle SUB_VIEW h) (Z.lnot TCS_MULTILINE) ∧
     tabStyle MAIN_VIEW multi.2 = tabStyle MAIN_VIEW h ∧
     tabStyle SUB_VIEW multi.2 = Z.lor (tabStyle SUB_VIEW h) TCS_MULTILINE).
Proof.
  intros Hflag single multi.
  assert (Hne : MAIN_VIEW ≠ SUB_VIEW) by done.
  assert (Hne' : SUB_VIEW ≠ MAIN_VIEW) by done.
  destruct (toSingleLineTab_cases np h Hflag)
    as [[Hno Hsame]|(Hyes & Hbars & Hmulti & h1 & Hsingle & Hbars1 & Hmain1 & Hsub1)].
  - unfold multi, single. rewrite Hsame, Hno. cbn [fst snd]. rewrite Hsame.
    unfold restoreMultilineTab. rewrite Hflag. done.
  - unfold multi, single. rewrite Hsingle, Hyes. cbn [fst snd].
    set (done1 := refreshTabBars h1).
    assert (Hmain : tabStyle MAIN_VIEW done1
                    = Z.land (tabStyle MAIN_VIEW h) (Z.lnot TCS_MULTILINE)).
    { unfold done1. by rewrite (tabStyle_kept refreshTabBars) by apply refreshTabBars_tabs. }
    assert (Hsub : tabStyle SUB_VIEW done1
                   = Z.land (tabStyle SUB_VIEW h) (Z.lnot TCS_MULTILINE)).
    { unfold done1. by rewrite (tabStyle_kept refreshTabBars) by apply refreshTabBars_tabs. }
    assert (Hbars' : hasTabBar MAIN_VIEW done1 && hasTabBar SUB_VIEW done1 = true).
    { unfold done1. rewrite !(hasTabBar_kept refreshTabBars) by apply refreshTabBars_tabs.
      by rewrite !Hbars1. }
    unfold toSingleLineTab, restoreMultilineTab.
    cbn [fst snd _restoreMultilineTab withRestoreMultilineTab negb]. rewrite Hbars'.
    split; [done|]. split; [done|]. split; [done|]. split; [done|]. intros _.
    split; [exact Hmain|]. split; [exact Hsub|]. split.
    + keep_tabs. rewrite Hmain, multiline_cleared_set. by apply multiline_set.
    + keep_tabs. rewrite Hsub. apply multiline_cleared_set.
Qed.

End Windows.

(** *** What the handlers keep of the plugin *)

Lemma toSingleLineTab_mode np h : compareMode (toSingleLineTab np h).1 = compareMode np.
Proof.
  unfold toSingleLineTab.
  destruct (negb _); [|done]. destruct (_ && _); [|done].
  destruct (_ =? _); [|done]. by destruct (_ && _).
Qed.

Lemma setNormalMode_settings force pl h :
  ∃ np, (setNormalMode force pl h).1 = withNppSettings np pl ∧
        (compareMode (nppSettings pl) = true ∨ force = true →
           compareMode np = false ∧ _restoreMultilineTab np = false) ∧
        (compareMode (nppSettings pl) = false → compareMode np = false).
Proof.
  unfold setNormalMode. destruct (compareMode (nppSettings pl)) eqn:Hmode.
  - unfold restoreMultilineTab. cbn [_restoreMultilineTab withCompareMode].
    destruct (_restoreMultilineTab (nppSettings pl)) eqn:E; eexists; (split; [done|]);
      split; try done; intros _; cbn; by rewrite ?E.
  - destruct force.
    + unfold restoreMultilineTab.
      destruct (_restoreMultilineTab (nppSettings pl)) eqn:E; eexists; (split; [done|]);
        split; try done; intros _; cbn; by rewrite ?E, ?Hmode.
    + exists (nppSettings pl). split; [by destruct pl|]. split; [|done].
      by intros [?|?].
Qed.

Lemma setCompareMode_settings clear pl h :
  ∃ np, (setCompareMode clear pl h).1 = withNppSettings np pl ∧ compareMode np = true.
Proof.
  unfold setCompareMode. destruct (compareMode (nppSettings pl)) eqn:Hmode.
  - exists (nppSettings pl). split; [by destruct pl|done].
  - pose proof (toSingleLineTab_mode (save (withCompareMode true (nppSettings pl)) h) h) as Hm.
    destruct (toSingleLineTab _ h) as [np h1]. exists np. split; [done|]. exact Hm.
Qed.

Lemma onBufferActivated_keeps buff pl h :
  let r := onBufferActivated buff pl h in
  compareList r.1 = compareList pl ∧ newCompare r.1 = newCompare pl ∧
  storedLocation r.1 = storedLocation pl ∧ goToFirst r.1 = goToFirst pl ∧
  notificationsLock r.1 = notificationsLock pl ∧
  delayedAlignment (timers r.1) = None ∧
  delayedClosure (timers r.1) = delayedClosure (timers pl) ∧
  closedBuffs (timers r.1) = closedBuffs (timers pl) ∧
  delayedUpdate (timers r.1) = delayedUpdate (timers pl) ∧
  delayedMaximize (timers r.1) = delayedMaximize (timers pl).
Proof.
  unfold onBufferActivated. cbn [compareList withTimers].
  destruct (getCompare buff (compareList pl)); [done|].
  set (pl1 := withTimers _ pl).
  destruct (setNormalMode_settings false pl1 h) as (np & Hnp & _).
  destruct (setNormalMode false pl1 h) as [pl2 h1]. cbn [fst snd] in *. by rewrite Hnp.
Qed.

(** *** Before a compared file closes *)

Lemma closedPos_nonneg pos relPos : 0 <= closedPos pos relPos.
Proof. unfold closedPos. cbv zeta. destruct (_ <? 0) eqn:E; [done|]. by apply Z.ltb_ge in E. Qed.

Lemma closedPos_small pos relPos :
  Int.in_range (pos + relPos - 1) → Int.in_range (pos + relPos + 1) →
  closedPos pos relPos
  = Z.max 0 (if relPos >? 0 then pos + relPos - 1 else pos + relPos + 1).
Proof.
  unfold Int.in_range, Int.int_min, Int.int_max. intros Hlo Hhi.
  assert (Hadd : Int.add pos relPos = pos + relPos).
  { apply Int.wrap_small. unfold Int.in_range, Int.int_min, Int.int_max. lia. }
  unfold closedPos. cbv zeta. rewrite Hadd.
  destruct (relPos >? 0).
  - rewrite Int.decr_small by (unfold Int.int_min, Int.int_max; lia).
    destruct (_ <? 0) eqn:E; [apply Z.ltb_lt in E|apply Z.ltb_ge in E]; lia.
  - rewrite Int.incr_small by (unfold Int.int_min, Int.int_max; lia).
    destruct (_ <? 0) eqn:E; [apply Z.ltb_lt in E|apply Z.ltb_ge in E]; lia.
Qed.

Lemma setOtherOriginalPos_files buff pos p :
  getFileByBuffId (setOtherOriginalPos buff pos p) buff = getFileByBuffId p buff ∧
  getOtherFileByBuffId (setOtherOriginalPos buff pos p) buff
  = setOriginalPos pos (getOtherFileByBuffId p buff) ∧
  buffId (file0 (setOtherOriginalPos buff pos p)) = buffId (file0 p) ∧
  buffId (file1 (setOtherOriginalPos buff pos p)) = buffId (file1 p).
Proof.
  unfold setOtherOriginalPos, getFileByBuffId, getOtherFileByBuffId.
  destruct (buffId (file0 p) =? buff) eqn:E; simpl; by rewrite E.
Qed.

Lemma findPair_insert_same test (l : CompareList_t) i p p' :
  l !! i = Some p → test p' = test p → findPair test (<[i := p']> l) = findPair test l.
Proof.
  revert i. induction l as [|q l IH]; intros [|i] Hp Ht; simpl in *; try done.
  - injection Hp as ->. by rewrite Ht.
  - by rewrite (IH i Hp Ht).
Qed.

(** X15: [onFileBeforeClose] leaves a buffer alone that no pair holds.
    For a buffer of pair [i] it cancels the alignment, update and
    activation timers, puts the buffer at the end of the closed buffers
    and posts the delayed close; the pair stays registered with its two
    buffers, so every buffer is found in the registry as before. The pair
    changes only when its [relativePos] is not zero and the closing file
    sits in its original view: then the other file gets, as its original
    position, the tab position of the closing file plus [relativePos],
    one step closer to the closing file, and never less than zero. *)
Theorem file_before_close (buff : Z) (pl : Plugin) (h : Host) :
  match getCompare buff (compareList pl) with
  | None => onFileBeforeClose buff pl h = (pl, h)
  | Some i =>
      ∃ p p', compareList pl !! i = Some p ∧
        let r := onFileBeforeClose buff pl h in
        let h1 := onBeforeClose (getFileByBuffId p buff) h in
        let pos := posFromBuffId buff h1 in
        let adjusts :=
          negb (relativePos p =? 0)
          && view_eqb (originalViewId (getFileByBuffId p buff)) (viewIdFromBuffId buff h1) in
        let other' := getOtherFileByBuffId p' buff in
        compareList r.1 = <[i := p']> (compareList pl) ∧
        (∀ b, getCompare b (compareList r.1) = getCompare b (compareList pl)) ∧
        closedBuffs (timers r.1) = closedBuffs (timers pl) ++ [buff] ∧
        delayedClosure (timers r.1) = Some 30 ∧
        delayedAlignment (timers r.1) = None ∧
        delayedActivation (timers r.1) = None ∧
        Scheduler.isPending (delayedUpdate (timers r.1)) = false ∧
        getFileByBuffId p' buff = getFileByBuffId p buff ∧
        (adjusts = false → p' = p) ∧
        (adjusts = true →
           other' = setOriginalPos (closedPos pos (relativePos p))
                                   (getOtherFileByBuffId p buff) ∧
           0 <= originalPos other' ∧
           (Int.in_range (pos + relativePos p - 1) →
            Int.in_range (pos + relativePos p + 1) →
            originalPos other'
            = Z.max 0 (if relativePos p >? 0 then pos + relativePos p - 1
                       else pos + relativePos p + 1)))
  end.
Proof.
  unfold onFileBeforeClose.
  destruct (getCompare buff (compareList pl)) as [i|] eqn:Hi; [|done].
  pose proof (findPair_bound _ _ _ Hi) as Hlt.
  destruct (lookup_lt_is_Some_2 (compareList pl) i Hlt) as [p Hp]. rewrite Hp.
  set (h1 := onBeforeClose (getFileByBuffId p buff) h).
  set (adjusts := negb (relativePos p =? 0) && _).
  set (p' := if adjusts then _ else p).
  exists p, p'. split; [done|]. cbv zeta. fold h1. fold adjusts.
  cbn [fst snd compareList withCompareList withTimers timers].
  assert (Hb : buffId (file0 p') = buffId (file0 p) ∧ buffId (file1 p') = buffId (file1 p)).
  { unfold p'. destruct adjusts; [|done]. apply setOtherOriginalPos_files. }
  split; [done|]. split.
  { intros b. unfold getCompare. apply (findPair_insert_same _ _ i p p' Hp).
    apply hasBuff_same; apply Hb. }
  split; [done|]. split; [done|]. split; [done|]. split; [done|]. split; [done|].
  unfold p'. destruct adjusts eqn:Hadj.
  - destruct (setOtherOriginalPos_files buff
                (closedPos (posFromBuffId buff h1) (relativePos p)) p) as (F1 & F2 & _).
    split; [exact F1|]. split; [done|]. intros _.
    split; [exact F2|]. rewrite F2. split; [apply closedPos_nonneg|].
    intros R1 R2. by apply closedPos_small.
  - split; [done|]. split; [done|]. done.
Qed.

(** *** After the compared files have closed *)

(** The number of pairs that hold a buffer. *)
Fixpoint holders (buff : Z) (l : CompareList_t) : nat :=
  match l with
  | [] => O
  | p :: l' => ((if hasBuff buff p then 1 else 0) + holders buff l')%nat
  end.

Lemma holders_none buff l : holders buff l = O → getCompare buff l = None.
Proof.
  unfold getCompare. induction l as [|p l IH]; simpl; [done|].
  destruct (hasBuff buff p); [done|]. simpl. intros Hl. by rewrite IH.
Qed.

Lemma getCompare_none_holders buff l : getCompare buff l = None → holders buff l = O.
Proof.
  unfold getCompare. induction l as [|p l IH]; simpl; [done|].
  destruct (hasBuff buff p); [done|]. simpl.
  destruct (findPair (hasBuff buff) l); [done|]. intros _. by apply IH.
Qed.

Lemma holders_delete buff l : ∀ i p,
  l !! i = Some p →
  holders buff l = ((if hasBuff buff p then 1 else 0) + holders buff (delete i l))%nat.
Proof.
  induction l as [|q l IH]; intros [|i] p Hp; simpl in *; try done.
  - by injection Hp as ->.
  - rewrite (IH i p Hp). lia.
Qed.

Lemma elem_of_delete_other (l : CompareList_t) : ∀ i p q,
  l !! i = Some p → q ∈ l → q ≠ p → q ∈ delete i l.
Proof.
  induction l as [|x l IH]; intros [|i] p q Hp Hq Hne; simpl in *; try done.
  - injection Hp as ->. by apply elem_of_cons in Hq as [?|?].
  - apply elem_of_cons in Hq as [->|Hq]; [apply list_elem_of_here|].
    apply list_elem_of_further. by apply (IH i p).
Qed.

Lemma getCompare_holder buff l i :
  getCompare buff l = Some i → ∃ p, l !! i = Some p ∧ hasBuff buff p = true.
Proof.
  unfold getCompare. revert i. induction l as [|q l IH]; intros i; simpl; [done|].
  destruct (hasBuff buff q) eqn:Hq; [intros [= <-]; by exists q|].
  destruct (findPair (hasBuff buff) l) as [j|]; simpl; [|done].
  intros [= <-]. by apply IH.
Qed.

Lemma closeLoop_registry buffs : ∀ l h,
  let r := closeLoop buffs l h in
  r.1 `sublist_of` l ∧
  (∀ b, (holders b r.1 ≤ holders b l)%nat) ∧
  (∀ b, b ∈ buffs → (holders b l ≤ 1)%nat → holders b r.1 = O) ∧
  (∀ q, q ∈ l → (∀ b, b ∈ buffs → hasBuff b q = false) → q ∈ r.1).
Proof.
  induction buffs as [|buff rest IH]; intros l h; simpl.
  - split; [done|]. split; [done|]. split; [|done]. by intros b ?%elem_of_nil.
  - destruct (getCompare buff l) as [i|] eqn:Hi.
    + destruct (getCompare_holder buff l i Hi) as (p & Hp & Hin). rewrite Hp.
      set (h2 := if isTempFile (isTemp (getOtherFileByBuffId p buff)) then _ else _).
      destruct (IH (delete i l) h2) as (G1 & G2 & G3 & G4).
      assert (Hdel : ∀ b, (holders b (delete i l) ≤ holders b l)%nat).
      { intros b. rewrite (holders_delete b l i p Hp). lia. }
      split; [|split; [|split]].
      * etrans; [exact G1|apply sublist_delete].
      * intros b. etrans; [apply G2|apply Hdel].
      * intros b [->|Hb]%elem_of_cons Hone.
        -- pose proof (holders_delete buff l i p Hp) as Hh. rewrite Hin in Hh.
           pose proof (G2 buff). lia.
        -- apply G3; [done|]. pose proof (Hdel b). lia.
      * intros q Hq Hnone. apply G4.
        -- apply (elem_of_delete_other l i p q Hp Hq). intros ->.
           rewrite (Hnone buff) in Hin; [done|apply list_elem_of_here].
        -- intros b Hb. apply Hnone. by apply list_elem_of_further.
    + destruct (IH l h) as (G1 & G2 & G3 & G4).
      split; [done|]. split; [done|]. split.
      * intros b [->|Hb]%elem_of_cons Hone; [|by apply G3].
        pose proof (getCompare_none_holders buff l Hi). pose proof (G2 buff). lia.
      * intros q Hq Hnone. apply G4; [done|].
        intros b Hb. apply Hnone. by apply list_elem_of_further.
Qed.

(** X16: when the delayed close fires, the registry loses, for each
    closed buffer, the first pair that holds it, and nothing else: the
    pairs left are pairs of the registry in their order, every pair that
    holds none of the closed buffers is still there, and a closed buffer
    that at most one pair held is compared no more. The list of closed
    buffers is empty afterwards and the timer idle. *)
Theorem delayed_close_forgets (pl : Plugin) (h : Host) :
  let r := runDelayedClose pl h in
  closedBuffs (timers r.1) = [] ∧
  delayedClosure (timers r.1) = None ∧
  compareList r.1 `sublist_of` compareList pl ∧
  (∀ b, b ∈ closedBuffs (timers pl) → (holders b (compareList pl) ≤ 1)%nat →
        getCompare b (compareList r.1) = None) ∧
  (∀ q, q ∈ compareList pl →
        (∀ b, b ∈ closedBuffs (timers pl) → hasBuff b q = false) →
        q ∈ compareList r.1).
Proof.
  unfold runDelayedClose.
  cbn [timers withTimers closedBuffs withClosure compareList].
  destruct (closeLoop_registry (reverse (closedBuffs (timers pl))) (compareList pl) h)
    as (G1 & G2 & G3 & G4).
  destruct (closeLoop _ (compareList pl) h) as [l h1]. cbn [fst snd] in *.
  set (pl1 := withTimers _ (withCompareList l _)).
  pose proof (onBufferActivated_keeps (getCurrentBuffId h) pl1
                (activateBufferID (getCurrentBuffId h) h1))
    as (K1 & _ & _ & _ & _ & _ & K2 & K3 & _).
  destruct (onBufferActivated _ pl1 _) as [pl2 h2]. cbn [fst snd] in *.
  assert (Hgoal : closedBuffs (timers pl2) = [] ∧ delayedClosure (timers pl2) = None ∧
                  compareList pl2 = l).
  { by rewrite K1, K2, K3. }
  destruct Hgoal as (E1 & E2 & E3).
  assert (Hall : closedBuffs (timers pl2) = [] ∧
    delayedClosure (timers pl2) = None ∧
    compareList pl2 `sublist_of` compareList pl ∧
    (∀ b, b ∈ closedBuffs (timers pl) → (holders b (compareList pl) ≤ 1)%nat →
          getCompare b (compareList pl2) = None) ∧
    (∀ q, q ∈ compareList pl →
          (∀ b, b ∈ closedBuffs (timers pl) → hasBuff b q = false) →
          q ∈ compareList pl2)).
  { rewrite E3. split; [done|]. split; [done|]. split; [done|]. split.
    - intros b Hb Hone. apply holders_none. apply G3; [|done]. by rewrite elem_of_reverse.
    - intros q Hq Hnone. apply G4; [done|]. intros b Hb. apply Hnone.
      by rewrite elem_of_reverse in Hb. }
  by destruct (_ && _).
Qed.

(** *** Saving, activating, aligning and clearing *)

Lemma onSciModifiedUpdate_full lineFromPosition compared n du :
  Scheduler.fullCompare du = true →
  (Scheduler.onSciModifiedUpdate lineFromPosition compared n du).1 = du ∧
  ∀ e, e ∈ (Scheduler.onSciModifiedUpdate lineFromPosition compared n du).2 →
       ∃ startLine len, e = Scheduler.ClearMarks startLine len.
Proof.
  intros Hfull. unfold Scheduler.onSciModifiedUpdate. rewrite Hfull. cbn [negb].
  destruct (negb compared); [split; [done|by intros e ?%elem_of_nil]|].
  destruct (has_flag _ SC_MOD_BEFOREDELETE).
  - destruct (_ >? _); cbn [fst snd]; (split; [done|]); intros e He.
    + apply list_elem_of_singleton in He as ->. by eexists _, _.
    + by apply elem_of_nil in He.
  - destruct (has_flag _ _); split; try done; by intros e ?%elem_of_nil.
Qed.

Lemma burst_full lineFromPosition ns : ∀ du,
  Scheduler.fullCompare du = true → Scheduler.burst lineFromPosition ns du = du.
Proof.
  induction ns as [|n ns IH]; intros du Hfull; simpl; [done|].
  destruct (onSciModifiedUpdate_full lineFromPosition true n du Hfull) as [-> _].
  by apply IH.
Qed.

(** X17: a save of a file of pair [i] while one of the pair's files is
    the current buffer, with [RecompareOnSave] set, cancels a pending
    alignment and posts the delayed update as a full compare; from then
    on no edit changes the delayed update or touches its timer (a
    deletion of lines still clears their markers), the counters it had
    are dropped when it fires, and the registry is as it was. Without
    [RecompareOnSave] the save leaves the plugin as it is. *)
Theorem save_requests_full_compare (buff : Z) (pl : Plugin) (h : Host) (i : nat)
        (p : ComparedPair) :
  getCompare buff (compareList pl) = Some i →
  compareList pl !! i = Some p →
  getCurrentBuffId h = buff ∨ getCurrentBuffId h = buffId (getOtherFileByBuffId p buff) →
  let r := onFileSaved true buff pl h in
  let du := delayedUpdate (timers pl) in
  let du' := delayedUpdate (timers r.1) in
  du' = Scheduler.mkUpdate (Some 30) (Scheduler.changePos du) (Scheduler.linesAdded du)
                           (Scheduler.linesDeleted du) true ∧
  delayedAlignment (timers r.1) = None ∧
  compareList r.1 = compareList pl ∧
  (∀ lineFromPosition ns, Scheduler.burst lineFromPosition ns du' = du') ∧
  (∀ lineFromPosition n e,
     e ∈ (Scheduler.onSciModifiedUpdate lineFromPosition true n du').2 →
     ∃ startLine len, e = Scheduler.ClearMarks startLine len) ∧
  Scheduler.fire du' = Scheduler.mkUpdate None (Scheduler.changePos du) 0 0 false ∧
  (onFileSaved false buff pl h).1 = pl.
Proof.
  intros Hi Hp Hactive r du du'.
  assert (Hpair : (getCurrentBuffId h =? buff)
                  || (getCurrentBuffId h =? buffId (getOtherFileByBuffId p buff)) = true).
  { apply orb_true_iff. destruct Hactive as [E|E]; [left|right]; by apply Z.eqb_eq. }
  assert (Hdu : du' = Scheduler.mkUpdate (Some 30) (Scheduler.changePos du)
                        (Scheduler.linesAdded du) (Scheduler.linesDeleted du) true).
  { unfold du', r, onFileSaved. rewrite Hi, Hp. cbv zeta. rewrite Hpair. done. }
  split; [exact Hdu|].
  split. { unfold r, onFileSaved. rewrite Hi, Hp. cbv zeta. rewrite Hpair. done. }
  split. { unfold r, onFileSaved. rewrite Hi, Hp. cbv zeta. rewrite Hpair. done. }
  split. { intros lfp ns. apply burst_full. by rewrite Hdu. }
  split. { intros lfp n e He.
           apply (onSciModifiedUpdate_full lfp true n du'); [by rewrite Hdu|done]. }
  split. { by rewrite Hdu. }
  unfold onFileSaved. rewrite Hi, Hp. cbv zeta. rewrite Hpair. done.
Qed.

Lemma comparedFileActivated_keeps settings pl h :
  let r := comparedFileActivated settings pl h in
  compareMode (nppSettings r.1) = true ∧
  storedLocation r.1 = Some (newViewLocation (getCurrentViewId r.2) r.2) ∧
  compareList r.1 = compareList pl ∧ goToFirst r.1 = goToFirst pl ∧
  timers r.1 = timers pl.
Proof.
  unfold comparedFileActivated.
  destruct (compareMode (nppSettings pl)) eqn:Hmode; cbn [negb].
  - cbn [fst snd]. split; [exact Hmode|done].
  - set (h1 := if _ && _ then _ else h).
    destruct (setCompareMode_settings false pl h1) as (np & Hnp & Hnpm).
    destruct (setCompareMode false pl h1) as [pl1 h2]. cbn [fst snd] in *.
    rewrite Hnp. done.
Qed.

(** X18: activating a buffer cancels the alignment and the activation
    timers. For a buffer that no pair holds the plugin leaves compare
    mode; for a buffer of a pair nothing else happens at once: the
    activation is posted for that buffer, and when it fires the plugin is
    in compare mode with the location of the current view stored, the
    registry and the jump flag being as they were. *)
Theorem activation_enters_compare_mode (settings : UserSettings) (buff : Z)
        (pl : Plugin) (h h' : Host) :
  let r := onBufferActivated buff pl h in
  delayedAlignment (timers r.1) = None ∧
  match getCompare buff (compareList pl) with
  | None =>
      delayedActivation (timers r.1) = None ∧
      compareMode (nppSettings r.1) = false ∧
      compareList r.1 = compareList pl
  | Some i =>
      r.2 = h ∧
      delayedActivation (timers r.1) = Some 30 ∧
      activationBuffId (timers r.1) = buff ∧
      nppSettings r.1 = nppSettings pl ∧
      let r' := runDelayedActivate settings r.1 h' in
      delayedActivation (timers r'.1) = None ∧
      compareMode (nppSettings r'.1) = true ∧
      storedLocation r'.1 = Some (newViewLocation (getCurrentViewId r'.2) r'.2) ∧
      compareList r'.1 = compareList pl ∧
      goToFirst r'.1 = goToFirst pl
  end.
Proof.
  intros r.
  split; [apply (onBufferActivated_keeps buff pl h)|].
  unfold r, onBufferActivated. cbn [compareList withTimers].
  destruct (getCompare buff (compareList pl)) as [i|] eqn:Hi.
  - cbn [fst snd timers withTimers]. split; [done|]. split; [done|]. split; [done|].
    split; [done|].
    unfold runDelayedActivate.
    cbn [timers withTimers compareList activationBuffId withActivation
            withActivationBuffId withAlignment].
    rewrite Hi.
    pose proof (findPair_bound _ _ _ Hi) as Hlt.
    destruct (lookup_lt_is_Some_2 (compareList pl) i Hlt) as [p Hp]. rewrite Hp.
    match goal with
    | |- context [comparedFileActivated settings ?a ?b] =>
        destruct (comparedFileActivated_keeps settings a b) as (G1 & G2 & G3 & G4 & G5)
    end.
    rewrite G1, G2, G3, G4, G5. done.
  - set (pl1 := withTimers _ pl).
    destruct (setNormalMode_settings false pl1 h) as (np & Hnp & Hon & Hoff).
    destruct (setNormalMode false pl1 h) as [pl2 h1]. cbn [fst snd] in *.
    rewrite Hnp. cbn. split; [done|]. split; [|done].
    destruct (compareMode (nppSettings pl)) eqn:Hmode.
    + apply Hon. by left.
    + by apply Hoff.
Qed.

(** X19: once the delayed alignment has fired for a pair with alignment
    records, no jump to the first difference is due any more, and the
    stored location is used up unless the jump was due (then it is kept
    as it was); the registry and the compare mode are as before. When the
    current buffer is not compared, or its pair has no alignment record,
    only the timer changes, and so it is when nothing is stored, no jump
    is due and neither view needs a new alignment. *)
Theorem delayed_align_flags (pl : Plugin) (h : Host) :
  let r := runDelayedAlign pl h in
  let idle := withTimers (withAlignment None (timers pl)) pl in
  delayedAlignment (timers r.1) = None ∧
  compareList r.1 = compareList pl ∧
  nppSettings r.1 = nppSettings pl ∧
  match getCompare (getCurrentBuffId h) (compareList pl) with
  | None => r = (idle, h)
  | Some i =>
      ∃ p, compareList pl !! i = Some p ∧
        match alignmentInfo p with
        | [] => r = (idle, h)
        | _ :: _ =>
            goToFirst r.1 = false ∧
            storedLocation r.1 = (if goToFirst pl then storedLocation pl else None) ∧
            (goToFirst pl = false → storedLocation pl = None →
             isAlignmentNeeded MAIN_VIEW h (alignmentInfo p) = false →
             isAlignmentNeeded SUB_VIEW h (alignmentInfo p) = false →
             r = (idle, h))
        end
  end.
Proof.
  intros r idle. unfold r, idle, runDelayedAlign.
  cbn [compareList withTimers].
  destruct (getCompare (getCurrentBuffId h) (compareList pl)) as [i|] eqn:Hi; [|done].
  pose proof (findPair_bound _ _ _ Hi) as Hlt.
  destruct (lookup_lt_is_Some_2 (compareList pl) i Hlt) as [p Hp]. rewrite Hp.
  destruct (alignmentInfo p) as [|a info] eqn:Hinfo.
  { split; [done|]. split; [done|]. split; [done|]. exists p. by rewrite Hinfo. }
  destruct pl as [cl nc sl go np lock tm].
  unfold withTimers, withStoredLocation, withGoToFirst.
  cbn [compareList newCompare storedLocation goToFirst nppSettings notificationsLock timers].
  destruct go, sl as [loc|],
    (isAlignmentNeeded MAIN_VIEW h (a :: info)) eqn:Em,
    (isAlignmentNeeded SUB_VIEW h (a :: info)) eqn:Es;
    cbn [negb compareList newCompare storedLocation goToFirst nppSettings
         notificationsLock timers];
    try destruct (jumpToFirstChange _) as [viewLoc h2];
    cbn [fst snd compareList newCompare storedLocation goToFirst nppSettings
         notificationsLock timers];
    (split; [done|]); (split; [done|]); (split; [done|]); exists p; rewrite Hinfo;
    (split; [done|]); (split; [done|]); (split; [done|]); try done;
    intros _ _ Hm Hs; congruence.
Qed.

Lemma releaseNewCompare_keeps pl h :
  (releaseNewCompare pl h).1 = withNewCompare None pl.
Proof. unfold releaseNewCompare. destruct pl as [? [?|] ?]; done. Qed.

(** X20: [ClearAllCompares] drops a pending first file. With an empty
    registry it does nothing else, so the mode stays as it is; otherwise
    it empties the registry and ends in normal mode with no multiline
    tab bar left to restore. In neither case does it touch a timer of
    the delayed work, the stored location or the jump flag. *)
Theorem clear_all_compares (pl : Plugin) (h : Host) :
  let r := ClearAllCompares pl h in
  compareList r.1 = [] ∧ newCompare r.1 = None ∧
  timers r.1 = timers pl ∧ storedLocation r.1 = storedLocation pl ∧
  goToFirst r.1 = goToFirst pl ∧
  (compareList pl = [] →
     nppSettings r.1 = nppSettings pl ∧ r.2 = (releaseNewCompare pl h).2) ∧
  (compareList pl ≠ [] →
     compareMode (nppSettings r.1) = false ∧
     _restoreMultilineTab (nppSettings r.1) = false).
Proof.
  intros r. unfold r, ClearAllCompares.
  pose proof (releaseNewCompare_keeps pl h) as Hrel.
  destruct (releaseNewCompare pl h) as [pl1 h1]. cbn [fst snd] in *. subst pl1.
  unfold noCompares. cbn [compareList withNewCompare].
  destruct (compareList pl) as [|p0 rest] eqn:Hlist.
  - cbn. rewrite Hlist. done.
  - cbn [length Nat.eqb].
    match goal with
    | |- context [setNormalMode true ?a ?b] =>
        destruct (setNormalMode_settings true a b) as (np & Hnp & Hon & _);
        destruct (setNormalMode true a b) as [pl2 h4]
    end.
    cbn [fst snd] in *. rewrite Hnp.
    destruct Hon as [Hm Hr]; [by right|].
    cbn. done.
Qed.

End WithShell.

(** *** A bench for concrete runs

    The desk of tabs together with the checks of the menu and the styles
    of the two tab bars. A menu command flips its check, a style set on a
    tab bar is kept, both tab bars exist and lie side by side; what is
    drawn only is left out. *)

Record Bench : Type := mkBench {
  desk   : Desk;
  checks : MenuItem → bool;
  styles : ViewId → Z
}.

Definition onDesk (f : Desk → Desk) (b : Bench) : Bench :=
  mkBench (f (desk b)) (checks b) (styles b).

#[local] Instance item_eq_dec : EqDecision MenuItem.
Proof. solve_decision. Defined.

#[local] Existing Instance deskNpp.

#[local] Instance benchNpp : Npp Bench := {
  getCurrentBuffId b := getCurrentBuffId (desk b);
  getCurrentViewId b := getCurrentViewId (desk b);
  viewIdFromBuffId buff b := viewIdFromBuffId buff (desk b);
  posFromBuffId buff b := posFromBuffId buff (desk b);
  getDocId view b := getDocId view (desk b);
  bufferOpen buff b := bufferOpen buff (desk b);
  isSingleView b := isSingleView (desk b);
  getNumberOfFiles view b := getNumberOfFiles view (desk b);
  getSelectionLines view b := getSelectionLines view (desk b);
  getEncoding buff b := getEncoding buff (desk b);
  answerYes q b := answerYes q (desk b);
  activateBufferID buff := onDesk (activateBufferID buff);
  menuCommand c := onDesk (menuCommand c);
  clearWindow view := onDesk (clearWindow view);
  setSavePoint view := onDesk (setSavePoint view);
  deleteFile buff := onDesk (deleteFile buff);
  ui c := onDesk (ui c);
  compareViews mainSection subSection settings b :=
    let '(result, info, d) := compareViews mainSection subSection settings (desk b) in
    (result, info, mkBench d (checks b) (styles b))
}.

#[local] Instance benchShell : Shell Bench := {
  enableMenuItem item enable b := b;
  drawMenuBar b := b;
  hasToolbar b := true;
  enableToolbarButton item enable b := b;
  menuChecked item b := checks b item;
  menuToggle item b :=
    mkBench (desk b)
            (λ i, if bool_decide (i = item) then negb (checks b i) else checks b i)
            (styles b);
  navVisible b := false;
  navHide b := b;
  navShow b := b;
  navUpdate b := b;
  hasTabBar view b := true;
  tabBarTop view b := 0;
  tabBarVisible view b := true;
  tabStyle view b := styles b view;
  setTabStyle view z b :=
    mkBench (desk b) (checks b) (λ v, if view_eqb v view then z else styles b v);
  tabSetStyle view b := b;
  hideTabBar hide b := b;
  tabCount view b := Z.of_nat (length (tabs (desk b) view));
  tabCurSel view b := indexOf (shown (desk b) view) (tabs (desk b) view);
  tabSetCurFocus view z b := b;
  markOutdated buff b := b;
  unmarkFirstTab buff b := b;
  viewVisible view b := match tabs (desk b) view with [] => false | _ => true end;
  setViewFocus view := onDesk (setFocus view);
  getCurrentLine view b := 0;
  linePosition view line b := 0;
  setSel view a z b := b;
  getZoom view b := 0;
  setZoom view z b := b;
  setFirstVisibleLine view line b := b;
  setNormalView view b := b;
  setCompareView view b := b;
  jumpToFirstChange b := (None, b);
  setStatusBar p b := b;
  fileNew b := b;
  getNumberOfAllFiles b :=
    Z.of_nat (length (tabs (desk b) MAIN_VIEW) + length (tabs (desk b) SUB_VIEW));
  ViewLocation := ViewId;
  newViewLocation view b := view;
  locationView loc := loc;
  restoreLocation loc b := b
}.

Lemma bench_laws : WindowLaws (Host := Bench).
Proof.
  split; try done.
  - intros item b. cbn. by rewrite bool_decide_eq_true_2.
  - intros item item' b Hne. cbn. by rewrite bool_decide_eq_false_2.
  - intros view z b. cbn. by destruct view.
  - intros view view' z b Hne. cbn. by destruct view, view'.
Qed.

Definition noTimers : Timers :=
  mkTimers None None 0 None [] (Scheduler.mkUpdate None 0 0 0 false) None.

(** The plugin with nothing compared, and a bench with the two buffers of
    the desk, no check set, and several lines of tabs in the main view. *)
Definition atRest : Plugin (Host := Bench) :=
  mkPlugin [] None None false (mkNppSettings false false false false) 0 noTimers.

Definition benchOfTwo : Bench :=
  mkBench (deskOfTwo COMPARE_MISMATCH)
          (λ item, match item with IDM_VIEW_SYNSCROLLV => true | _ => false end)
          (λ view, match view with MAIN_VIEW => TCS_MULTILINE | SUB_VIEW => 0 end).

(** The plugin in compare mode with the pair of buffers 10 and 20. *)
Definition comparing : Plugin (Host := Bench) :=
  mkPlugin (Session.compareList comparedTwo.1) None None false
           (mkNppSettings true false true false) 0 noTimers.

Lemma minimize_then_restore_witness :
  let minimized := Nat.iter 3 (messageProc true SIZE_MINIMIZED) atRest in
  notificationsLock minimized = 1 ∧
  notificationsLock
    (runDelayedMaximize (messageProc true SIZE_MAXIMIZED minimized) benchOfTwo).1 = 0.
Proof.
  destruct (minimize_then_restore 3 atRest benchOfTwo) as (Hmin & _ & _ & _ & Hfired & _).
  - reflexivity.
  - lia.
  - split; [exact Hmin|exact Hfired].
Defined.

Lemma scroll_sync_round_trip_witness :
  let entered := setCompareMode false atRest benchOfTwo in
  menuChecked IDM_VIEW_SYNSCROLLV entered.2 = false ∧
  menuChecked IDM_VIEW_SYNSCROLLV
    (setNormalMode false entered.1 (menuToggle IDM_VIEW_SYNSCROLLH entered.2)).2 = true.
Proof.
  destruct (scroll_sync_round_trip bench_laws false false atRest benchOfTwo)
    as (_ & _ & _ & Hoff & _ & _ & Hleft).
  - reflexivity.
  - split; [exact Hoff|].
    destruct (Hleft (menuToggle IDM_VIEW_SYNSCROLLH
                       (setCompareMode false atRest benchOfTwo).2))
      as (_ & Hboth & _).
    destruct Hboth as [Hv _]; [reflexivity|]. exact Hv.
Defined.

Lemma multiline_tabs_round_trip_witness :
  let single := toSingleLineTab (mkNppSettings true false false false) benchOfTwo in
  let multi := restoreMultilineTab single.1 single.2 in
  multilineTabs benchOfTwo = true ∧
  tabStyle SUB_VIEW benchOfTwo = 0 ∧
  tabStyle MAIN_VIEW single.2 = 0 ∧
  tabStyle SUB_VIEW multi.2 = TCS_MULTILINE.
Proof.
  destruct (multiline_tabs_round_trip bench_laws (mkNppSettings true false false false)
              benchOfTwo) as (_ & _ & _ & _ & Hyes).
  - reflexivity.
  - destruct Hyes as (Hmain & _ & _ & Hsub); [reflexivity|].
    split; [reflexivity|]. split; [reflexivity|]. split; [exact Hmain|exact Hsub].
Defined.

Lemma save_requests_full_compare_witness :
  getCompare 10 (compareList comparing) = Some 0%nat ∧
  Scheduler.fullCompare (delayedUpdate (timers (onFileSaved true 10 comparing benchOfTwo).1))
  = true ∧
  delayedAlignment (timers (onFileSaved true 10 comparing benchOfTwo).1) = None.
Proof.
  split; [reflexivity|].
  destruct (compareList comparing) as [|p rest] eqn:Hlist; [discriminate Hlist|].
  destruct (save_requests_full_compare 10 comparing benchOfTwo 0 p)
    as (Hdu & Halign & _).
  - reflexivity.
  - by rewrite Hlist.
  - left. reflexivity.
  - split; [by rewrite Hdu|exact Halign].
Defined.

End Plugin.
